(** * hf-go: quantization labels of GGUF file listings

    A shallow embedding of the parts of [hfmodels.go] and
    [internal/api/client.go] that decide what the library returns:

    - [ExtractQuantsFromSiblings] with its pattern table, the directory
      pattern and [isQuantName];
    - the accessors [CardData.GetBaseModel] and [CardData.GetLicense];
    - the record conversion at the end of [Client.ListModels].

    Go strings are byte sequences; they are modelled by [string], whose
    characters are the 256 values of [ascii].  Case is a matter of runes:
    besides the ASCII letters, four runes have a case map or a case fold
    that reaches an ASCII letter, and [strings.ToUpper], [strings.ToLower]
    and the [(?i)] flag of [regexp] are modelled on the ASCII letters and
    on these four, read in their UTF-8 encoding:

    - U+0130 (C4 B0), whose lower case is [i];
    - U+0131 (C4 B1), whose upper case is [I];
    - U+017F (C5 BF), whose upper case is [S] and which folds with [s];
    - U+212A (E2 84 AA), whose lower case is [k] and which folds with [k].

    Every other byte above 0x7F belongs to no character class of the
    patterns and is left as it is by the case maps.  The Go library maps
    such a rune to a rune outside ASCII and a byte that is not UTF-8 to
    U+FFFD, outside ASCII as well; the code below only compares
    case-mapped text with ASCII text, and only stores the upper case of
    what a pattern has matched, which is ASCII text with U+017F and
    U+212A.

    A run-time panic (an index out of range) is modelled by [None].

    The second half of the file goes on to [internal/pkg/utils/formatters.go]
    ([formatNumber], [buildSeparator], [FormatTable]), to the request of
    [internal/api/client.go] and to the two commands of
    [internal/cli/list_models.go]. *)

From Stdlib Require Import NArith Ascii String.
From stdpp Require Import base option list strings gmap.

Local Open Scope stdpp_scope.
#[local] Set Warnings "-register-all".

(** ** Bytes and the ASCII case maps *)

Module Byte8.

Definition code (c : ascii) : N := N_of_ascii c.

Definition between (lo hi c : ascii) : bool :=
  ((code lo <=? code c) && (code c <=? code hi))%N.

Definition isUpper (c : ascii) : bool := between "A" "Z" c.
Definition isLower (c : ascii) : bool := between "a" "z" c.

(** [c += 'a' - 'A'] on an upper-case letter. *)
Definition toLower (c : ascii) : ascii :=
  if isUpper c then ascii_of_N (code c + 32)%N else c.

(** [c -= 'a' - 'A'] on a lower-case letter. *)
Definition toUpper (c : ascii) : ascii :=
  if isLower c then ascii_of_N (code c - 32)%N else c.

End Byte8.

(** ** The four runes outside ASCII that case ties to an ASCII letter *)

Module unicode.

(** U+0130, LATIN CAPITAL LETTER I WITH DOT ABOVE *)
Definition isDottedI (c c1 : ascii) : bool :=
  Ascii.eqb c "196" && Ascii.eqb c1 "176".

(** U+0131, LATIN SMALL LETTER DOTLESS I *)
Definition isDotlessI (c c1 : ascii) : bool :=
  Ascii.eqb c "196" && Ascii.eqb c1 "177".

(** U+017F, LATIN SMALL LETTER LONG S *)
Definition isLongS (c c1 : ascii) : bool :=
  Ascii.eqb c "197" && Ascii.eqb c1 "191".

(** U+212A, KELVIN SIGN *)
Definition isKelvin (c c1 c2 : ascii) : bool :=
  Ascii.eqb c "226" && Ascii.eqb c1 "132" && Ascii.eqb c2 "170".

End unicode.

(** ** The functions of package [strings] that the code calls *)

Module strings.

Fixpoint Map (f : ascii -> ascii) (s : string) : string :=
  match s with
  | EmptyString => EmptyString
  | String c s' => String (f c) (Map f s')
  end.

(** [strings.ToUpper]: U+0131 becomes [I], U+017F becomes [S], an ASCII
    letter its upper case. *)
Fixpoint ToUpper (s : string) : string :=
  match s with
  | EmptyString => EmptyString
  | String c s1 =>
      match s1 with
      | String c1 s2 =>
          if unicode.isDotlessI c c1 then String "I" (ToUpper s2)
          else if unicode.isLongS c c1 then String "S" (ToUpper s2)
          else String (Byte8.toUpper c) (ToUpper s1)
      | EmptyString => String (Byte8.toUpper c) (ToUpper s1)
      end
  end.

(** [strings.ToLower]: U+0130 becomes [i], U+212A becomes [k], an ASCII
    letter its lower case. *)
Fixpoint ToLower (s : string) : string :=
  match s with
  | EmptyString => EmptyString
  | String c s1 =>
      match s1 with
      | String c1 s2 =>
          if unicode.isDottedI c c1 then String "i" (ToLower s2)
          else
            match s2 with
            | String c2 s3 =>
                if unicode.isKelvin c c1 c2 then String "k" (ToLower s3)
                else String (Byte8.toLower c) (ToLower s1)
            | EmptyString => String (Byte8.toLower c) (ToLower s1)
            end
      | EmptyString => String (Byte8.toLower c) (ToLower s1)
      end
  end.

(** [len(s) >= len(prefix) && s[:len(prefix)] == prefix] *)
Definition HasPrefix (s prefix : string) : bool :=
  (String.length prefix <=? String.length s)%nat
  && String.eqb (String.substring 0 (String.length prefix) s) prefix.

(** [len(s) >= len(suffix) && s[len(s)-len(suffix):] == suffix] *)
Definition HasSuffix (s suffix : string) : bool :=
  (String.length suffix <=? String.length s)%nat
  && String.eqb
       (String.substring (String.length s - String.length suffix)
                         (String.length suffix) s)
       suffix.

(** [strings.Contains(s, "/")] and the first field of
    [strings.SplitN(s, "/", 2)], both for a one-byte separator. *)
Fixpoint ContainsByte (s : string) (sep : ascii) : bool :=
  match s with
  | EmptyString => false
  | String c s' => if Ascii.eqb c sep then true else ContainsByte s' sep
  end.

Fixpoint BeforeByte (s : string) (sep : ascii) : string :=
  match s with
  | EmptyString => EmptyString
  | String c s' =>
      if Ascii.eqb c sep then EmptyString else String c (BeforeByte s' sep)
  end.

End strings.

(** ** The fragment of package [regexp] that the patterns use

    The syntax tree has the operators that occur in the eight patterns of
    [ExtractQuantsFromSiblings].  Repetition is only ever applied to a
    character class, so [Plus] carries the class.  Matching is the
    backtracking search whose first result Go's [regexp] is specified to
    return: the leftmost start position and, from there, the alternatives
    in priority order (greedy repetition tries the longer match first).

    The matcher reads runes.  A class of the patterns holds ASCII runes
    and, under [(?i)], the runes that fold with them: the other case
    of a letter, U+017F with [s] and U+212A with [k].  The literals of the
    patterns hold neither [k] nor [s], so a literal is compared byte by
    byte. *)

Module regexp.

(** A character class is a list of inclusive ranges of ASCII bytes. *)
Definition class := list (ascii * ascii).

Inductive syntax : Type :=
| Literal (s : string)            (* a literal string                    *)
| CharClass (cl : class)          (* [...]                               *)
| Plus (cl : class)               (* [...]+, greedy                      *)
| BeginText                       (* ^                                   *)
| Concat (r1 r2 : syntax)         (* r1 r2                               *)
| Alternate (r1 r2 : syntax)      (* r1|r2                               *)
| Quest (r : syntax)              (* (?:r)?, greedy                      *)
| Capture (r : syntax).           (* (r), the pattern's only group       *)

(** A compiled pattern: the [(?i)] flag and the tree. *)
Record Regexp := { foldCase : bool; expr : syntax }.

Definition inRanges (cl : class) (c : ascii) : bool :=
  existsb (fun r => Byte8.between (fst r) (snd r) c) cl.

(** Under [(?i)] a class also holds the other case of its letters. *)
Definition inClass (fold : bool) (cl : class) (c : ascii) : bool :=
  inRanges cl c
  || (fold && (inRanges cl (Byte8.toLower c) || inRanges cl (Byte8.toUpper c))).

(** Under [(?i)] a class that holds a letter in one of its cases holds
    the runes that fold with the letter. *)
Definition foldsWith (fold : bool) (cl : class) (lower upper : ascii) : bool :=
  fold && (inRanges cl lower || inRanges cl upper).

Definition hasLongS (fold : bool) (cl : class) (c c1 : ascii) : bool :=
  foldsWith fold cl "s" "S" && unicode.isLongS c c1.

Definition hasKelvin (fold : bool) (cl : class) (c c1 c2 : ascii) : bool :=
  foldsWith fold cl "k" "K" && unicode.isKelvin c c1 c2.

(** One rune of the class at the start of the input: its length in bytes
    and the input after it. *)
Definition stepClass (fold : bool) (cl : class) (rest : string)
    : option (nat * string) :=
  match rest with
  | String c rest1 =>
      if inClass fold cl c then Some (1, rest1)
      else
        match rest1 with
        | String c1 rest2 =>
            if hasLongS fold cl c c1 then Some (2, rest2)
            else
              match rest2 with
              | String c2 rest3 =>
                  if hasKelvin fold cl c c1 c2 then Some (3, rest3) else None
              | EmptyString => None
              end
        | EmptyString => None
        end
  | EmptyString => None
  end.

Definition eqChar (fold : bool) (a c : ascii) : bool :=
  if fold then Ascii.eqb (Byte8.toLower a) (Byte8.toLower c) else Ascii.eqb a c.

(** The input left after the literal [lit], when the input starts with it. *)
Fixpoint stripLiteral (fold : bool) (lit rest : string) : option string :=
  match lit with
  | EmptyString => Some rest
  | String a lit' =>
      match rest with
      | String c rest' =>
          if eqChar fold a c then stripLiteral fold lit' rest' else None
      | EmptyString => None
      end
  end.

Definition orElse {A} (x y : option A) : option A :=
  match x with Some _ => x | None => y end.

(** The capture slots of a thread: group 1 as a pair of byte offsets. *)
Definition slots := option (nat * nat).

Section Matcher.
Context {R : Type}.
Variable fold : bool.

(** [cl+] at offset [i]: at least one rune of the class, then as many
    as possible, giving runes back one at a time.  The three cases are
    the ones of [stepClass]. *)
Fixpoint plusLoop (cl : class) (i : nat) (rest : string)
    (k : nat -> string -> option R) : option R :=
  match rest with
  | String c rest1 =>
      if inClass fold cl c
      then orElse (plusLoop cl (i + 1) rest1 k) (k (i + 1) rest1)
      else
        match rest1 with
        | String c1 rest2 =>
            if hasLongS fold cl c c1
            then orElse (plusLoop cl (i + 2) rest2 k) (k (i + 2) rest2)
            else
              match rest2 with
              | String c2 rest3 =>
                  if hasKelvin fold cl c c1 c2
                  then orElse (plusLoop cl (i + 3) rest3 k) (k (i + 3) rest3)
                  else None
              | EmptyString => None
              end
        | EmptyString => None
        end
  | EmptyString => None
  end.

(** [run r i rest cap k]: match [r] at offset [i], where [rest] is the
    input from [i] on, and go on with [k]. *)
Fixpoint run (r : syntax) (i : nat) (rest : string) (cap : slots)
    (k : nat -> string -> slots -> option R) : option R :=
  match r with
  | Literal lit =>
      match stripLiteral fold lit rest with
      | Some rest' => k (i + String.length lit)%nat rest' cap
      | None => None
      end
  | CharClass cl =>
      match stepClass fold cl rest with
      | Some (n, rest') => k (i + n) rest' cap
      | None => None
      end
  | Plus cl => plusLoop cl i rest (fun i' rest' => k i' rest' cap)
  | BeginText => if (i =? 0)%nat then k i rest cap else None
  | Concat r1 r2 =>
      run r1 i rest cap (fun i' rest' cap' => run r2 i' rest' cap' k)
  | Alternate r1 r2 => orElse (run r1 i rest cap k) (run r2 i rest cap k)
  | Quest r1 => orElse (run r1 i rest cap k) (k i rest cap)
  | Capture r1 =>
      run r1 i rest cap (fun i' rest' _ => k i' rest' (Some (i, i')))
  end.
End Matcher.

(** One match: the offsets of the whole match and of group 1. *)
Definition found : Type := (nat * nat) * slots.

Definition matchAt (re : Regexp) (i : nat) (rest : string) : option found :=
  run (foldCase re) (expr re) i rest None
      (fun j _ cap => Some ((i, j), cap)).

(** The leftmost start offset at which the pattern matches. *)
Fixpoint search (re : Regexp) (i : nat) (rest : string) : option found :=
  match matchAt re i rest with
  | Some m => Some m
  | None =>
      match rest with
      | String _ rest' => search re (S i) rest'
      | EmptyString => None
      end
  end.

Definition slice (s : string) (b e : nat) : string :=
  String.substring b (e - b) s.

(** [FindStringSubmatch]: [nil] when there is no match, otherwise the
    text of the match followed by the text of group 1 (the empty string
    for a group that took no part in the match). *)
Definition FindStringSubmatch (re : Regexp) (s : string) : list string :=
  match search re 0 s with
  | None => []
  | Some ((b, e), cap) =>
      [ slice s b e;
        match cap with
        | Some (cb, ce) => slice s cb ce
        | None => ""
        end ]
  end.

End regexp.

(** ** [hfmodels.go]: the extraction of quantization labels *)

Module hfmodels.

Import regexp.

(** [Sibling]: a file of the model repository. *)
Record Sibling := { RFilename : string }.

Definition sepClass : class := [(".", "."); ("_", "_"); ("-", "-")]%char.
Definition digitClass : class := [("0", "9")]%char.
Definition wordClass : class := [("A", "Z"); ("0", "9"); ("_", "_")]%char.

Infix "~>" := Concat (at level 60, right associativity).

(** [regexp.MustCompile] on a pattern that starts with [(?i)]. *)
Definition MustCompileFold (r : syntax) : Regexp :=
  {| foldCase := true; expr := r |}.

(** [Q[0-9]+_[A-Z0-9_]+], [IQ[0-9]+_[A-Z0-9_]+] and [F16|F32|BF16] *)
Definition qShape : syntax :=
  Literal "Q" ~> Plus digitClass ~> Literal "_" ~> Plus wordClass.
Definition iqShape : syntax :=
  Literal "IQ" ~> Plus digitClass ~> Literal "_" ~> Plus wordClass.
Definition floatShape : syntax :=
  Alternate (Literal "F16") (Alternate (Literal "F32") (Literal "BF16")).
(** [(?:UD-)?TQ[0-9]+_[0-9]+] *)
Definition tqShape : syntax :=
  Quest (Literal "UD-") ~> Literal "TQ" ~> Plus digitClass
    ~> Literal "_" ~> Plus digitClass.
(** [-\d+-of-\d+] *)
Definition splitSuffix : syntax :=
  Literal "-" ~> Plus digitClass ~> Literal "-of-" ~> Plus digitClass.

(** The pattern table, in the order of the source. *)
Definition quantPatterns : list Regexp :=
  [ MustCompileFold (CharClass sepClass ~> Capture qShape ~> Literal ".gguf");
    MustCompileFold (CharClass sepClass ~> Capture iqShape ~> Literal ".gguf");
    MustCompileFold (CharClass sepClass ~> Capture floatShape ~> Literal ".gguf");
    MustCompileFold (CharClass sepClass ~> Capture tqShape ~> Literal ".gguf");
    MustCompileFold
      (CharClass sepClass ~> Capture qShape ~> splitSuffix ~> Literal ".gguf");
    MustCompileFold
      (CharClass sepClass ~> Capture iqShape ~> splitSuffix ~> Literal ".gguf");
    MustCompileFold
      (CharClass sepClass ~> Capture floatShape ~> splitSuffix ~> Literal ".gguf") ].

(** [(?i)^([A-Z0-9_]+)/] *)
Definition dirQuantPattern : Regexp :=
  MustCompileFold (BeginText ~> Capture (Plus wordClass) ~> Literal "/").

Definition quantPrefixes : list string :=
  ["Q"; "IQ"; "F16"; "F32"; "BF16"; "TQ"].

(** [isQuantName] checks if a string looks like a quantization name. *)
Definition isQuantName (s : string) : bool :=
  let upper := strings.ToUpper s in
  existsb (fun prefix => strings.HasPrefix upper prefix) quantPrefixes.

(** The directory check of the loop body: the value of [quant] after it. *)
Definition dirQuant (filename : string) : option string :=
  let dirMatch := FindStringSubmatch dirQuantPattern filename in
  if (1 <? length dirMatch)%nat then
    potentialQuant ← dirMatch !! 1%nat;
    Some (if isQuantName potentialQuant then potentialQuant else "")
  else Some "".

(** The loop over the patterns, left at the first one that matches. *)
Fixpoint tryPatterns (patterns : list Regexp) (filename : string)
    : option string :=
  match patterns with
  | [] => Some ""
  | pattern :: patterns' =>
      let matches := FindStringSubmatch pattern filename in
      if (1 <? length matches)%nat then
        m ← matches !! 1%nat;
        Some (strings.ToUpper m)
      else tryPatterns patterns' filename
  end.

(** The value of [quant] at the end of one iteration on a [.gguf] file. *)
Definition quantOf (filename : string) : option string :=
  quant ← dirQuant filename;
  if String.eqb quant "" then tryPatterns quantPatterns filename
  else Some quant.

(** The two locals the loop updates. *)
Record acc := { seen : gmap string bool; quants : list string }.

(** [seen[quant]]: a key that is absent reads as [false]. *)
Definition isSeen (m : gmap string bool) (quant : string) : bool :=
  default false (m !! quant).

(** [strings.HasSuffix(strings.ToLower(filename), ".gguf")] *)
Definition isGGUF (filename : string) : bool :=
  strings.HasSuffix (strings.ToLower filename) ".gguf".

(** One iteration of [for _, s := range siblings]. *)
Definition visit (a : acc) (s : Sibling) : option acc :=
  let filename := RFilename s in
  if negb (isGGUF filename) then Some a
  else
    quant ← quantOf filename;
    if negb (String.eqb quant "") && negb (isSeen (seen a) quant)
    then Some {| seen := <[quant := true]> (seen a);
                 quants := quants a ++ [quant] |}
    else Some a.

(** The loop [for _, s := range siblings]. *)
Fixpoint range (a : acc) (siblings : list Sibling) : option acc :=
  match siblings with
  | [] => Some a
  | s :: siblings' => a' ← visit a s; range a' siblings'
  end.

Definition ExtractQuantsFromSiblings (siblings : list Sibling)
    : option (list string) :=
  a ← range {| seen := ∅; quants := [] |} siblings;
  Some (quants a).

(** A file listing given by its names. *)
Definition files (names : list string) : list Sibling :=
  map (fun n => {| RFilename := n |}) names.

End hfmodels.

(** ** Values of type [interface{}]

    [json.Unmarshal] stores in an [interface{}] one of: [nil], [bool],
    [float64], [string], [[]interface{}] and [map[string]interface{}].
    Go code can store a value of any other type: a [[]string], or a value
    of which the functions below only see that its type is none of the
    former ([Other], with the name of the type).  No function looks
    inside a number, so [float64] stays a parameter. *)

Module dyn.

Inductive any (float64 : Type) : Type :=
| Nil
| Bool (b : bool)
| Float64 (x : float64)
| Str (s : string)
| Slice (v : list (any float64))
| Object (m : list (string * any float64))
| Strings (v : list string)
| Other (typeName : string).

Arguments Nil {float64}.
Arguments Bool {float64} b.
Arguments Float64 {float64} x.
Arguments Str {float64} s.
Arguments Slice {float64} v.
Arguments Object {float64} m.
Arguments Strings {float64} v.
Arguments Other {float64} typeName.

End dyn.

(** ** [hfmodels.go]: the model card *)

Module card.

Import dyn.

Section CardData.
Context {float64 : Type}.

Record CardData := {
  ModelName : string;
  ModelType : string;
  BaseModel : any float64;   (* Can be string or []string *)
  License : any float64;     (* Can be string or []string *)
  QuantizedBy : string
}.

(** [GetBaseModel] returns base_model as a string (first one if array). *)
Definition GetBaseModel (c : CardData) : string :=
  match BaseModel c with
  | Str v => v
  | Slice v =>
      match v with
      | Str s :: _ => s
      | _ => ""
      end
  | _ => ""
  end.

(** [GetLicense] returns license as a string (first one if array). *)
Definition GetLicense (c : CardData) : string :=
  match License c with
  | Str v => v
  | Slice v =>
      match v with
      | Str s :: _ => s
      | _ => ""
      end
  | _ => ""
  end.

(** What the accessors do: [out] is the field when the field is a
    [string], its first element when the field is a [[]interface{}] that
    starts with a [string], and empty in every other case. *)
Definition firstWins (field : any float64) (out : string) : Prop :=
  (exists s, field = Str s /\ out = s)
  \/ (exists s rest, field = Slice (Str s :: rest) /\ out = s)
  \/ ((forall s, field <> Str s)
      /\ (forall s rest, field <> Slice (Str s :: rest))
      /\ out = "").
End CardData.

Arguments CardData float64 : clear implicits.

End card.

(** ** [internal/api/client.go]: from API records to models *)

Module api.

Import dyn.

Section ListModels.
Context {float64 Time : Type}.

(** [apiModel] represents the raw model response from the API. *)
Record apiModel := {
  am_ID : string;
  am_Downloads : Z;
  am_Likes : Z;
  am_LastModified : Time;
  am_LibraryName : string;
  am_PipelineTag : string;
  am_Private : bool;
  am_Gated : any float64;
  am_TrendingScore : float64
}.

(** [models.Model] *)
Record Model := {
  ID : string;
  Author : string;
  Downloads : Z;
  Likes : Z;
  LastModified : Time;
  LibraryName : string;
  PipelineTag : string;
  Private : bool;
  Gated : bool;
  TrendingScore : float64
}.

(** The body of the conversion loop. *)
Definition convert (am : apiModel) : Model :=
  let author :=
    if strings.ContainsByte (am_ID am) "/"
    then strings.BeforeByte (am_ID am) "/"
    else "" in
  let gated :=
    match am_Gated am with
    | Nil => false
    | Bool v => v
    | Str v => negb (String.eqb v "") && negb (String.eqb v "false")
    | _ => false
    end in
  {| ID := am_ID am;
     Author := author;
     Downloads := am_Downloads am;
     Likes := am_Likes am;
     LastModified := am_LastModified am;
     LibraryName := am_LibraryName am;
     PipelineTag := am_PipelineTag am;
     Private := am_Private am;
     Gated := gated;
     TrendingScore := am_TrendingScore am |}.

(** What the HTTP exchange and [json.Unmarshal] hand to the
    conversion: one of the three failures or the decoded records. *)
Inductive error :=
| RequestFailed (err : string)
| StatusNotOK (code : Z) (body : string)
| ParseFailed (err : string).

Definition exchange : Type := error + list apiModel.

(** [ListModels] once the request has been answered. *)
Definition ListModels (x : exchange) : error + list Model :=
  match x with
  | inl err => inl err
  | inr apiModels => inr (map convert apiModels)
  end.
End ListModels.

Arguments apiModel : clear implicits.
Arguments Model : clear implicits.
Arguments error : clear implicits.
Arguments exchange : clear implicits.

End api.

(** ** Words used to state the shape of a filename *)

Module Shape.

Definition isDigit (c : ascii) : bool := Byte8.between "0" "9" c.

(** An ASCII letter, a digit or an underscore. *)
Definition isWord (c : ascii) : bool :=
  Byte8.isUpper c || Byte8.isLower c || isDigit c || Ascii.eqb c "_".

(** One of the separators ['.'], ['_'], ['-']. *)
Definition isSeparator (c : ascii) : bool :=
  Ascii.eqb c "." || Ascii.eqb c "_" || Ascii.eqb c "-".

Definition isQ (c : ascii) : bool := Ascii.eqb c "Q" || Ascii.eqb c "q".

Fixpoint all (f : ascii -> bool) (s : string) : bool :=
  match s with
  | EmptyString => true
  | String c s' => f c && all f s'
  end.

Definition nonEmpty (s : string) : bool := negb (String.eqb s "").

(** The marker [Q<digits>_<word bytes>], from its three parts. *)
Definition qMarker (q : ascii) (digits word : string) : string :=
  String q (digits +:+ "_" +:+ word).

Definition qMarkerOK (q : ascii) (digits word : string) : bool :=
  isQ q && nonEmpty digits && all isDigit digits
  && nonEmpty word && all isWord word.

(** [s] is a sequence of runes: bytes that satisfy [byte] and, when
    allowed, U+017F and U+212A. *)
Fixpoint runes (byte : ascii -> bool) (longS kelvin : bool) (s : string)
    : bool :=
  match s with
  | EmptyString => true
  | String c s1 =>
      if byte c then runes byte longS kelvin s1
      else
        match s1 with
        | String c1 s2 =>
            if longS && unicode.isLongS c c1 then runes byte longS kelvin s2
            else
              match s2 with
              | String c2 s3 =>
                  kelvin && unicode.isKelvin c c1 c2
                  && runes byte longS kelvin s3
              | EmptyString => false
              end
        | EmptyString => false
        end
  end.

(** A run of the runes of [[A-Z0-9_]] under [(?i)]: ASCII letters,
    digits, underscores, U+017F and U+212A. *)
Definition wordRunes (s : string) : bool := runes isWord true true s.

(** A run of runes of the class [cl]. *)
Definition classRunes (fold : bool) (cl : regexp.class) (s : string) : bool :=
  runes (regexp.inClass fold cl)
        (regexp.foldsWith fold cl "s" "S") (regexp.foldsWith fold cl "k" "K") s.

(** The first pattern of the table,
    [(?i)[._-](Q[0-9]+_[A-Z0-9_]+)\.gguf]. *)
Definition qPattern : regexp.Regexp :=
  hfmodels.MustCompileFold
    (regexp.Concat (regexp.CharClass hfmodels.sepClass)
       (regexp.Concat (regexp.Capture hfmodels.qShape)
          (regexp.Literal ".gguf"))).

(** [rest] does not go on with a rune of the class [cl]. *)
Definition stops (fold : bool) (cl : regexp.class) (rest : string) : Prop :=
  regexp.stepClass fold cl rest = None.

(** The filename [p sep marker ext]. *)
Definition withMarker (p : string) (sep : ascii) (marker ext : string)
    : string :=
  p +:+ String sep (marker +:+ ext).

(** The filename has a leading path segment, and the segment is a
    non-empty run of the runes of [[A-Z0-9_]] under [(?i)]. *)
Definition inWordDirectory (filename : string) : bool :=
  strings.ContainsByte filename "/"
  && nonEmpty (strings.BeforeByte filename "/")
  && wordRunes (strings.BeforeByte filename "/").

(** The two locals of the loop agree and [quants] has no duplicate. *)
Definition consistent (a : hfmodels.acc) : Prop :=
  NoDup (hfmodels.quants a)
  /\ forall q,
       hfmodels.isSeen (hfmodels.seen a) q = true <-> q ∈ hfmodels.quants a.

(** Neither the directory check nor any pattern gives a label. *)
Definition unrecognised (filename : string) : bool :=
  match hfmodels.dirQuant filename with
  | Some "" =>
      forallb
        (fun re =>
           match regexp.FindStringSubmatch re filename with
           | [] => true
           | _ => false
           end)
        hfmodels.quantPatterns
  | _ => false
  end.

End Shape.

From Stdlib Require DecimalString DecimalZ DecimalPos.

(** ** The extractor, as a function of the listing *)

Module Listing.

Import hfmodels.

(** The label one file contributes: the value of [quant] at the end of
    its iteration when the file is a [.gguf] file and [quant] is not
    empty. *)
Definition labelOf (s : Sibling) : option string :=
  if isGGUF (RFilename s) then
    match quantOf (RFilename s) with
    | Some quant => if String.eqb quant "" then None else Some quant
    | None => None
    end
  else None.

(** The entries of a list in the order of their first occurrence. *)
Fixpoint firsts (l : list string) : list string :=
  match l with
  | [] => []
  | x :: l' => x :: filter (fun y => y <> x) (firsts l')
  end.

End Listing.

(** ** What a pattern can match

    The words of a syntax tree, without the search: the reference the
    backtracking matcher is checked against. *)

Module Lang.

Import regexp.

(** No capture group below [r]. *)
Fixpoint captureFree (r : syntax) : bool :=
  match r with
  | Literal _ | CharClass _ | Plus _ | BeginText => true
  | Concat r1 r2 | Alternate r1 r2 => captureFree r1 && captureFree r2
  | Quest r1 => captureFree r1
  | Capture _ => false
  end.

(** [w] is a word of [r]. *)
Fixpoint denotes (fold : bool) (r : syntax) (w : string) : Prop :=
  match r with
  | Literal lit => stripLiteral fold lit w = Some ""
  | CharClass cl => exists n, stepClass fold cl w = Some (n, "")
  | Plus cl => w <> "" /\ Shape.classRunes fold cl w = true
  | BeginText => w = ""
  | Concat r1 r2 =>
      exists w1 w2, w = w1 +:+ w2 /\ denotes fold r1 w1 /\ denotes fold r2 w2
  | Alternate r1 r2 => denotes fold r1 w \/ denotes fold r2 w
  | Quest r1 => w = "" \/ denotes fold r1 w
  | Capture r1 => denotes fold r1 w
  end.

(** The pattern has an occurrence in [s] that starts at offset [i]. *)
Definition occurs (re : Regexp) (i : nat) (s : string) : Prop :=
  exists pre w tail,
    s = pre +:+ w +:+ tail /\ String.length pre = i
    /\ denotes (foldCase re) (expr re) w.

(** An ASCII byte that a word of [r] can hold. *)
Fixpoint accepts (fold : bool) (r : syntax) (c : ascii) : bool :=
  match r with
  | Literal lit => negb (Shape.all (fun a => negb (eqChar fold a c)) lit)
  | CharClass cl | Plus cl => inClass fold cl c
  | BeginText => false
  | Concat r1 r2 | Alternate r1 r2 => accepts fold r1 c || accepts fold r2 c
  | Quest r1 | Capture r1 => accepts fold r1 c
  end.

(** A word of one of the four marker shapes of the pattern table. *)
Definition markerWord (group : string) : Prop :=
  denotes true hfmodels.qShape group
  \/ denotes true hfmodels.iqShape group
  \/ denotes true hfmodels.floatShape group
  \/ denotes true hfmodels.tqShape group.

(** An ASCII letter, a digit, an underscore or a dash. *)
Definition labelByte (c : ascii) : bool :=
  Shape.isWord c || Ascii.eqb c "-".

(** A sequence of ASCII letters, digits, underscores, dashes and of the
    runes U+017F and U+212A. *)
Definition labelRunes (s : string) : bool := Shape.runes labelByte true true s.

End Lang.

(** ** The function of package [unicode/utf8] that [fmt] pads with *)

Module utf8.

(** The table [first] with [acceptRanges]: for a byte that can start a
    sequence of several bytes, the length of the sequence and the range
    of its second byte. *)
Definition first (c : ascii) : option (nat * (N * N)) :=
  let n := Byte8.code c in
  if (n <? 0xC2)%N then None
  else if (n <=? 0xDF)%N then Some (2, (0x80, 0xBF)%N)
  else if (n =? 0xE0)%N then Some (3, (0xA0, 0xBF)%N)
  else if (n <=? 0xEC)%N then Some (3, (0x80, 0xBF)%N)
  else if (n =? 0xED)%N then Some (3, (0x80, 0x9F)%N)
  else if (n <=? 0xEF)%N then Some (3, (0x80, 0xBF)%N)
  else if (n =? 0xF0)%N then Some (4, (0x90, 0xBF)%N)
  else if (n <=? 0xF3)%N then Some (4, (0x80, 0xBF)%N)
  else if (n =? 0xF4)%N then Some (4, (0x80, 0x8F)%N)
  else None.

Definition isASCII (c : ascii) : bool := (Byte8.code c <? 0x80)%N.

Definition outside (lo hi : N) (c : ascii) : bool :=
  ((Byte8.code c <? lo) || (hi <? Byte8.code c))%N.

(** The number of bytes the loop of [RuneCountInString] steps over at a
    byte [c] that is followed by [rest]. *)
Definition step (c : ascii) (rest : string) : nat :=
  if (Byte8.code c <? 0x80)%N then 1
  else
    match first c with
    | None => 1
    | Some (size, (lo, hi)) =>
        if (String.length rest <? size - 1)%nat then 1
        else
          match rest with
          | String c1 rest1 =>
              if outside lo hi c1 then 1
              else if (size =? 2)%nat then 2
              else
                match rest1 with
                | String c2 rest2 =>
                    if outside 0x80 0xBF c2 then 1
                    else if (size =? 3)%nat then 3
                    else
                      match rest2 with
                      | String c3 _ =>
                          if outside 0x80 0xBF c3 then 1 else size
                      | EmptyString => 1
                      end
                | EmptyString => 1
                end
          | EmptyString => 1
          end
    end.

(** The loop [for i := 0; i < ns; n++] with [skip] bytes still to step
    over before the next rune starts. *)
Fixpoint count (skip : nat) (s : string) : nat :=
  match s with
  | EmptyString => 0
  | String c s' =>
      match skip with
      | S skip' => count skip' s'
      | O => S (count (step c s' - 1) s')
      end
  end.

Definition RuneCountInString (s : string) : nat := count 0 s.

End utf8.

(** ** [internal/pkg/utils/formatters.go] *)

Module utils.

(** [fmt.Sprintf("%d", n)]: the decimal digits of [n], after a ['-']
    when [n] is negative. *)
Definition Sprintf_d (n : Z) : string :=
  DecimalString.NilZero.string_of_int (Z.to_int n).

(** The loop of [formatNumber] from index [i] on: [str] is what is left
    of the string of length [len].  The string holds ASCII bytes only, so
    the runes of [range str] are its bytes. *)
Fixpoint writeDigits (len i : nat) (str : string) : string :=
  match str with
  | EmptyString => EmptyString
  | String digit str' =>
      (if (0 <? i)%nat && ((len - i) mod 3 =? 0)%nat then "," else "")
      +:+ String digit (writeDigits len (S i) str')
  end.

(** [formatNumber] formats an integer with thousands separators. *)
Definition formatNumber (n : Z) : string :=
  let str := Sprintf_d n in
  if (String.length str <=? 3)%nat then str
  else writeDigits (String.length str) 0 str.

(** [s] without the bytes equal to [sep]. *)
Fixpoint removeByte (sep : ascii) (s : string) : string :=
  match s with
  | EmptyString => EmptyString
  | String c s' =>
      if Ascii.eqb c sep then removeByte sep s' else String c (removeByte sep s')
  end.

(** The fields of [s] between the bytes equal to [sep], as
    [strings.Split] gives them for a one-byte separator. *)
Fixpoint splitByte (sep : ascii) (s : string) : list string :=
  match s with
  | EmptyString => [EmptyString]
  | String c s' =>
      if Ascii.eqb c sep then EmptyString :: splitByte sep s'
      else match splitByte sep s' with
           | field :: fields => String c field :: fields
           | [] => [String c EmptyString]
           end
  end.

(** A digit or the sign. *)
Definition numberByte (c : ascii) : bool :=
  Shape.isDigit c || Ascii.eqb c "-".

(** *** The table *)

Definition newline : string := String "010" "".

Definition len (s : string) : Z := Z.of_nat (String.length s).

(** A text that holds no newline. *)
Definition oneLine (s : string) : Prop := strings.ContainsByte s "010" = false.

Fixpoint repeatString (n : nat) (s : string) : string :=
  match n with
  | O => ""
  | S n' => s +:+ repeatString n' s
  end.

(** [strings.Repeat(s, count)] panics on a negative count.  ([int] is
    modelled by [Z]: the panic on a length [len(s) * count] that overflows
    [int], which needs a count beyond any text that fits in memory, is
    left out.) *)
Definition Repeat (s : string) (count : Z) : option string :=
  if (count <? 0)%Z then None else Some (repeatString (Z.to_nat count) s).

(** [fmt.Sprintf(" %-*s │", width, cell)].  A width beyond a million in
    magnitude is refused by [fmt] and reported in the output; a negative
    width counts as its opposite; the padding is counted in runes. *)
Definition Sprintf_cell (width : Z) (cell : string) : string :=
  if ((1000000 <? width) || (width <? -1000000))%Z
  then " %!(BADWIDTH)" +:+ cell +:+ " │"
  else
    let padding := (Z.abs width - Z.of_nat (utf8.RuneCountInString cell))%Z in
    " " +:+ cell +:+ repeatString (Z.to_nat padding) " " +:+ " │".

(** The loop of [buildSeparator] from index [i] on; [n] is
    [len(widths)].  The sum [width+2] is taken in [Z]: it is the sum of
    the code for every width below the largest [int] by two or more. *)
Fixpoint separatorCells (i n : nat) (widths : list Z) : option string :=
  match widths with
  | [] => Some ""
  | width :: widths' =>
      dashes ← Repeat "─" (width + 2);
      rest ← separatorCells (S i) n widths';
      Some (dashes
            +:+ (if (Z.of_nat i <? Z.of_nat n - 1)%Z then "┼" else "")
            +:+ rest)
  end.

(** [buildSeparator] creates a table separator line. *)
Definition buildSeparator (widths : list Z) : option string :=
  cells ← separatorCells 0 (length widths) widths;
  Some ("├" +:+ cells +:+ "┤").

Definition headers : list string :=
  ["Model ID"; "Author"; "Downloads"; "Likes"; "Last Modified"; "Library";
   "Task"].

(** [for i, h := range headers { widths[i] = len(h) }] *)
Fixpoint setWidths (i : nat) (hs : list string) (widths : list Z)
    : option (list Z) :=
  match hs with
  | [] => Some widths
  | h :: hs' =>
      if (i <? length widths)%nat
      then setWidths (S i) hs' (<[i := len h]> widths)
      else None
  end.

(** [for j, cell := range row { if len(cell) > widths[j] { ... } }] *)
Fixpoint growWidths (j : nat) (row : list string) (widths : list Z)
    : option (list Z) :=
  match row with
  | [] => Some widths
  | cell :: row' =>
      w ← widths !! j;
      growWidths (S j) row'
        (if (w <? len cell)%Z then <[j := len cell]> widths else widths)
  end.

(** [for i, cell := range row { sb.WriteString(fmt.Sprintf(...)) }] *)
Fixpoint writeCells (i : nat) (cells : list string) (widths : list Z)
    : option string :=
  match cells with
  | [] => Some ""
  | cell :: cells' =>
      w ← widths !! i;
      rest ← writeCells (S i) cells' widths;
      Some (Sprintf_cell w cell +:+ rest)
  end.

Fixpoint writeRows (rows : list (list string)) (widths : list Z)
    : option string :=
  match rows with
  | [] => Some ""
  | row :: rows' =>
      line ← writeCells 0 row widths;
      rest ← writeRows rows' widths;
      Some ("│" +:+ line +:+ newline +:+ rest)
  end.

(** The byte lengths of the headers. *)
Definition headerWidths : list Z := [8; 6; 9; 5; 13; 7; 4]%Z.

(** The number of runes of a line drawn for the column [widths], its
    first rune apart: a column takes its width and three more. *)
Definition lineWidth (widths : list Z) : nat :=
  foldr (fun w acc => Z.to_nat w + 3 + acc) 0 widths.

(** Every cell of [row] has its column in [widths] and fits in it. *)
Definition fits (row : list string) (widths : list Z) : Prop :=
  Forall2 (fun cell w => (len cell <= w)%Z) row widths.

Section Table.
Context {float64 Time : Type}.

(** [time.Time.IsZero] and [time.Time.Format("2006-01-02")]. *)
Variable IsZero : Time -> bool.
Variable FormatDate : Time -> string.

(** The cells of one model. *)
Definition rowOf (model : api.Model float64 Time) : list string :=
  let lastModified :=
    if negb (IsZero (api.LastModified model))
    then FormatDate (api.LastModified model)
    else "N/A" in
  let library :=
    if String.eqb (api.LibraryName model) "" then "N/A"
    else api.LibraryName model in
  let task :=
    if String.eqb (api.PipelineTag model) "" then "N/A"
    else api.PipelineTag model in
  [ api.ID model;
    api.Author model;
    formatNumber (api.Downloads model);
    formatNumber (api.Likes model);
    lastModified;
    library;
    task ].

(** The loop that prepares the rows and updates the column widths. *)
Fixpoint prepareRows (modelsList : list (api.Model float64 Time))
    (widths : list Z) : option (list (list string) * list Z) :=
  match modelsList with
  | [] => Some ([], widths)
  | model :: modelsList' =>
      widths' ← growWidths 0 (rowOf model) widths;
      prepared ← prepareRows modelsList' widths';
      Some (rowOf model :: prepared.1, prepared.2)
  end.

(** [FormatTable] formats models as a pretty-printed table. *)
Definition FormatTable (modelsList : list (api.Model float64 Time))
    : option string :=
  if (length modelsList =? 0)%nat
  then Some "No models found matching the specified criteria."
  else
    widths ← setWidths 0 headers (replicate (length headers) 0%Z);
    prepared ← prepareRows modelsList widths;
    separator ← buildSeparator prepared.2;
    header ← writeCells 0 headers prepared.2;
    body ← writeRows prepared.1 prepared.2;
    Some (separator +:+ newline
          +:+ "│" +:+ header +:+ newline
          +:+ separator +:+ newline
          +:+ body
          +:+ separator).

End Table.

End utils.

(** ** [internal/api/client.go]: the request *)

Module client.

(** [models.ListModelsOptions] *)
Record ListModelsOptions := {
  Search : string;
  Filter : string;
  Author : string;
  PipelineTag : string;
  LibraryName : string;
  Language : string;
  Tag : string;
  Limit : Z;
  Sort : string;
  Direction : Z;
  Token : string
}.

(** [api.Client], without its [*http.Client]. *)
Record Client := { BaseURL : string; ClientToken : string }.

Definition DefaultAPIURL : string := "https://huggingface.co/api/models".

Definition NewClient (token : string) : Client :=
  {| BaseURL := DefaultAPIURL; ClientToken := token |}.

(** [url.Values] and its method [Add]. *)
Abbreviation Values := (gmap string (list string)).

Definition Add (v : Values) (key value : string) : Values :=
  <[key := default [] (v !! key) ++ [value]]> v.

(** [strconv.Itoa] *)
Definition Itoa (n : Z) : string := utils.Sprintf_d n.

(** The query parameters that [ListModels] builds. *)
Definition params (opts : ListModelsOptions) : Values :=
  let p : Values := ∅ in
  let p := if negb (String.eqb (Search opts) "")
           then Add p "search" (Search opts) else p in
  let p := if negb (String.eqb (Filter opts) "")
           then Add p "filter" (Filter opts) else p in
  let p := if negb (String.eqb (Author opts) "")
           then Add p "author" (Author opts) else p in
  let p := if negb (String.eqb (PipelineTag opts) "")
           then Add p "pipeline_tag" (PipelineTag opts) else p in
  let p := if negb (String.eqb (LibraryName opts) "")
           then Add p "library" (LibraryName opts) else p in
  let p := if negb (String.eqb (Language opts) "")
           then Add p "language" (Language opts) else p in
  let p := if negb (String.eqb (Tag opts) "")
           then Add p "tags" (Tag opts) else p in
  let p := if (0 <? Limit opts)%Z
           then Add p "limit" (Itoa (Limit opts)) else p in
  let p := if negb (String.eqb (Sort opts) "")
           then Add p "sort" (Sort opts) else p in
  let p := if negb (Direction opts =? 0)%Z
           then Add p "direction" (Itoa (Direction opts)) else p in
  p.

(** The parameter that the request carries under [key]: the option of
    that key when the option is set. *)
Definition sent (opts : ListModelsOptions) (key : string)
    : option (list string) :=
  let text (v : string) := if String.eqb v "" then None else Some [v] in
  if String.eqb key "search" then text (Search opts)
  else if String.eqb key "filter" then text (Filter opts)
  else if String.eqb key "author" then text (Author opts)
  else if String.eqb key "pipeline_tag" then text (PipelineTag opts)
  else if String.eqb key "library" then text (LibraryName opts)
  else if String.eqb key "language" then text (Language opts)
  else if String.eqb key "tags" then text (Tag opts)
  else if String.eqb key "limit"
       then if (0 <? Limit opts)%Z then Some [Itoa (Limit opts)] else None
  else if String.eqb key "sort" then text (Sort opts)
  else if String.eqb key "direction"
       then if (Direction opts =? 0)%Z then None
            else Some [Itoa (Direction opts)]
  else None.

(** What [ListModels] hands to [http.NewRequest] and sets on the
    request. *)
Record Request := { URL : string; Authorization : option string }.

Section Request.

(** [url.Values.Encode] *)
Variable Encode : Values -> string.

Definition reqURL (c : Client) (opts : ListModelsOptions) : string :=
  if (0 <? size (params opts))%nat
  then BaseURL c +:+ "?" +:+ Encode (params opts)
  else BaseURL c.

Definition authorization (c : Client) (opts : ListModelsOptions)
    : option string :=
  let token := if String.eqb (Token opts) "" then ClientToken c
               else Token opts in
  if negb (String.eqb token "") then Some ("Bearer " +:+ token) else None.

Definition newRequest (c : Client) (opts : ListModelsOptions) : Request :=
  {| URL := reqURL c opts; Authorization := authorization c opts |}.

End Request.

End client.

(** ** [internal/cli/list_models.go] *)

Module cli.

(** [cli.ListModelsOptions] holds the CLI flags. *)
Record ListModelsOptions := {
  Search : string;
  Filter : string;
  Author : string;
  PipelineTag : string;
  LibraryName : string;
  Language : string;
  Tag : string;
  Limit : Z;
  Sort : string;
  Direction : Z;
  OutputFormat : string;
  Token : string
}.

Inductive error :=
| ListFailed (err : api.error)        (* failed to list models: ...      *)
| FormatFailed (err : string)         (* failed to (format|marshal) JSON *)
| Unsupported (format : string).      (* unsupported output format: ...  *)

Section Commands.
Context {float64 Time : Type}.

(** [time.Time.IsZero], [time.Time.Format("2006-01-02")],
    [url.Values.Encode] and [json.MarshalIndent(_, "", "  ")]. *)
Variable IsZero : Time -> bool.
Variable FormatDate : Time -> string.
Variable Encode : client.Values -> string.
Variable MarshalIndent : list (api.Model float64 Time) -> string + string.

(** The exchange with the Hub: from the request to the decoded body. *)
Variable do : client.Request -> api.exchange float64 Time.

(** [utils.FormatJSON] formats models as JSON. *)
Definition FormatJSON (modelsList : list (api.Model float64 Time))
    : string + string :=
  if (length modelsList =? 0)%nat then inr "[]"
  else MarshalIndent modelsList.

(** [api.Client.ListModels]: the request, then the conversion. *)
Definition fetch (c : client.Client) (opts : client.ListModelsOptions)
    : api.error + list (api.Model float64 Time) :=
  api.ListModels (do (client.newRequest Encode c opts)).

(** The [switch] on the output format. *)
Definition render (format : string)
    (modelsList : list (api.Model float64 Time))
    : option (error + string) :=
  if String.eqb format "json" then
    match FormatJSON modelsList with
    | inl err => Some (inl (FormatFailed err))
    | inr output => Some (inr output)
    end
  else if String.eqb format "table" then
    output ← utils.FormatTable IsZero FormatDate modelsList;
    Some (inr output)
  else Some (inl (Unsupported format)).

(** [ListModels] is a public function that can be used as a library. *)
Definition ListModels (opts : client.ListModelsOptions) (format : string)
    : option (error + string) :=
  let c := client.NewClient (client.Token opts) in
  match fetch c opts with
  | inl err => Some (inl (ListFailed err))
  | inr modelsList => render format modelsList
  end.

(** The options [runListModels] passes on; [env] is the value of
    [HF_TOKEN]. *)
Definition token (opts : ListModelsOptions) (env : string) : string :=
  if String.eqb (Token opts) "" then env else Token opts.

Definition apiOpts (opts : ListModelsOptions) (env : string)
    : client.ListModelsOptions :=
  {| client.Search := Search opts;
     client.Filter := Filter opts;
     client.Author := Author opts;
     client.PipelineTag := PipelineTag opts;
     client.LibraryName := LibraryName opts;
     client.Language := Language opts;
     client.Tag := Tag opts;
     client.Limit := Limit opts;
     client.Sort := Sort opts;
     client.Direction := Direction opts;
     client.Token := token opts env |}.

(** [runListModels] executes the list-models command: what it prints
    with [fmt.Println], or its error. *)
Definition runListModels (opts : ListModelsOptions) (env : string)
    : option (error + string) :=
  let c := client.NewClient (token opts env) in
  match fetch c (apiOpts opts env) with
  | inl err => Some (inl (ListFailed err))
  | inr modelsList => render (OutputFormat opts) modelsList
  end.

End Commands.

End cli.

(** * Properties *)

Import hfmodels.

(** ** Worked listings *)

(** C7: on ["readme.md"; "model-Q4_K_M.gguf"; "model-Q8_0.gguf"] the
    extractor returns exactly ["Q4_K_M"; "Q8_0"]: the entry that is not a
    [.gguf] file is ignored and the labels come in first-seen order. *)
Theorem ExtractQuants_mixed_listing :
  ExtractQuantsFromSiblings
    (files ["readme.md"; "model-Q4_K_M.gguf"; "model-Q8_0.gguf"])
  = Some ["Q4_K_M"; "Q8_0"].
Proof. vm_compute. reflexivity. Qed.

(** C5: on the single filename "BF16/model-Q4_K_M-00001-of-00005.gguf"
    the extractor returns ["BF16"]: the quant-named directory wins over
    the Q-pattern of the filename itself. *)
Theorem ExtractQuants_directory_first :
  ExtractQuantsFromSiblings (files ["BF16/model-Q4_K_M-00001-of-00005.gguf"])
  = Some ["BF16"].
Proof. vm_compute. reflexivity. Qed.

(** The remaining examples of the specification. *)
Example ExtractQuants_examples :
  ExtractQuantsFromSiblings (files ["model-Q4_K_M.gguf"]) = Some ["Q4_K_M"]
  /\ ExtractQuantsFromSiblings (files ["model-Q4_K_M-00001-of-00005.gguf"])
     = Some ["Q4_K_M"]
  /\ ExtractQuantsFromSiblings (files ["model.F16.gguf"]) = Some ["F16"]
  /\ ExtractQuantsFromSiblings (files ["model.BF16.gguf"]) = Some ["BF16"]
  /\ ExtractQuantsFromSiblings (files ["model-UD-TQ1_0.gguf"])
     = Some ["UD-TQ1_0"].
Proof. vm_compute. repeat split. Qed.

(** C1: a label taken from a directory name keeps the casing of the
    directory.  On the listing ["q4_k_m/model.gguf"] the extractor returns
    ["q4_k_m"], which differs from its upper-casing "Q4_K_M". *)
Theorem ExtractQuants_directory_label_keeps_case :
  ExtractQuantsFromSiblings (files ["q4_k_m/model.gguf"]) = Some ["q4_k_m"]
  /\ strings.ToUpper "q4_k_m" <> "q4_k_m".
Proof. split; [vm_compute; reflexivity | vm_compute; discriminate]. Qed.

(** C2: the same directory label in two casings, or a directory label and
    the upper-cased label of a filename pattern, are both kept although
    they are equal once upper-cased. *)
Theorem ExtractQuants_labels_equal_up_to_case :
  ExtractQuantsFromSiblings (files ["q4_k_m/model.gguf"; "model-Q4_K_M.gguf"])
  = Some ["q4_k_m"; "Q4_K_M"]
  /\ strings.ToUpper "q4_k_m" = strings.ToUpper "Q4_K_M".
Proof. split; vm_compute; reflexivity. Qed.

(** C3, as stated, fails on "Q4_K_M.gguf": the marker Q4_K_M directly
    precedes the extension, no separator precedes the marker, and the
    extractor finds no label. *)
Lemma ExtractQuants_marker_without_separator :
  Shape.qMarkerOK "Q" "4" "K_M" = true
  /\ isGGUF ("" +:+ Shape.qMarker "Q" "4" "K_M" +:+ ".gguf") = true
  /\ ExtractQuantsFromSiblings
       (files ["" +:+ Shape.qMarker "Q" "4" "K_M" +:+ ".gguf"])
     = Some []
  /\ ExtractQuantsFromSiblings
       (files ["" +:+ Shape.qMarker "Q" "4" "K_M" +:+ ".gguf"])
     <> Some [strings.ToUpper (Shape.qMarker "Q" "4" "K_M")].
Proof. vm_compute. repeat split; discriminate. Qed.

(** C4, as stated, fails on "Q4-K/model-Q8_0.gguf": the leading segment
    "Q4-K" begins with the prefix Q, yet the label is the one of the
    filename pattern, "Q8_0". *)
Lemma ExtractQuants_directory_with_dash :
  let filename := "Q4-K/model-Q8_0.gguf" in
  isGGUF filename = true
  /\ strings.ContainsByte filename "/" = true
  /\ strings.BeforeByte filename "/" = "Q4-K"
  /\ isQuantName "Q4-K" = true
  /\ ExtractQuantsFromSiblings (files [filename]) = Some ["Q8_0"]
  /\ ExtractQuantsFromSiblings (files [filename]) <> Some ["Q4-K"].
Proof. vm_compute. repeat split; discriminate. Qed.

(** ** The extractor never panics *)

Section Totality.

Lemma FindStringSubmatch_shape re s :
  regexp.FindStringSubmatch re s = []
  \/ exists whole group, regexp.FindStringSubmatch re s = [whole; group].
Proof.
  unfold regexp.FindStringSubmatch.
  destruct (regexp.search re 0 s) as [[[b e] cap]|]; [right | left]; eauto.
Qed.

Lemma dirQuant_total filename : is_Some (dirQuant filename).
Proof.
  unfold dirQuant.
  destruct (FindStringSubmatch_shape dirQuantPattern filename)
    as [-> | (whole & group & ->)]; simpl; eauto.
Qed.

Lemma tryPatterns_total patterns filename :
  is_Some (tryPatterns patterns filename).
Proof.
  induction patterns as [|re patterns IH]; simpl; [eauto |].
  destruct (FindStringSubmatch_shape re filename)
    as [-> | (whole & group & ->)]; simpl; eauto.
Qed.

Lemma quantOf_total filename : is_Some (quantOf filename).
Proof.
  unfold quantOf.
  destruct (dirQuant_total filename) as [quant ->]; cbn -[tryPatterns].
  destruct (String.eqb quant ""); [apply tryPatterns_total | eauto].
Qed.

Lemma visit_total a s : is_Some (visit a s).
Proof.
  unfold visit.
  destruct (negb (isGGUF (RFilename s))); [eauto |].
  destruct (quantOf_total (RFilename s)) as [quant ->]; simpl.
  destruct (_ && _); eauto.
Qed.

Lemma range_total siblings : forall a, is_Some (range a siblings).
Proof.
  induction siblings as [|s siblings IH]; intros a; simpl; [eauto |].
  destruct (visit_total a s) as [a' ->]; simpl. apply IH.
Qed.

End Totality.

(** ** Files that are skipped *)

Section Skipped.

Lemma visit_not_gguf a s :
  isGGUF (RFilename s) = false -> visit a s = Some a.
Proof. intros H. unfold visit. rewrite H. reflexivity. Qed.

Lemma tryPatterns_no_match patterns filename :
  forallb
    (fun re =>
       match regexp.FindStringSubmatch re filename with
       | [] => true
       | _ => false
       end) patterns = true ->
  tryPatterns patterns filename = Some "".
Proof.
  induction patterns as [|re patterns IH]; simpl; [reflexivity |].
  intros [Hre Hrest]%andb_true_iff.
  destruct (regexp.FindStringSubmatch re filename); [| discriminate].
  simpl. auto.
Qed.

Lemma visit_unrecognised a s :
  Shape.unrecognised (RFilename s) = true -> visit a s = Some a.
Proof.
  unfold Shape.unrecognised, visit, quantOf. intros H.
  destruct (negb (isGGUF (RFilename s))); [reflexivity |].
  destruct (dirQuant (RFilename s)) as [[|c quant]|]; try discriminate.
  cbn -[tryPatterns]. rewrite (tryPatterns_no_match _ _ H). reflexivity.
Qed.

Lemma range_skip (skip : Sibling -> bool) :
  (forall a s, skip s = true -> visit a s = Some a) ->
  forall siblings a, range a (List.filter skip siblings) = Some a.
Proof.
  intros Hskip siblings.
  induction siblings as [|s siblings IH]; intros a; simpl; [reflexivity |].
  destruct (skip s) eqn:Hs; [| apply IH].
  simpl. rewrite (Hskip a s Hs). simpl. apply IH.
Qed.

Lemma range_gguf_only siblings :
  forall a,
    range a (List.filter (fun s => isGGUF (RFilename s)) siblings)
    = range a siblings.
Proof.
  induction siblings as [|s siblings IH]; intros a; simpl; [reflexivity |].
  destruct (isGGUF (RFilename s)) eqn:Hs; simpl.
  - destruct (visit a s) as [a'|]; simpl; [apply IH | reflexivity].
  - rewrite (visit_not_gguf a s Hs). simpl. apply IH.
Qed.

End Skipped.

(** C6: the extractor returns on a listing what it returns on the
    sub-listing of the filenames that end, case-insensitively, in
    ".gguf"; the other filenames contribute nothing, whatever they
    contain. *)
Theorem ExtractQuants_only_reads_gguf (siblings : list Sibling) :
  ExtractQuantsFromSiblings siblings
  = ExtractQuantsFromSiblings
      (List.filter
         (fun s => strings.HasSuffix (strings.ToLower (RFilename s)) ".gguf")
         siblings).
Proof.
  unfold ExtractQuantsFromSiblings.
  change (fun s => strings.HasSuffix (strings.ToLower (RFilename s)) ".gguf")
    with (fun s => isGGUF (RFilename s)).
  rewrite range_gguf_only. reflexivity.
Qed.

(** C8: the extractor is total.  On every listing it returns a list of
    labels and never panics; a listing without [.gguf] files, and a
    listing whose files carry no recognisable marker, both give the empty
    list. *)
Theorem ExtractQuants_total :
  (forall siblings, exists labels, ExtractQuantsFromSiblings siblings = Some labels)
  /\ (forall siblings,
        ExtractQuantsFromSiblings
          (List.filter (fun s => negb (isGGUF (RFilename s))) siblings)
        = Some [])
  /\ (forall siblings,
        ExtractQuantsFromSiblings
          (List.filter (fun s => Shape.unrecognised (RFilename s)) siblings)
        = Some []).
Proof.
  unfold ExtractQuantsFromSiblings. repeat split; intros siblings.
  - destruct (range_total siblings {| seen := ∅; quants := [] |}) as [a ->].
    simpl. eauto.
  - rewrite range_skip; [reflexivity |].
    intros a s Hs. apply visit_not_gguf.
    destruct (isGGUF (RFilename s)); [discriminate | reflexivity].
  - rewrite range_skip; [reflexivity |].
    intros a s Hs. apply visit_unrecognised, Hs.
Qed.

(** ** The model card and the listing *)

Section Card.
Context {float64 : Type}.
Import dyn card.

Local Ltac first_wins field :=
  destruct field as [| b | x | s | [|[] rest] | m | v | t];
  first
    [ left; eexists; split; reflexivity
    | right; left; do 2 eexists; split; reflexivity
    | right; right; repeat split; congruence ].

Lemma GetBaseModel_firstWins (c : CardData float64) :
  firstWins (BaseModel c) (GetBaseModel c).
Proof. unfold GetBaseModel. first_wins (BaseModel c). Qed.

Lemma GetLicense_firstWins (c : CardData float64) :
  firstWins (License c) (GetLicense c).
Proof. unfold GetLicense. first_wins (License c). Qed.

(** What the accessors do on every card: they return the field when it
    is a [string], the first element when it is a [[]interface{}] whose
    first element is a [string], and the empty string for every other
    value. *)
Lemma card_accessors_first_wins (c : CardData float64) :
  firstWins (BaseModel c) (GetBaseModel c)
  /\ firstWins (License c) (GetLicense c).
Proof. split; [apply GetBaseModel_firstWins | apply GetLicense_firstWins]. Qed.

(** A field that holds a [[]string] is a list of strings for which the
    type switch has no case. *)
Lemma accessors_of_Strings (c : CardData float64) v :
  (BaseModel c = Strings v -> GetBaseModel c = "")
  /\ (License c = Strings v -> GetLicense c = "").
Proof.
  unfold GetBaseModel, GetLicense. split; intros ->; reflexivity.
Qed.
End Card.

(** C9: on the card whose [base_model] is the Go value
    [[]string{"llama"}] and whose [license] is [[]string{"mit"}], two
    non-empty lists whose first element is a string, [GetBaseModel] and
    [GetLicense] return the empty string and not the first element. *)
Theorem card_accessors_miss_string_slice :
  let c : card.CardData unit :=
    {| card.ModelName := "";
       card.ModelType := "";
       card.BaseModel := dyn.Strings ["llama"];
       card.License := dyn.Strings ["mit"];
       card.QuantizedBy := "" |} in
  card.GetBaseModel c = "" /\ card.GetLicense c = ""
  /\ card.GetBaseModel c <> "llama" /\ card.GetLicense c <> "mit".
Proof. cbv zeta. repeat split; discriminate. Qed.

Section Listing.
Context {float64 Time : Type}.
Import dyn api.

Lemma convert_Gated (am : apiModel float64 Time) :
  Gated (convert am) = true
  <-> am_Gated am = Bool true
      \/ exists s, am_Gated am = Str s /\ s <> "" /\ s <> "false".
Proof.
  unfold convert; simpl.
  destruct (am_Gated am) as [| b | x | s | v | m | v | t]; simpl.
  - split; [discriminate | intros [H | (s & H & _)]; discriminate].
  - split; [intros ->; auto | intros [H | (s & H & _)]; congruence].
  - split; [discriminate | intros [H | (s & H & _)]; discriminate].
  - rewrite andb_true_iff, !negb_true_iff, !String.eqb_neq. split.
    + intros [H1 H2]. right. eauto.
    + intros [H | (s' & H & H1 & H2)]; [discriminate |].
      injection H as ->. auto.
  - split; [discriminate | intros [H | (s & H & _)]; discriminate].
  - split; [discriminate | intros [H | (s & H & _)]; discriminate].
  - split; [discriminate | intros [H | (s & H & _)]; discriminate].
  - split; [discriminate | intros [H | (s & H & _)]; discriminate].
Qed.

(** C10: [ListModels] converts every API record to a model whose
    [Gated] field is true exactly when the raw value is the boolean
    true, or a string that is neither empty nor "false"; for every
    other raw value, [nil] included, it is false. *)
Theorem ListModels_Gated (apiModels : list (apiModel float64 Time)) :
  exists models,
    ListModels (inr apiModels) = inr models
    /\ Forall2
         (fun am m =>
            Gated m = true
            <-> am_Gated am = Bool true
                \/ exists s, am_Gated am = Str s /\ s <> "" /\ s <> "false")
         apiModels models.
Proof.
  exists (map convert apiModels). split; [reflexivity |].
  induction apiModels as [|am apiModels IH]; simpl; constructor.
  - apply convert_Gated.
  - apply IH.
Qed.
End Listing.

(** ** Strings *)

Section StringFacts.

Lemma app_String c s t : String c s +:+ t = String c (s +:+ t).
Proof. reflexivity. Qed.

Lemma app_assoc3 a b c : (a +:+ b) +:+ c = a +:+ (b +:+ c).
Proof.
  induction a as [|x a IH]; [reflexivity |].
  rewrite !app_String, IH. reflexivity.
Qed.

Lemma length_app a b :
  String.length (a +:+ b) = String.length a + String.length b.
Proof.
  induction a as [|x a IH]; [reflexivity |].
  rewrite app_String. simpl. rewrite IH. reflexivity.
Qed.

Lemma substring_all s : String.substring 0 (String.length s) s = s.
Proof. induction s as [|c s IH]; simpl; [reflexivity | rewrite IH; reflexivity]. Qed.

Lemma substring_prefix a b :
  String.substring 0 (String.length a) (a +:+ b) = a.
Proof.
  induction a as [|x a IH]; [destruct b; reflexivity |].
  rewrite app_String. simpl. rewrite IH. reflexivity.
Qed.

Lemma substring_skip a n m b :
  String.substring (String.length a + n) m (a +:+ b) = String.substring n m b.
Proof.
  induction a as [|x a IH]; [reflexivity |].
  rewrite app_String. simpl. apply IH.
Qed.

Lemma substring_middle a b c :
  String.substring (String.length a) (String.length b) (a +:+ b +:+ c) = b.
Proof.
  rewrite <- (Nat.add_0_r (String.length a)), substring_skip.
  apply substring_prefix.
Qed.

Lemma Map_app f a b :
  strings.Map f (a +:+ b) = strings.Map f a +:+ strings.Map f b.
Proof.
  induction a as [|x a IH]; [reflexivity |].
  rewrite app_String. simpl. rewrite IH. reflexivity.
Qed.

Lemma Map_length f s : String.length (strings.Map f s) = String.length s.
Proof. induction s as [|c s IH]; simpl; [reflexivity | rewrite IH; reflexivity]. Qed.

Lemma HasSuffix_app a b : strings.HasSuffix (a +:+ b) b = true.
Proof.
  unfold strings.HasSuffix. rewrite length_app. apply andb_true_iff. split.
  - apply Nat.leb_le. lia.
  - replace (String.length a + String.length b - String.length b)
      with (String.length a + 0) by lia.
    rewrite substring_skip, substring_all. apply String.eqb_refl.
Qed.

Lemma split_at_byte s sep :
  strings.ContainsByte s sep = true ->
  exists rest, s = strings.BeforeByte s sep +:+ String sep rest.
Proof.
  induction s as [|c s IH]; simpl; [discriminate |].
  destruct (Ascii.eqb_spec c sep) as [-> | Hne].
  - intros _. exists s. reflexivity.
  - intros [rest Hrest]%IH. exists rest.
    rewrite app_String, <- Hrest. reflexivity.
Qed.

Lemma app_empty_r' s : s +:+ "" = s.
Proof.
  induction s as [|c s IH]; [reflexivity |].
  rewrite app_String, IH. reflexivity.
Qed.

Lemma app_inv_length a b a' b' :
  a +:+ b = a' +:+ b' -> String.length a = String.length a' ->
  a = a' /\ b = b'.
Proof.
  revert a'. induction a as [|x a IH]; intros [|x' a']; cbn [String.length];
    try discriminate.
  - auto.
  - rewrite !app_String. intros [= -> H] [= Hlen].
    destruct (IH _ H Hlen) as [-> ->]. auto.
Qed.

Lemma String_inj a x b y : String a x = String b y -> a = b /\ x = y.
Proof. intros [= -> ->]. auto. Qed.

(** Induction on the length of a string: the functions that read runes
    step over one, two or three bytes at a time. *)
Lemma string_length_ind (P : string -> Prop) :
  (forall s, (forall t, String.length t < String.length s -> P t) -> P s) ->
  forall s, P s.
Proof.
  intros H s. remember (String.length s) as n eqn:Hn. revert s Hn.
  induction n as [n IH] using lt_wf_ind. intros s ->.
  apply H. intros t Ht. apply (IH _ Ht). reflexivity.
Qed.

Lemma all_ext_impl (f g : ascii -> bool) s :
  (forall c, f c = true -> g c = true) ->
  Shape.all f s = true -> Shape.all g s = true.
Proof.
  intros Hfg. induction s as [|c s IH]; simpl; [reflexivity |].
  intros [Hc Hs]%andb_true_iff. rewrite (Hfg _ Hc), (IH Hs). reflexivity.
Qed.

End StringFacts.

(** ** Bytes: the classes of the patterns under [(?i)] *)

Section ByteFacts.

Local Ltac by_cases c := destruct c as [[] [] [] [] [] [] [] []]; reflexivity.

Lemma inClass_word c : regexp.inClass true wordClass c = Shape.isWord c.
Proof. by_cases c. Qed.

Lemma inClass_digit c : regexp.inClass true digitClass c = Shape.isDigit c.
Proof. by_cases c. Qed.

Lemma inClass_separator c : regexp.inClass true sepClass c = Shape.isSeparator c.
Proof. by_cases c. Qed.

Lemma eqChar_Q c : regexp.eqChar true "Q" c = Shape.isQ c.
Proof. by_cases c. Qed.

Lemma toUpper_idempotent c : Byte8.toUpper (Byte8.toUpper c) = Byte8.toUpper c.
Proof. by_cases c. Qed.

Lemma toUpper_toLower c : Byte8.toUpper (Byte8.toLower c) = Byte8.toUpper c.
Proof. by_cases c. Qed.

Lemma toUpper_ascii c : utf8.isASCII (Byte8.toUpper c) = utf8.isASCII c.
Proof. by_cases c. Qed.

Lemma toLower_ascii c : utf8.isASCII (Byte8.toLower c) = utf8.isASCII c.
Proof. by_cases c. Qed.

Local Ltac by_cases_in c :=
  destruct c as [[] [] [] [] [] [] [] []]; (reflexivity || discriminate).

Lemma toLower_dot c : Byte8.toLower c = "."%char -> c = "."%char.
Proof. by_cases_in c. Qed.

(** An ASCII byte starts none of the four runes, and is the second or
    third byte of none. *)
Lemma ascii_not_lead c :
  utf8.isASCII c = true ->
  Ascii.eqb c "196" = false /\ Ascii.eqb c "197" = false
  /\ Ascii.eqb c "226" = false.
Proof. destruct c as [[] [] [] [] [] [] [] []]; (discriminate || auto). Qed.

Lemma ascii_not_trail c :
  utf8.isASCII c = true ->
  Ascii.eqb c "176" = false /\ Ascii.eqb c "177" = false
  /\ Ascii.eqb c "191" = false /\ Ascii.eqb c "132" = false
  /\ Ascii.eqb c "170" = false.
Proof. destruct c as [[] [] [] [] [] [] [] []]; (discriminate || auto 6). Qed.

(** The case maps keep the bytes above 0x7F. *)
Lemma toUpper_high c : utf8.isASCII c = false -> Byte8.toUpper c = c.
Proof. by_cases_in c. Qed.

Lemma toLower_high c : utf8.isASCII c = false -> Byte8.toLower c = c.
Proof. by_cases_in c. Qed.

End ByteFacts.

(** ** The case maps *)

Section CaseMaps.

Import unicode.

Lemma ToUpper_eq c s :
  strings.ToUpper (String c s)
  = match s with
    | String c1 s2 =>
        if isDotlessI c c1 then String "I" (strings.ToUpper s2)
        else if isLongS c c1 then String "S" (strings.ToUpper s2)
        else String (Byte8.toUpper c) (strings.ToUpper s)
    | EmptyString => String (Byte8.toUpper c) ""
    end.
Proof. destruct s; reflexivity. Qed.

Lemma ToLower_eq c s :
  strings.ToLower (String c s)
  = match s with
    | String c1 s2 =>
        if isDottedI c c1 then String "i" (strings.ToLower s2)
        else
          match s2 with
          | String c2 s3 =>
              if isKelvin c c1 c2 then String "k" (strings.ToLower s3)
              else String (Byte8.toLower c) (strings.ToLower s)
          | EmptyString => String (Byte8.toLower c) (strings.ToLower s)
          end
    | EmptyString => String (Byte8.toLower c) ""
    end.
Proof. destruct s as [|c1 [|c2 s3]]; reflexivity. Qed.

(** A byte that starts no rune is mapped on its own. *)
Lemma ToUpper_byte c s :
  Ascii.eqb c "196" = false -> Ascii.eqb c "197" = false ->
  strings.ToUpper (String c s) = String (Byte8.toUpper c) (strings.ToUpper s).
Proof.
  intros H1 H2. rewrite ToUpper_eq. destruct s as [|c1 s2]; [reflexivity |].
  unfold isDotlessI, isLongS. rewrite H1, H2. reflexivity.
Qed.

Lemma ToLower_byte c s :
  Ascii.eqb c "196" = false -> Ascii.eqb c "226" = false ->
  strings.ToLower (String c s) = String (Byte8.toLower c) (strings.ToLower s).
Proof.
  intros H1 H2. rewrite ToLower_eq. destruct s as [|c1 [|c2 s3]]; [reflexivity | |];
    unfold isDottedI, isKelvin; rewrite H1, ?H2; reflexivity.
Qed.

Lemma ToUpper_ascii_byte c s :
  utf8.isASCII c = true ->
  strings.ToUpper (String c s) = String (Byte8.toUpper c) (strings.ToUpper s).
Proof.
  intros (H1 & H2 & _)%ascii_not_lead. apply ToUpper_byte; assumption.
Qed.

Lemma ToLower_ascii_byte c s :
  utf8.isASCII c = true ->
  strings.ToLower (String c s) = String (Byte8.toLower c) (strings.ToLower s).
Proof.
  intros (H1 & _ & H2)%ascii_not_lead. apply ToLower_byte; assumption.
Qed.

(** On ASCII text the case maps are the byte maps. *)
Lemma ToUpper_ascii s :
  Shape.all utf8.isASCII s = true ->
  strings.ToUpper s = strings.Map Byte8.toUpper s.
Proof.
  induction s as [|c s IH]; [reflexivity |]. cbn [Shape.all].
  intros [Hc Hs]%andb_true_iff.
  rewrite ToUpper_ascii_byte by exact Hc. cbn [strings.Map]. rewrite IH by exact Hs.
  reflexivity.
Qed.

Lemma ToLower_ascii s :
  Shape.all utf8.isASCII s = true ->
  strings.ToLower s = strings.Map Byte8.toLower s.
Proof.
  induction s as [|c s IH]; [reflexivity |]. cbn [Shape.all].
  intros [Hc Hs]%andb_true_iff.
  rewrite ToLower_ascii_byte by exact Hc. cbn [strings.Map]. rewrite IH by exact Hs.
  reflexivity.
Qed.

Lemma ToUpper_nonempty s : s <> "" -> strings.ToUpper s <> "".
Proof.
  destruct s as [|c s]; [congruence |]. intros _. rewrite ToUpper_eq.
  destruct s as [|c1 s2]; [discriminate |].
  destruct (isDotlessI c c1); [discriminate |].
  destruct (isLongS c c1); discriminate.
Qed.

(** The first byte of an upper-cased text. *)
Lemma ToUpper_first c s :
  exists d t,
    strings.ToUpper (String c s) = String d t
    /\ (d = "I"%char \/ d = "S"%char \/ d = Byte8.toUpper c).
Proof.
  rewrite ToUpper_eq. destruct s as [|c1 s2].
  { do 2 eexists. split; [reflexivity | auto]. }
  destruct (isDotlessI c c1); [do 2 eexists; split; [reflexivity | auto] |].
  destruct (isLongS c c1); do 2 eexists; (split; [reflexivity | auto]).
Qed.

Lemma toUpper_lead c d :
  Ascii.eqb (Byte8.toUpper c) d = true ->
  utf8.isASCII d = false -> Byte8.toUpper c = c.
Proof.
  intros Heq%Ascii.eqb_eq Hd. apply toUpper_high.
  rewrite <- toUpper_ascii, Heq. exact Hd.
Qed.

Lemma ToUpper_idempotent s :
  strings.ToUpper (strings.ToUpper s) = strings.ToUpper s.
Proof.
  induction s as [s IH] using string_length_ind.
  destruct s as [|c s]; [reflexivity |].
  rewrite ToUpper_eq. destruct s as [|c1 s2].
  { rewrite ToUpper_eq, toUpper_idempotent. reflexivity. }
  destruct (isDotlessI c c1) eqn:Hi.
  { rewrite ToUpper_byte by reflexivity.
    rewrite IH by (cbn [String.length]; lia). reflexivity. }
  destruct (isLongS c c1) eqn:Hs.
  { rewrite ToUpper_byte by reflexivity.
    rewrite IH by (cbn [String.length]; lia). reflexivity. }
  rewrite ToUpper_eq.
  destruct (ToUpper_first c1 s2) as (d & t & Ht & Hd). rewrite Ht.
  assert (Hpair : isDotlessI (Byte8.toUpper c) d = false
                  /\ isLongS (Byte8.toUpper c) d = false).
  { unfold isDotlessI, isLongS in *.
    split; apply andb_false_iff;
      match goal with
      | |- Ascii.eqb ?x ?l = false \/ Ascii.eqb d ?r = false =>
          destruct (Ascii.eqb x l) eqn:Hl; [right | left; reflexivity];
          destruct (Ascii.eqb d r) eqn:Hr; [| reflexivity];
          apply Ascii.eqb_eq in Hr; subst d;
          rewrite (toUpper_lead _ _ Hl eq_refl) in Hl;
          destruct Hd as [Hd | [Hd | Hd]]; try discriminate Hd;
          symmetry in Hd;
          assert (Hc1 : Byte8.toUpper c1 = c1)
            by (apply toUpper_high; rewrite <- toUpper_ascii, Hd; reflexivity);
          rewrite Hc1 in Hd; subst c1; rewrite Hl in *; discriminate
      end. }
  destruct Hpair as [-> ->]. rewrite <- Ht.
  rewrite IH by (cbn [String.length]; lia).
  rewrite toUpper_idempotent. reflexivity.
Qed.

(** An upper-cased text keeps an ASCII beginning when more text
    follows. *)
Lemma ToUpper_prefix_app p : forall s tail t,
  Shape.all utf8.isASCII p = true ->
  strings.ToUpper s = p +:+ tail ->
  exists tail', strings.ToUpper (s +:+ t) = p +:+ tail'.
Proof.
  induction p as [|a p IH]; intros s tail t Hp Hs; [eauto |].
  cbn [Shape.all] in Hp. apply andb_true_iff in Hp as [Ha Hp].
  destruct s as [|c s]; [discriminate |].
  rewrite app_String in *. rewrite ToUpper_eq in Hs.
  destruct s as [|c1 s2].
  - injection Hs as <- Hs. rewrite toUpper_ascii in Ha.
    change ("" +:+ t) with t. rewrite ToUpper_ascii_byte by exact Ha.
    destruct p; [| discriminate]. eauto.
  - rewrite ToUpper_eq, app_String.
    destruct (isDotlessI c c1).
    { injection Hs as <- Hs. destruct (IH _ _ t Hp Hs) as [tail' ->]. eauto. }
    destruct (isLongS c c1).
    { injection Hs as <- Hs. destruct (IH _ _ t Hp Hs) as [tail' ->]. eauto. }
    apply String_inj in Hs as [<- Hs]. rewrite <- app_String.
    destruct (IH _ _ t Hp Hs) as [tail' ->]. eauto.
Qed.

(** The first byte of a lower-cased text that is neither [i] nor [k]
    comes from one byte. *)
Lemma ToLower_cons_inv s a t :
  strings.ToLower s = String a t ->
  a <> "i"%char -> a <> "k"%char ->
  exists c s', s = String c s' /\ Byte8.toLower c = a /\ strings.ToLower s' = t.
Proof.
  destruct s as [|c s]; [discriminate |]. rewrite ToLower_eq.
  intros H Hi Hk. exists c, s.
  destruct s as [|c1 [|c2 s3]].
  - injection H as <- <-. auto.
  - destruct (isDottedI c c1); injection H as <- <-; [congruence | auto].
  - destruct (isDottedI c c1); [injection H as <- <-; congruence |].
    destruct (isKelvin c c1 c2); injection H as <- <-; [congruence | auto].
Qed.

(** Text that begins with an ASCII byte is mapped on its own. *)
Lemma ToLower_app a : forall b,
  match b with String c _ => utf8.isASCII c = true | EmptyString => True end ->
  strings.ToLower (a +:+ b) = strings.ToLower a +:+ strings.ToLower b.
Proof.
  induction a as [a IH] using string_length_ind. intros b Hb.
  destruct a as [|c a]; [reflexivity |].
  rewrite app_String, !ToLower_eq.
  destruct a as [|c1 a].
  - change ("" +:+ b) with b. destruct b as [|d b]; [reflexivity |].
    destruct (ascii_not_trail d Hb) as (H176 & _ & _ & H132 & _).
    unfold isDottedI, isKelvin. rewrite H176, H132, !andb_false_r.
    destruct b; reflexivity.
  - rewrite app_String. destruct (isDottedI c c1).
    { rewrite app_String. f_equal. apply IH; [cbn [String.length]; lia | exact Hb]. }
    destruct a as [|c2 a].
    + change ("" +:+ b) with b.
      assert (Hk : match b with
                   | String c2 s3 =>
                       if isKelvin c c1 c2
                       then String "k" (strings.ToLower s3)
                       else String (Byte8.toLower c)
                                   (strings.ToLower (String c1 b))
                   | EmptyString =>
                       String (Byte8.toLower c) (strings.ToLower (String c1 b))
                   end
                   = String (Byte8.toLower c) (strings.ToLower (String c1 b))).
      { destruct b as [|d b]; [reflexivity |].
        destruct (ascii_not_trail d Hb) as (_ & _ & _ & _ & H170).
        unfold isKelvin. rewrite H170, andb_false_r. reflexivity. }
      rewrite Hk, app_String. f_equal.
      apply (IH (String c1 "")); [cbn [String.length]; lia | exact Hb].
    + rewrite app_String. destruct (isKelvin c c1 c2).
      { rewrite app_String. f_equal. apply IH; [cbn [String.length]; lia | exact Hb]. }
      rewrite app_String. f_equal.
      apply (IH (String c1 (String c2 a))); [cbn [String.length]; lia | exact Hb].
Qed.

End CaseMaps.

(** ** Runs of runes *)

Section RuneFacts.

Import unicode.
Variable byte : ascii -> bool.
Variables longS kelvin : bool.

Local Abbreviation runes := (Shape.runes byte longS kelvin).

Lemma runes_eq c s :
  runes (String c s)
  = if byte c then runes s
    else
      match s with
      | String c1 s2 =>
          if longS && isLongS c c1 then runes s2
          else
            match s2 with
            | String c2 s3 => kelvin && isKelvin c c1 c2 && runes s3
            | EmptyString => false
            end
      | EmptyString => false
      end.
Proof. reflexivity. Qed.

Lemma runes_all s : Shape.all byte s = true -> runes s = true.
Proof.
  induction s as [|c s IH]; [reflexivity |]. cbn [Shape.all].
  intros [Hc Hs]%andb_true_iff. rewrite runes_eq, Hc. auto.
Qed.

Lemma runes_app a : forall b,
  runes a = true -> runes b = true -> runes (a +:+ b) = true.
Proof.
  induction a as [a IH] using string_length_ind. intros b Ha Hb.
  destruct a as [|c a]; [exact Hb |].
  rewrite app_String, runes_eq. rewrite runes_eq in Ha.
  destruct (byte c); [apply IH; [cbn [String.length]; lia | assumption..] |].
  destruct a as [|c1 a]; [discriminate |]. rewrite app_String.
  destruct (longS && isLongS c c1);
    [apply IH; [cbn [String.length]; lia | assumption..] |].
  destruct a as [|c2 a]; [discriminate |]. rewrite app_String.
  apply andb_true_iff in Ha as [-> Ha]. cbn [andb].
  apply IH; [cbn [String.length]; lia | assumption..].
Qed.

(** A byte that is neither accepted nor a byte of the two runes does not
    occur. *)
Lemma runes_without s x :
  runes s = true ->
  byte x = false ->
  Ascii.eqb x "197" = false -> Ascii.eqb x "191" = false ->
  Ascii.eqb x "226" = false -> Ascii.eqb x "132" = false ->
  Ascii.eqb x "170" = false ->
  strings.ContainsByte s x = false.
Proof.
  intros Hs Hx H197 H191 H226 H132 H170. revert Hs.
  induction s as [s IH] using string_length_ind.
  destruct s as [|c s]; [reflexivity |].
  rewrite runes_eq. cbn [strings.ContainsByte].
  destruct (byte c) eqn:Hc.
  { destruct (Ascii.eqb_spec c x) as [-> | _]; [congruence |].
    apply IH. cbn [String.length]. lia. }
  destruct s as [|c1 s]; [discriminate |].
  destruct (longS && isLongS c c1) eqn:Hl.
  { apply andb_true_iff in Hl as [_ Hl]. unfold isLongS in Hl.
    apply andb_true_iff in Hl as [->%Ascii.eqb_eq ->%Ascii.eqb_eq].
    intros Hs. cbn [strings.ContainsByte].
    rewrite Ascii.eqb_sym, H197, Ascii.eqb_sym, H191.
    apply IH; [cbn [String.length]; lia | exact Hs]. }
  destruct s as [|c2 s]; [discriminate |].
  intros [[_ Hk]%andb_true_iff Hs]%andb_true_iff. unfold isKelvin in Hk.
  apply andb_true_iff in Hk as [[->%Ascii.eqb_eq ->%Ascii.eqb_eq]%andb_true_iff
                                  ->%Ascii.eqb_eq].
  cbn [strings.ContainsByte].
  rewrite Ascii.eqb_sym, H226, Ascii.eqb_sym, H132, Ascii.eqb_sym, H170.
  apply IH; [cbn [String.length]; lia | exact Hs].
Qed.

End RuneFacts.

Section RuneFacts2.

Import unicode.

(** More bytes and more runes keep a run, as long as the bytes are
    ASCII. *)
Lemma runes_impl (byte byte' : ascii -> bool) (longS kelvin longS' kelvin' : bool) s :
  (forall c, byte c = true -> byte' c = true) ->
  (forall c, byte' c = true -> utf8.isASCII c = true) ->
  (longS = true -> longS' = true) ->
  (kelvin = true -> kelvin' = true) ->
  Shape.runes byte longS kelvin s = true ->
  Shape.runes byte' longS' kelvin' s = true.
Proof.
  intros Hb Hascii Hl Hk.
  induction s as [s IH] using string_length_ind.
  destruct s as [|c s]; [reflexivity |]. rewrite !runes_eq.
  destruct (byte c) eqn:Hc.
  { rewrite (Hb _ Hc). apply IH. cbn [String.length]. lia. }
  destruct s as [|c1 s]; [discriminate |].
  destruct (longS && isLongS c c1) eqn:Hls.
  { apply andb_true_iff in Hls as [Hls Hi].
    assert (longS' && isLongS c c1 = true) as Hls'
      by (rewrite (Hl Hls), Hi; reflexivity).
    rewrite Hls'.
    assert (byte' c = false) as ->.
    { destruct (byte' c) eqn:Hc'; [| reflexivity].
      apply Hascii, ascii_not_lead in Hc' as (_ & H & _).
      unfold isLongS in Hi. rewrite H in Hi. discriminate. }
    apply IH. cbn [String.length]. lia. }
  destruct s as [|c2 s]; [discriminate |].
  intros [[Hks Hi]%andb_true_iff Hs]%andb_true_iff.
  assert (byte' c = false) as ->.
  { destruct (byte' c) eqn:Hc'; [| reflexivity].
    apply Hascii, ascii_not_lead in Hc' as (_ & _ & H).
    unfold isKelvin in Hi. rewrite H in Hi. discriminate. }
  assert (isLongS c c1 = false) as ->.
  { unfold isKelvin in Hi. unfold isLongS.
    apply andb_true_iff in Hi as [[->%Ascii.eqb_eq _]%andb_true_iff _].
    reflexivity. }
  assert (kelvin' && isKelvin c c1 c2 = true) as Hks'
    by (rewrite (Hk Hks), Hi; reflexivity).
  rewrite andb_false_r, Hks'. cbn [andb].
  apply IH; [cbn [String.length]; lia | exact Hs].
Qed.

End RuneFacts2.

(** ** The matcher *)

Import regexp.

Section ClassFacts.

Variable fold : bool.
Variable cl : class.

Lemma stepClass_inv s n s' :
  stepClass fold cl s = Some (n, s') ->
  exists u,
    s = u +:+ s' /\ String.length u = n /\ 0 < n
    /\ stepClass fold cl u = Some (n, "").
Proof.
  unfold stepClass. destruct s as [|c s]; [discriminate |].
  destruct (inClass fold cl c) eqn:Hc.
  { intros [= <- <-]. exists (String c ""). rewrite Hc.
    repeat split. lia. }
  destruct s as [|c1 s]; [discriminate |].
  destruct (hasLongS fold cl c c1) eqn:Hl.
  { intros [= <- <-]. exists (String c (String c1 "")). rewrite Hc, Hl.
    repeat split. lia. }
  destruct s as [|c2 s]; [discriminate |].
  destruct (hasKelvin fold cl c c1 c2) eqn:Hk; [| discriminate].
  intros [= <- <-]. exists (String c (String c1 (String c2 ""))).
  rewrite Hc, Hl, Hk. repeat split. lia.
Qed.

Lemma stepClass_app s t n s' :
  stepClass fold cl s = Some (n, s') ->
  stepClass fold cl (s +:+ t) = Some (n, s' +:+ t).
Proof.
  unfold stepClass. destruct s as [|c s]; [discriminate |]. rewrite app_String.
  destruct (inClass fold cl c); [intros [= <- <-]; reflexivity |].
  destruct s as [|c1 s]; [discriminate |]. rewrite app_String.
  destruct (hasLongS fold cl c c1); [intros [= <- <-]; reflexivity |].
  destruct s as [|c2 s]; [discriminate |]. rewrite app_String.
  destruct (hasKelvin fold cl c c1 c2); [| discriminate].
  intros [= <- <-]. reflexivity.
Qed.

Lemma stepClass_shorter s n s' :
  stepClass fold cl s = Some (n, s') ->
  String.length s = n + String.length s' /\ 0 < n.
Proof.
  intros (u & -> & <- & Hn & _)%stepClass_inv. rewrite length_app. auto.
Qed.

Lemma classRunes_eq s :
  Shape.classRunes fold cl s
  = match s with
    | EmptyString => true
    | String _ _ =>
        match stepClass fold cl s with
        | Some (_, s') => Shape.classRunes fold cl s'
        | None => false
        end
    end.
Proof.
  destruct s as [|c s]; [reflexivity |].
  unfold Shape.classRunes, stepClass, hasLongS, hasKelvin. rewrite runes_eq.
  destruct (inClass fold cl c); [reflexivity |].
  destruct s as [|c1 s]; [reflexivity |].
  destruct (foldsWith fold cl "s" "S" && unicode.isLongS c c1); [reflexivity |].
  destruct s as [|c2 s]; [reflexivity |].
  destruct (foldsWith fold cl "k" "K" && unicode.isKelvin c c1 c2); reflexivity.
Qed.

Lemma classRunes_step s :
  s <> "" ->
  Shape.classRunes fold cl s = true ->
  exists n s',
    stepClass fold cl s = Some (n, s') /\ Shape.classRunes fold cl s' = true.
Proof.
  rewrite classRunes_eq. destruct s as [|c s]; [congruence |]. intros _.
  destruct (stepClass fold cl (String c s)) as [[n s']|]; [eauto | discriminate].
Qed.

(** One rune of the class is a run. *)
Lemma stepClass_classRunes u n :
  stepClass fold cl u = Some (n, "") -> Shape.classRunes fold cl u = true.
Proof.
  intros H. rewrite classRunes_eq. destruct u; [reflexivity |].
  rewrite H. reflexivity.
Qed.

Context {R : Type}.

Lemma plusLoop_eq i rest (k : nat -> string -> option R) :
  plusLoop fold cl i rest k
  = match stepClass fold cl rest with
    | Some (n, rest') =>
        orElse (plusLoop fold cl (i + n) rest' k) (k (i + n) rest')
    | None => None
    end.
Proof.
  unfold stepClass. destruct rest as [|c rest]; [reflexivity |].
  cbn [plusLoop]. destruct (inClass fold cl c); [reflexivity |].
  destruct rest as [|c1 rest]; [reflexivity |].
  destruct (hasLongS fold cl c c1); [reflexivity |].
  destruct rest as [|c2 rest]; [reflexivity |].
  destruct (hasKelvin fold cl c c1 c2); reflexivity.
Qed.

Lemma plusLoop_stop i rest (k : nat -> string -> option R) :
  Shape.stops fold cl rest -> plusLoop fold cl i rest k = None.
Proof. unfold Shape.stops. intros H. rewrite plusLoop_eq, H. reflexivity. Qed.

Lemma plusLoop_greedy w :
  forall i rest (k : nat -> string -> option R) r,
    w <> "" ->
    Shape.classRunes fold cl w = true ->
    Shape.stops fold cl rest ->
    k (i + String.length w) rest = Some r ->
    plusLoop fold cl i (w +:+ rest) k = Some r.
Proof.
  induction w as [w IH] using string_length_ind.
  intros i rest k r Hne Hw Hstop Hk.
  destruct (classRunes_step w Hne Hw) as (n & w' & Hstep & Hw').
  rewrite plusLoop_eq, (stepClass_app _ rest _ _ Hstep).
  destruct (stepClass_shorter _ _ _ Hstep) as [Hlen Hn].
  rewrite Hlen, Nat.add_assoc in Hk.
  destruct w' as [|d w'].
  - change ("" +:+ rest) with rest. rewrite plusLoop_stop by exact Hstop.
    cbn [String.length] in Hk. rewrite Nat.add_0_r in Hk. exact Hk.
  - rewrite (IH (String d w') ltac:(lia) (i + n) rest k r);
      [reflexivity | discriminate | assumption..].
Qed.

Lemma plusLoop_sound s :
  forall i (k : nat -> string -> option R) r,
    plusLoop fold cl i s k = Some r ->
    exists w rest,
      s = w +:+ rest /\ w <> "" /\ Shape.classRunes fold cl w = true
      /\ k (i + String.length w) rest = Some r.
Proof.
  induction s as [s IH] using string_length_ind. intros i k r.
  rewrite plusLoop_eq.
  destruct (stepClass fold cl s) as [[n s']|] eqn:Hstep; [| discriminate].
  destruct (stepClass_shorter _ _ _ Hstep) as [Hlen Hn].
  destruct (stepClass_inv _ _ _ Hstep) as (u & -> & Hu & _ & Hone).
  assert (Hune : u <> "") by (intros ->; cbn in Hu; lia).
  destruct (plusLoop fold cl (i + n) s' k) as [r'|] eqn:Hloop; cbn [orElse].
  - intros [= ->].
    apply IH in Hloop as (w & rest & -> & Hne & Hw & Hk); [| lia].
    exists (u +:+ w), rest. rewrite app_assoc3, length_app, Hu, Nat.add_assoc.
    repeat split; [| | exact Hk].
    + destruct u; [congruence | discriminate].
    + rewrite classRunes_eq.
      destruct (u +:+ w) eqn:Happ; [reflexivity |]. rewrite <- Happ.
      rewrite (stepClass_app _ w _ _ Hone). exact Hw.
  - intros Hk. exists u, s'. rewrite Hu.
    repeat split; [exact Hune | | exact Hk].
    apply (stepClass_classRunes _ _ Hone).
Qed.

End ClassFacts.

Section DirectoryPattern.

Lemma eqChar_slash c : eqChar true "/" c = Ascii.eqb c "/".
Proof. destruct c as [[] [] [] [] [] [] [] []]; reflexivity. Qed.

Lemma runes_ext (byte byte' : ascii -> bool) longS kelvin s :
  (forall c, byte c = byte' c) ->
  Shape.runes byte longS kelvin s = Shape.runes byte' longS kelvin s.
Proof.
  intros Hb. induction s as [s IH] using string_length_ind.
  destruct s as [|c s]; [reflexivity |]. rewrite !runes_eq, <- Hb.
  destruct (byte c); [apply IH; cbn [String.length]; lia |].
  destruct s as [|c1 s]; [reflexivity |].
  destruct (longS && unicode.isLongS c c1);
    [apply IH; cbn [String.length]; lia |].
  destruct s as [|c2 s]; [reflexivity |].
  rewrite IH by (cbn [String.length]; lia). reflexivity.
Qed.

(** The class [[A-Z0-9_]] under [(?i)] and the class [[0-9]]. *)
Lemma classRunes_word s :
  Shape.classRunes true wordClass s = Shape.wordRunes s.
Proof. apply runes_ext, inClass_word. Qed.

Lemma classRunes_digit s :
  Shape.all Shape.isDigit s = true -> Shape.classRunes true digitClass s = true.
Proof.
  intros H. apply runes_all. revert H. apply all_ext_impl.
  intros c Hc. rewrite inClass_digit. exact Hc.
Qed.

Lemma wordRunes_no_slash w :
  Shape.wordRunes w = true -> strings.ContainsByte w "/" = false.
Proof. intros H. apply (runes_without _ _ _ _ _ H); reflexivity. Qed.

Lemma BeforeByte_app w x rest :
  strings.ContainsByte w x = false ->
  strings.BeforeByte (w +:+ String x rest) x = w
  /\ strings.ContainsByte (w +:+ String x rest) x = true.
Proof.
  induction w as [|c w IH]; cbn [strings.ContainsByte].
  - intros _. change ("" +:+ String x rest) with (String x rest).
    cbn [strings.BeforeByte strings.ContainsByte].
    rewrite Ascii.eqb_refl. auto.
  - rewrite app_String. cbn [strings.BeforeByte strings.ContainsByte].
    destruct (Ascii.eqb c x); [discriminate |].
    intros [-> ->]%IH. auto.
Qed.

Lemma stops_slash rest : Shape.stops true wordClass (String "/" rest).
Proof. destruct rest as [|c1 [|c2 rest]]; reflexivity. Qed.

Lemma search_BeginText rest : forall i,
  search dirQuantPattern (S i) rest = None.
Proof.
  induction rest as [|c rest IH]; intros i; [reflexivity |].
  cbn [search]. rewrite IH. reflexivity.
Qed.

Lemma dirQuantPattern_search filename :
  search dirQuantPattern 0 filename
  = if Shape.inWordDirectory filename
    then let n := String.length (strings.BeforeByte filename "/") in
         Some ((0, n + 1), Some (0, n))
    else None.
Proof.
  assert (Hat : matchAt dirQuantPattern 0 filename
                = if Shape.inWordDirectory filename
                  then let n := String.length (strings.BeforeByte filename "/") in
                       Some ((0, n + 1), Some (0, n))
                  else None).
  { unfold matchAt, dirQuantPattern.
    cbn [foldCase expr MustCompileFold run Nat.eqb].
    unfold Shape.inWordDirectory.
    destruct (strings.ContainsByte filename "/" && _ && _) eqn:Hdir.
    - apply andb_true_iff in Hdir as [[Hc Hne]%andb_true_iff Hall].
      destruct (split_at_byte _ _ Hc) as [rest Hrest].
      rewrite Hrest at 1.
      apply plusLoop_greedy.
      + intros E. rewrite E in Hne. discriminate.
      + rewrite classRunes_word. exact Hall.
      + apply stops_slash.
      + reflexivity.
    - destruct (plusLoop _ _ _ _ _) as [r|] eqn:Hloop; [| reflexivity].
      apply plusLoop_sound in Hloop as (w & rest & -> & Hne & Hall & Hk).
      rewrite classRunes_word in Hall.
      destruct rest as [|c rest]; [discriminate |].
      cbn [stripLiteral] in Hk. rewrite eqChar_slash in Hk.
      destruct (Ascii.eqb_spec c "/") as [-> | _]; [| discriminate].
      destruct (BeforeByte_app w "/" rest (wordRunes_no_slash _ Hall))
        as [Hb Hc].
      rewrite Hb, Hc, Hall in Hdir.
      destruct w; [congruence | discriminate]. }
  destruct filename as [|c rest]; cbn [search]; rewrite Hat.
  - reflexivity.
  - destruct (Shape.inWordDirectory _); [reflexivity |].
    apply search_BeginText.
Qed.

End DirectoryPattern.

Section DirectoryCheck.

Lemma FindStringSubmatch_dirQuantPattern filename :
  FindStringSubmatch dirQuantPattern filename
  = if Shape.inWordDirectory filename
    then [strings.BeforeByte filename "/" +:+ "/";
          strings.BeforeByte filename "/"]
    else [].
Proof.
  unfold FindStringSubmatch. rewrite dirQuantPattern_search.
  destruct (Shape.inWordDirectory filename) eqn:Hdir; [| reflexivity].
  apply andb_true_iff in Hdir as [[Hc _]%andb_true_iff _].
  destruct (split_at_byte _ _ Hc) as [rest Hrest].
  remember (strings.BeforeByte filename "/") as seg eqn:Hseg. clear Hseg.
  cbv zeta. unfold slice. rewrite !Nat.sub_0_r.
  f_equal; [| f_equal].
  - rewrite Hrest.
    change (seg +:+ String "/" rest) with (seg +:+ ("/" +:+ rest)).
    rewrite <- app_assoc3.
    replace (String.length seg + 1) with (String.length (seg +:+ "/"))
      by (rewrite length_app; reflexivity).
    apply substring_prefix.
  - rewrite Hrest. apply substring_prefix.
Qed.

Lemma dirQuant_spec filename :
  dirQuant filename
  = Some (if Shape.inWordDirectory filename
             && isQuantName (strings.BeforeByte filename "/")
          then strings.BeforeByte filename "/"
          else "").
Proof.
  unfold dirQuant. rewrite FindStringSubmatch_dirQuantPattern.
  destruct (Shape.inWordDirectory filename); reflexivity.
Qed.

Lemma HasPrefix_app a b : strings.HasPrefix (a +:+ b) a = true.
Proof.
  unfold strings.HasPrefix. rewrite length_app, substring_prefix.
  apply andb_true_iff. split; [apply Nat.leb_le; lia | apply String.eqb_refl].
Qed.

Lemma isQuantName_prefix s prefix tail :
  In prefix quantPrefixes ->
  strings.ToUpper s = prefix +:+ tail ->
  isQuantName s = true.
Proof.
  intros Hin Hup. unfold isQuantName. apply existsb_exists.
  exists prefix. split; [exact Hin |]. rewrite Hup. apply HasPrefix_app.
Qed.

Lemma ExtractQuants_single filename quant :
  isGGUF filename = true ->
  quantOf filename = Some quant ->
  quant <> "" ->
  ExtractQuantsFromSiblings (files [filename]) = Some [quant].
Proof.
  intros Hg Hq Hne. unfold ExtractQuantsFromSiblings, files.
  cbn [map range RFilename]. unfold visit. cbn [RFilename seen quants].
  rewrite Hg, Hq. cbn [negb mbind option_bind].
  apply String.eqb_neq in Hne. rewrite Hne. reflexivity.
Qed.

End DirectoryCheck.

(** C4, amended: when the leading path segment of a [.gguf] filename is
    a run of the runes that [[A-Z0-9_]] holds under [(?i)] (ASCII
    letters, digits, underscores, U+017F and U+212A) and, once
    upper-cased, begins with one of the prefixes Q, IQ, F16, F32, BF16,
    TQ, the label of the filename is that segment as it is written, and
    the filename patterns have no say: the iteration gives the segment
    with any pattern table in the place of the one of the source. *)
Theorem ExtractQuants_directory_label (filename prefix tail : string) :
  strings.HasSuffix (strings.ToLower filename) ".gguf" = true ->
  strings.ContainsByte filename "/" = true ->
  Shape.wordRunes (strings.BeforeByte filename "/") = true ->
  In prefix ["Q"; "IQ"; "F16"; "F32"; "BF16"; "TQ"] ->
  strings.ToUpper (strings.BeforeByte filename "/") = prefix +:+ tail ->
  ExtractQuantsFromSiblings (files [filename])
  = Some [strings.BeforeByte filename "/"]
  /\ forall patterns,
       (quant ← dirQuant filename;
        if String.eqb quant "" then tryPatterns patterns filename
        else Some quant)
       = Some (strings.BeforeByte filename "/").
Proof.
  intros Hg Hc Hw Hin Hup.
  pose proof (isQuantName_prefix _ _ _ Hin Hup) as Hq.
  assert (Hne : strings.BeforeByte filename "/" <> "").
  { intros E. rewrite E in Hq. discriminate. }
  assert (Hdir : forall patterns,
             (quant ← dirQuant filename;
              if String.eqb quant "" then tryPatterns patterns filename
              else Some quant)
             = Some (strings.BeforeByte filename "/")).
  { intros patterns. rewrite dirQuant_spec.
    unfold Shape.inWordDirectory, Shape.nonEmpty.
    apply String.eqb_neq in Hne. rewrite Hc, Hw, Hq, Hne.
    cbn -[tryPatterns]. rewrite Hne. reflexivity. }
  split; [| exact Hdir].
  apply ExtractQuants_single; [exact Hg | apply Hdir | exact Hne].
Qed.

Lemma ExtractQuants_directory_label_witness :
  ExtractQuantsFromSiblings (files ["iq4_xs/part-Q8_0-00001-of-00002.GGUF"])
  = Some ["iq4_xs"]
  /\ forall patterns,
       (quant ← dirQuant "iq4_xs/part-Q8_0-00001-of-00002.GGUF";
        if String.eqb quant ""
        then tryPatterns patterns "iq4_xs/part-Q8_0-00001-of-00002.GGUF"
        else Some quant)
       = Some "iq4_xs".
Proof.
  apply (ExtractQuants_directory_label
           "iq4_xs/part-Q8_0-00001-of-00002.GGUF" "IQ" "4_XS").
  - reflexivity.
  - reflexivity.
  - reflexivity.
  - simpl. auto 10.
  - reflexivity.
Defined.

(** ** The matcher finds words of its pattern *)

Section Soundness.

Import Lang.
Context {R : Type}.
Variable fold : bool.

Lemma stripLiteral_split lit : forall rest rest',
  stripLiteral fold lit rest = Some rest' ->
  exists w,
    rest = w +:+ rest' /\ stripLiteral fold lit w = Some ""
    /\ String.length w = String.length lit.
Proof.
  induction lit as [|a lit IH]; intros rest rest'; cbn [stripLiteral].
  - intros [= ->]. exists "". repeat split.
  - destruct rest as [|c rest]; [discriminate |].
    destruct (eqChar fold a c) eqn:Hc; [| discriminate].
    intros (w & -> & Hw & Hlen)%IH. exists (String c w).
    cbn [stripLiteral String.length]. rewrite Hc, Hlen. repeat split. exact Hw.
Qed.

Lemma stripLiteral_app lit : forall w rest,
  stripLiteral fold lit w = Some "" ->
  stripLiteral fold lit (w +:+ rest) = Some rest
  /\ String.length w = String.length lit.
Proof.
  induction lit as [|a lit IH]; intros w rest; cbn [stripLiteral].
  - intros [= ->]. auto.
  - destruct w as [|c w]; [discriminate |]. rewrite app_String.
    destruct (eqChar fold a c); [| discriminate].
    intros [-> Hlen]%(IH _ rest). cbn [String.length]. auto.
Qed.

Lemma run_sound r : forall i rest cap (k : nat -> string -> slots -> option R) x,
  run fold r i rest cap k = Some x ->
  exists w rest' cap',
    rest = w +:+ rest'
    /\ denotes fold r w
    /\ k (i + String.length w) rest' cap' = Some x
    /\ (captureFree r = true -> cap' = cap).
Proof.
  induction r as [lit | cl | cl | | r1 IH1 r2 IH2 | r1 IH1 r2 IH2 | r1 IH1 | r1 IH1];
    intros i rest cap k x; cbn [run denotes captureFree].
  - destruct (stripLiteral fold lit rest) as [rest'|] eqn:Hs; [| discriminate].
    apply stripLiteral_split in Hs as (w & -> & Hw & Hlen). intros Hk.
    exists w, rest', cap. rewrite Hlen. auto.
  - destruct (stepClass fold cl rest) as [[n rest']|] eqn:Hs; [| discriminate].
    apply stepClass_inv in Hs as (u & -> & Hu & _ & Hone). intros Hk.
    exists u, rest', cap. rewrite Hu. eauto 6.
  - intros (w & rest' & -> & Hne & Hall & Hk)%plusLoop_sound.
    exists w, rest', cap. auto.
  - destruct (i =? 0); [| discriminate]. intros Hk.
    exists "", rest, cap. rewrite Nat.add_0_r. auto.
  - intros (w1 & rest1 & cap1 & -> & Hw1 & Hk1 & Hc1)%IH1.
    apply IH2 in Hk1 as (w2 & rest2 & cap2 & -> & Hw2 & Hk2 & Hc2).
    exists (w1 +:+ w2), rest2, cap2.
    rewrite app_assoc3, length_app, Nat.add_assoc.
    repeat split; eauto.
    intros [H1 H2]%andb_true_iff. rewrite Hc2, Hc1; auto.
  - unfold orElse.
    destruct (run fold r1 i rest cap k) as [y|] eqn:H1.
    + intros [= ->]. apply IH1 in H1 as (w & rest' & cap' & -> & Hw & Hk & Hc).
      exists w, rest', cap'. repeat split; auto.
      intros [Hf _]%andb_true_iff. auto.
    + intros (w & rest' & cap' & -> & Hw & Hk & Hc)%IH2.
      exists w, rest', cap'. repeat split; auto.
      intros [_ Hf]%andb_true_iff. auto.
  - unfold orElse.
    destruct (run fold r1 i rest cap k) as [y|] eqn:H1.
    + intros [= ->]. apply IH1 in H1 as (w & rest' & cap' & -> & Hw & Hk & Hc).
      exists w, rest', cap'. auto.
    + intros Hk. exists "", rest, cap. rewrite Nat.add_0_r. auto.
  - intros (w & rest' & cap' & -> & Hw & Hk & _)%IH1.
    exists w, rest', (Some (i, i + String.length w)).
    repeat split; auto. discriminate.
Qed.

End Soundness.

(** ** The leftmost match *)

Section Search.

Import Lang.

Lemma matchAt_sound re i rest x :
  matchAt re i rest = Some x ->
  exists w tail cap,
    rest = w +:+ tail /\ denotes (foldCase re) (expr re) w
    /\ x = ((i, i + String.length w), cap).
Proof.
  unfold matchAt. intros (w & rest' & cap' & -> & Hw & [= <-] & _)%run_sound.
  eauto 7.
Qed.

Lemma search_split re : forall rest i x,
  search re i rest = Some x ->
  exists pre rest',
    rest = pre +:+ rest' /\ matchAt re (i + String.length pre) rest' = Some x.
Proof.
  induction rest as [|c rest IH]; intros i x; cbn [search].
  - destruct (matchAt re i "") eqn:Hm; [| discriminate].
    intros [= <-]. exists "", "". rewrite Nat.add_0_r. auto.
  - destruct (matchAt re i (String c rest)) eqn:Hm.
    + intros [= <-]. exists "", (String c rest). rewrite Nat.add_0_r. auto.
    + intros (pre & rest' & -> & Hx)%IH. exists (String c pre), rest'.
      cbn [String.length]. rewrite Nat.add_succ_r. auto.
Qed.

(** The search returns the match at the first offset that has one. *)
Lemma search_first re pre : forall i rest x,
  matchAt re (i + String.length pre) rest = Some x ->
  (forall pre1 pre2,
      pre = pre1 +:+ pre2 -> pre2 <> "" ->
      matchAt re (i + String.length pre1) (pre2 +:+ rest) = None) ->
  search re i (pre +:+ rest) = Some x.
Proof.
  induction pre as [|c pre IH]; intros i rest x Hm Hnone.
  - change ("" +:+ rest) with rest. cbn [String.length] in Hm.
    rewrite Nat.add_0_r in Hm. destruct rest; cbn [search]; rewrite Hm; reflexivity.
  - rewrite app_String. cbn [search].
    pose proof (Hnone "" (String c pre) eq_refl ltac:(discriminate)) as H0.
    cbn [String.length] in H0. rewrite Nat.add_0_r, app_String in H0.
    rewrite H0. apply IH.
    + rewrite <- Hm. f_equal. cbn [String.length]. lia.
    + intros pre1 pre2 -> Hne.
      rewrite <- (Hnone (String c pre1) pre2 eq_refl Hne).
      f_equal. cbn [String.length]. lia.
Qed.

Lemma search_before re pre : forall i rest x y,
  search re i (pre +:+ rest) = Some x ->
  matchAt re (i + String.length pre) rest = Some y ->
  fst (fst x) <= i + String.length pre.
Proof.
  induction pre as [|c pre IH]; intros i rest x y Hs Hm.
  - change ("" +:+ rest) with rest in Hs. cbn [String.length] in *.
    rewrite Nat.add_0_r in Hm.
    assert (search re i rest = Some y)
      by (destruct rest; cbn [search]; rewrite Hm; reflexivity).
    apply matchAt_sound in Hm as (w & tail & cap & _ & _ & ->).
    replace x with ((i, i + String.length w), cap) by congruence.
    cbn [fst]. lia.
  - rewrite app_String in Hs. cbn [search] in Hs.
    destruct (matchAt re i (String c (pre +:+ rest))) as [m|] eqn:Hi.
    + injection Hs as <-.
      apply matchAt_sound in Hi as (w & tail & cap & _ & _ & ->).
      cbn [fst]. lia.
    + cbn [String.length]. rewrite Nat.add_succ_r.
      apply (IH (S i) rest x y Hs). rewrite <- Hm. f_equal.
      cbn [String.length]. lia.
Qed.

End Search.

(** ** The first pattern of the table *)

Section MarkerPattern.

Import Lang.

Local Ltac byte_inv c := destruct c as [[] [] [] [] [] [] [] []]; (reflexivity || discriminate).

Lemma eqChar_dot c : eqChar true "." c = true -> c = "."%char.
Proof. byte_inv c. Qed.

Lemma eqChar_underscore c : eqChar true "_" c = true -> c = "_"%char.
Proof. byte_inv c. Qed.

Lemma stepClass_byte fold cl c s :
  inClass fold cl c = true -> stepClass fold cl (String c s) = Some (1, s).
Proof. unfold stepClass. intros ->. reflexivity. Qed.

(** A rune of [[._-]] is one of the three bytes. *)
Lemma stepClass_separator w n :
  stepClass true sepClass w = Some (n, "") ->
  exists sep, w = String sep "" /\ Shape.isSeparator sep = true.
Proof.
  unfold stepClass. destruct w as [|c w]; [discriminate |].
  rewrite inClass_separator. destruct (Shape.isSeparator c) eqn:Hc.
  - intros [= <- ->]. eauto.
  - destruct w as [|c1 [|c2 w]]; discriminate.
Qed.

Lemma stops_underscore rest : Shape.stops true digitClass (String "_" rest).
Proof. destruct rest as [|c1 [|c2 rest]]; reflexivity. Qed.

Lemma stops_dot rest : Shape.stops true wordClass (String "." rest).
Proof. destruct rest as [|c1 [|c2 rest]]; reflexivity. Qed.

(** A word of [\.gguf] under [(?i)]. *)
Lemma literal_gguf ext :
  stripLiteral true ".gguf" ext = Some "" ->
  String.length ext = 5 /\ exists ext', ext = String "." ext'.
Proof.
  intros H. destruct (stripLiteral_app true _ _ "" H) as [_ Hlen].
  split; [exact Hlen |].
  destruct ext as [|c ext]; [discriminate |]. cbn [stripLiteral] in H.
  destruct (eqChar true "." c) eqn:Hc; [| discriminate].
  apply eqChar_dot in Hc as ->. eauto.
Qed.

(** The first pattern matches wherever one of its words starts, and
    takes all of the word. *)
Lemma qPattern_matchAt i sep m ext tail :
  Shape.isSeparator sep = true ->
  denotes true qShape m ->
  stripLiteral true ".gguf" ext = Some "" ->
  matchAt Shape.qPattern i (String sep (m +:+ ext +:+ tail))
  = Some ((i, i + 1 + String.length m + 5),
          Some (i + 1, i + 1 + String.length m)).
Proof.
  intros Hsep (w1 & m1 & -> & Hq & w2 & m2 & -> & [Hd Hds]
               & w3 & w4 & -> & Hu & [Hw Hws]) Hext.
  cbn [denotes] in Hq, Hu.
  destruct (literal_gguf _ Hext) as [Hlen [ext' ->]].
  destruct (stripLiteral_app true _ _ tail Hext) as [Hext' _].
  assert (w3 = "_") as ->.
  { destruct w3 as [|c w3]; [discriminate |]. cbn [stripLiteral] in Hu.
    destruct (eqChar true "_" c) eqn:Hc; [| discriminate].
    apply eqChar_underscore in Hc as ->. destruct w3; [reflexivity | discriminate]. }
  unfold matchAt, Shape.qPattern, qShape.
  cbn [foldCase expr MustCompileFold run].
  rewrite stepClass_byte by (rewrite inClass_separator; exact Hsep).
  rewrite !app_assoc3.
  destruct (stripLiteral_app true _ _
              (w2 +:+ "_" +:+ w4 +:+ String "." ext' +:+ tail) Hq)
    as [-> Hl1].
  apply plusLoop_greedy; [exact Hd | exact Hds | apply stops_underscore |].
  change ("_" +:+ ?s) with (String "_" s).
  cbn [stripLiteral]. change (eqChar true "_" "_") with true. cbv iota.
  apply plusLoop_greedy; [exact Hw | exact Hws | apply stops_dot |].
  cbn [stripLiteral] in Hext'. rewrite Hext'.
  rewrite !length_app, Hl1. cbn [String.length].
  f_equal. f_equal; [f_equal | f_equal; f_equal]; lia.
Qed.

(** The parts of a word of the first pattern. *)
Lemma qPattern_word w :
  denotes true (expr Shape.qPattern) w ->
  exists sep m ext,
    w = String sep (m +:+ ext) /\ Shape.isSeparator sep = true
    /\ denotes true qShape m /\ stripLiteral true ".gguf" ext = Some "".
Proof.
  intros (w1 & w' & -> & [n Hsep] & m & ext & -> & Hm & Hext).
  apply stepClass_separator in Hsep as (sep & -> & Hsep).
  exists sep, m, ext. auto.
Qed.

(** No occurrence of the first pattern starts before the match that the
    search returns. *)
Lemma qPattern_first s b e cap :
  search Shape.qPattern 0 s = Some ((b, e), cap) ->
  forall i, i < b -> ~ occurs Shape.qPattern i s.
Proof.
  intros Hs i Hi (pre & w & tail & -> & Hlen & Hw).
  apply qPattern_word in Hw as (sep & m & ext & -> & Hsep & Hm & Hext).
  pose proof (qPattern_matchAt (0 + String.length pre) sep m ext tail
                Hsep Hm Hext) as Hat.
  rewrite app_String, app_assoc3 in Hs.
  pose proof (search_before _ _ _ _ _ _ Hs Hat) as Hle.
  cbn [fst] in Hle. lia.
Qed.

(** The marker [Q<digits>_<word bytes>] is a word of the group. *)
Lemma qMarker_denotes q digits word :
  Shape.qMarkerOK q digits word = true ->
  denotes true qShape (Shape.qMarker q digits word).
Proof.
  unfold Shape.qMarkerOK. intros Hok.
  apply andb_true_iff in Hok as [[[[Hq Hd]%andb_true_iff Hds]%andb_true_iff
                                    Hw]%andb_true_iff Hws].
  unfold Shape.nonEmpty in Hd, Hw.
  apply negb_true_iff, String.eqb_neq in Hd, Hw.
  exists (String q ""), (digits +:+ "_" +:+ word). split; [reflexivity |].
  split; [cbn [denotes stripLiteral]; rewrite eqChar_Q, Hq; reflexivity |].
  exists digits, ("_" +:+ word). split; [reflexivity |].
  split; [split; [exact Hd | apply classRunes_digit, Hds] |].
  exists "_", word. split; [reflexivity |]. split; [reflexivity |].
  split; [exact Hw |]. rewrite classRunes_word. apply runes_all, Hws.
Qed.

(** An extension equal to ".gguf" up to case. *)
Lemma ToLower_gguf ext :
  strings.ToLower ext = ".gguf" ->
  stripLiteral true ".gguf" ext = Some ""
  /\ match ext with
     | String c _ => utf8.isASCII c = true
     | EmptyString => True
     end.
Proof.
  intros H.
  apply ToLower_cons_inv in H as (c1 & e1 & -> & H1 & H); [| discriminate..].
  apply ToLower_cons_inv in H as (c2 & e2 & -> & H2 & H); [| discriminate..].
  apply ToLower_cons_inv in H as (c3 & e3 & -> & H3 & H); [| discriminate..].
  apply ToLower_cons_inv in H as (c4 & e4 & -> & H4 & H); [| discriminate..].
  apply ToLower_cons_inv in H as (c5 & e5 & -> & H5 & H); [| discriminate..].
  destruct e5 as [|c6 e6];
    [| rewrite ToLower_eq in H; destruct e6 as [|c7 [|c8 e8]];
       repeat match type of H with
              | (if ?b then _ else _) = _ => destruct b
              end; discriminate].
  split.
  - cbn [stripLiteral]. unfold eqChar. rewrite H1, H2, H3, H4, H5. reflexivity.
  - rewrite <- toLower_ascii, H1. reflexivity.
Qed.

Lemma isGGUF_ext a ext :
  strings.ToLower ext = ".gguf" -> isGGUF (a +:+ ext) = true.
Proof.
  intros H. unfold isGGUF.
  rewrite ToLower_app by (apply ToLower_gguf, H). rewrite H.
  apply HasSuffix_app.
Qed.

Lemma slice_middle a b c :
  slice (a +:+ b +:+ c) (String.length a) (String.length a + String.length b)
  = b.
Proof.
  unfold slice.
  replace (String.length a + String.length b - String.length a)
    with (String.length b) by lia.
  apply substring_middle.
Qed.

Lemma FindStringSubmatch_qPattern p sep m ext :
  Shape.isSeparator sep = true ->
  denotes true qShape m ->
  stripLiteral true ".gguf" ext = Some "" ->
  (forall i, i < String.length p ->
             ~ occurs Shape.qPattern i (Shape.withMarker p sep m ext)) ->
  FindStringSubmatch Shape.qPattern (Shape.withMarker p sep m ext)
  = [String sep (m +:+ ext); m].
Proof.
  intros Hsep Hm Hext Hfirst.
  pose proof (qPattern_matchAt (0 + String.length p) sep m ext ""
                Hsep Hm Hext) as Hat.
  rewrite app_empty_r' in Hat.
  unfold FindStringSubmatch, Shape.withMarker.
  rewrite (search_first _ _ _ _ _ Hat).
  - destruct (literal_gguf _ Hext) as [Hlen _]. cbn [Nat.add].
    f_equal; [| f_equal].
    + replace (String.length p + 1 + String.length m + 5)
        with (String.length p + String.length (String sep (m +:+ ext)))
        by (cbn [String.length]; rewrite length_app; lia).
      rewrite <- (app_empty_r' (p +:+ String sep (m +:+ ext))) at 1.
      rewrite app_assoc3. apply slice_middle.
    + change (String sep (m +:+ ext)) with (String sep "" +:+ (m +:+ ext)).
      rewrite <- app_assoc3.
      replace (String.length p + 1)
        with (String.length (p +:+ String sep ""))
        by (rewrite length_app; reflexivity).
      apply slice_middle.
  - intros pre1 pre2 -> Hne.
    clear Hat.
    destruct (matchAt Shape.qPattern (0 + String.length pre1) _)
      as [x|] eqn:Hx; [| reflexivity].
    apply matchAt_sound in Hx as (w & tail & cap & Hsplit & Hw & _).
    destruct (Hfirst (String.length pre1)).
    + rewrite length_app. destruct pre2; [congruence |].
      cbn [String.length]. lia.
    + exists pre1, w, tail. unfold Shape.withMarker.
      rewrite app_assoc3, Hsplit. auto.
Qed.

End MarkerPattern.

(** C3, amended: the separator is part of the pattern.  When a marker
    [Q<digits>_<ASCII letters, digits, underscores>] is preceded by one
    of the separators ['.'], ['_'], ['-'] and followed by an extension
    equal to ".gguf" up to case, when the directory check gives no label
    and when the first pattern has no occurrence that starts before the
    separator, the label of the filename is the marker, upper-cased. *)
Theorem ExtractQuants_Q_marker
    (p : string) (sep q : ascii) (digits word ext : string) :
  Shape.isSeparator sep = true ->
  Shape.qMarkerOK q digits word = true ->
  strings.ToLower ext = ".gguf" ->
  Shape.inWordDirectory
    (Shape.withMarker p sep (Shape.qMarker q digits word) ext)
  && isQuantName
       (strings.BeforeByte
          (Shape.withMarker p sep (Shape.qMarker q digits word) ext) "/")
  = false ->
  (forall i,
      i < String.length p ->
      ~ Lang.occurs Shape.qPattern i
          (Shape.withMarker p sep (Shape.qMarker q digits word) ext)) ->
  ExtractQuantsFromSiblings
    (files [Shape.withMarker p sep (Shape.qMarker q digits word) ext])
  = Some [strings.ToUpper (Shape.qMarker q digits word)].
Proof.
  intros Hsep Hok Hext Hdir Hfirst.
  apply ExtractQuants_single.
  - unfold Shape.withMarker.
    change (String sep (Shape.qMarker q digits word +:+ ext))
      with (String sep (Shape.qMarker q digits word) +:+ ext).
    rewrite <- app_assoc3. apply isGGUF_ext, Hext.
  - unfold quantOf. rewrite dirQuant_spec, Hdir.
    change quantPatterns with (Shape.qPattern :: tail quantPatterns).
    cbn [mbind option_bind String.eqb tryPatterns].
    rewrite FindStringSubmatch_qPattern;
      [reflexivity | exact Hsep | apply qMarker_denotes, Hok
      | apply ToLower_gguf, Hext | exact Hfirst].
  - apply ToUpper_nonempty. discriminate.
Qed.

Lemma ExtractQuants_Q_marker_witness :
  ExtractQuantsFromSiblings
    (files ["DeepSeek-R1-Distill-Qwen-7B-q4_k_m.GGUF"])
  = Some ["Q4_K_M"].
Proof.
  apply (ExtractQuants_Q_marker
           "DeepSeek-R1-Distill-Qwen-7B" "-" "q" "4" "k_m" ".GGUF");
    [reflexivity | reflexivity | reflexivity | reflexivity |].
  apply (qPattern_first _ 27 39 (Some (28, 34))). vm_compute. reflexivity.
Defined.

(** The two conditions of the amended C3 are needed: a quant-named
    directory wins over the marker, and the search stops at the leftmost
    occurrence of the pattern. *)
Example ExtractQuants_Q_marker_conditions :
  ExtractQuantsFromSiblings (files ["Q8_0/model-Q4_K_M.gguf"]) = Some ["Q8_0"]
  /\ ExtractQuantsFromSiblings (files ["a-Q4_K.gguf-Q5_0.gguf"]) = Some ["Q4_K"]
  /\ ExtractQuantsFromSiblings (files ["model_Q4_K_Q5_0.gguf"])
     = Some ["Q4_K_Q5_0"].
Proof. vm_compute. repeat split. Qed.

(** ** What holds of the labels on every listing

    The labels of the filename patterns are upper-case and the result has
    no two equal entries.  A label that is not upper-case is the leading
    path segment of one of the files. *)

Section Labels.

Lemma tryPatterns_upper patterns filename quant :
  tryPatterns patterns filename = Some quant ->
  strings.ToUpper quant = quant.
Proof.
  induction patterns as [|re patterns IH]; simpl.
  - intros [= <-]. reflexivity.
  - destruct (FindStringSubmatch_shape re filename)
      as [-> | (whole & group & ->)]; simpl; [exact IH |].
    intros [= <-]. apply ToUpper_idempotent.
Qed.

Lemma quantOf_upper_or_directory filename quant :
  quantOf filename = Some quant ->
  strings.ToUpper quant = quant
  \/ (strings.ContainsByte filename "/" = true
      /\ quant = strings.BeforeByte filename "/").
Proof.
  unfold quantOf. rewrite dirQuant_spec. cbn -[tryPatterns].
  destruct (Shape.inWordDirectory filename && _) eqn:Hdir.
  - apply andb_true_iff in Hdir as [[[Hc _]%andb_true_iff _]%andb_true_iff _].
    destruct (String.eqb _ ""); [left; eauto using tryPatterns_upper |].
    intros [= <-]. right. auto.
  - cbn -[tryPatterns]. left. eauto using tryPatterns_upper.
Qed.

Lemma visit_consistent a s a' :
  Shape.consistent a -> visit a s = Some a' -> Shape.consistent a'.
Proof.
  intros [Hnd Hseen]. unfold visit.
  destruct (negb (isGGUF (RFilename s))); [intros [= <-]; split; assumption |].
  destruct (quantOf (RFilename s)) as [quant|]; [| discriminate].
  cbn [mbind option_bind].
  destruct (negb (String.eqb quant "") && negb (isSeen (seen a) quant)) eqn:Hnew;
    intros [= <-]; [| split; assumption].
  apply andb_true_iff in Hnew as [_ Hnew%negb_true_iff].
  split; cbn [seen quants].
  - apply NoDup_app. repeat split; [assumption | | apply NoDup_singleton].
    intros q Hq [->|[]%not_elem_of_nil]%elem_of_cons.
    apply Hseen in Hq. congruence.
  - intros q. unfold isSeen. rewrite elem_of_app, list_elem_of_singleton.
    rewrite <- Hseen. unfold isSeen.
    destruct (decide (quant = q)) as [-> | Hne].
    + rewrite lookup_insert_eq. simpl. tauto.
    + rewrite lookup_insert_ne by assumption.
      split; [auto | intros [H | ->]; [assumption | congruence]].
Qed.

Lemma range_consistent siblings : forall a a',
  Shape.consistent a -> range a siblings = Some a' -> Shape.consistent a'.
Proof.
  induction siblings as [|s siblings IH]; intros a a' Ha; simpl.
  - intros [= <-]. assumption.
  - destruct (visit a s) as [a1|] eqn:Hv; [| discriminate]. simpl.
    apply IH. eapply visit_consistent; eassumption.
Qed.

(** No label is returned twice. *)
Lemma ExtractQuants_NoDup siblings labels :
  ExtractQuantsFromSiblings siblings = Some labels -> NoDup labels.
Proof.
  unfold ExtractQuantsFromSiblings.
  destruct (range _ siblings) as [a|] eqn:Hr; [| discriminate].
  intros [= <-]. eapply range_consistent in Hr as [Hnd _]; [exact Hnd |].
  split; [constructor |]. intros q. unfold isSeen. simpl.
  rewrite lookup_empty. simpl. split; [discriminate | intros []%not_elem_of_nil].
Qed.

Lemma visit_labels (P : string -> Prop) a s a' :
  (forall quant, quantOf (RFilename s) = Some quant -> P quant) ->
  Forall P (quants a) -> visit a s = Some a' -> Forall P (quants a').
Proof.
  intros HP Ha. unfold visit.
  destruct (negb (isGGUF (RFilename s))); [intros [= <-]; assumption |].
  destruct (quantOf (RFilename s)) as [quant|]; [| discriminate].
  cbn [mbind option_bind].
  destruct (_ && _); intros [= <-]; [| assumption].
  cbn [quants]. apply Forall_app. split; [assumption |].
  constructor; [apply HP; reflexivity | constructor].
Qed.

Lemma range_labels (P : string -> Prop) siblings : forall a a',
  Forall (fun s => forall quant, quantOf (RFilename s) = Some quant -> P quant)
         siblings ->
  Forall P (quants a) -> range a siblings = Some a' -> Forall P (quants a').
Proof.
  induction siblings as [|s siblings IH]; intros a a' Hs Ha; simpl.
  - intros [= <-]. assumption.
  - destruct (visit a s) as [a1|] eqn:Hv; [| discriminate]. simpl.
    apply Forall_cons in Hs as [Hs Hrest].
    apply IH; [assumption |]. eapply visit_labels; eassumption.
Qed.

(** A label that is not upper-case is a directory name of the listing. *)
Lemma ExtractQuants_upper_or_directory siblings labels :
  ExtractQuantsFromSiblings siblings = Some labels ->
  Forall
    (fun quant =>
       strings.ToUpper quant = quant
       \/ exists s, s ∈ siblings
                    /\ strings.ContainsByte (RFilename s) "/" = true
                    /\ quant = strings.BeforeByte (RFilename s) "/")
    labels.
Proof.
  unfold ExtractQuantsFromSiblings.
  destruct (range _ siblings) as [a|] eqn:Hr; [| discriminate].
  intros [= <-]. eapply range_labels; [| | exact Hr]; [| constructor].
  apply Forall_forall. intros s Hs quant Hq.
  destruct (quantOf_upper_or_directory _ _ Hq) as [Hup | [Hc Hseg]];
    [left; assumption | right; eauto].
Qed.

End Labels.
(** ** The extractor as a function of the listing *)

Section Refinement.

Import Listing.

Lemma firsts_elem_of l x : x ∈ firsts l <-> x ∈ l.
Proof.
  induction l as [|y l IH]; simpl; [reflexivity |].
  rewrite !elem_of_cons, list_elem_of_filter, IH.
  destruct (decide (x = y)) as [-> | Hne]; [tauto |]. tauto.
Qed.

Lemma firsts_NoDup l : NoDup (firsts l).
Proof.
  induction l as [|y l IH]; simpl; constructor.
  - rewrite list_elem_of_filter. tauto.
  - apply NoDup_filter, IH.
Qed.

Lemma filter_not_in_nil (k : list string) :
  filter (fun y => y ∉ []) k = k.
Proof.
  induction k as [|y k IH]; [reflexivity |].
  rewrite filter_cons_True by apply not_elem_of_nil. f_equal. exact IH.
Qed.

Lemma firsts_app l1 l2 :
  firsts (l1 ++ l2) = firsts l1 ++ filter (fun y => y ∉ l1) (firsts l2).
Proof.
  induction l1 as [|x l1 IH]; simpl.
  - symmetry. apply filter_not_in_nil.
  - f_equal. rewrite IH, filter_app. f_equal.
    rewrite list_filter_filter. apply list_filter_iff.
    intros y. rewrite elem_of_cons. tauto.
Qed.

Lemma visit_labelOf a s :
  visit a s
  = Some match labelOf s with
         | Some quant =>
             if isSeen (seen a) quant then a
             else {| seen := <[quant := true]> (seen a);
                     quants := quants a ++ [quant] |}
         | None => a
         end.
Proof.
  unfold visit, labelOf.
  destruct (isGGUF (RFilename s)); [| reflexivity]. cbn [negb].
  destruct (quantOf_total (RFilename s)) as [quant ->].
  cbn [mbind option_bind].
  destruct (String.eqb quant ""); [reflexivity |]. cbn [negb andb].
  destruct (isSeen (seen a) quant); reflexivity.
Qed.

Lemma range_firsts siblings : forall a,
  Shape.consistent a ->
  exists a',
    range a siblings = Some a'
    /\ quants a'
       = quants a
         ++ filter (fun y => y ∉ quants a) (firsts (omap labelOf siblings)).
Proof.
  induction siblings as [|s siblings IH]; intros a Ha.
  - exists a. split; [reflexivity |]. simpl. rewrite app_nil_r. reflexivity.
  - cbn [range]. pose proof (visit_labelOf a s) as Hv.
    assert (Hc : forall a1, visit a s = Some a1 -> Shape.consistent a1)
      by (intros a1; apply visit_consistent, Ha).
    rewrite Hv in Hc |- *. cbn [mbind option_bind].
    cbn [omap list_omap]. fold (omap labelOf siblings).
    destruct (labelOf s) as [quant|]; [| apply IH, Ha].
    cbn [firsts]. destruct Ha as [Hnd Hseen].
    destruct (isSeen (seen a) quant) eqn:Hq.
    + destruct (IH a (conj Hnd Hseen)) as (a' & -> & Hq').
      exists a'. split; [reflexivity |]. rewrite Hq'. f_equal.
      apply Hseen in Hq.
      rewrite filter_cons_False by tauto.
      rewrite list_filter_filter. apply list_filter_iff.
      intros y. split; [| tauto].
      intros Hy. split; [exact Hy | intros ->; contradiction].
    + edestruct IH as (a' & -> & Hq'); [apply Hc; reflexivity |].
      exists a'. split; [reflexivity |]. rewrite Hq'. cbn [quants].
      assert (Hnew : quant ∉ quants a).
      { intros Hin. apply Hseen in Hin. congruence. }
      rewrite filter_cons_True by exact Hnew.
      rewrite <- app_assoc. f_equal. cbn [app]. f_equal.
      rewrite list_filter_filter. apply list_filter_iff.
      intros y. rewrite elem_of_app, list_elem_of_singleton. tauto.
Qed.

Lemma consistent_init : Shape.consistent {| seen := ∅; quants := [] |}.
Proof.
  split; [constructor |]. intros q. unfold isSeen. cbn [seen quants].
  rewrite lookup_empty. simpl. split; [discriminate | intros []%not_elem_of_nil].
Qed.

Lemma extract_firsts (siblings : list Sibling) :
  ExtractQuantsFromSiblings siblings
  = Some (firsts (omap labelOf siblings)).
Proof.
  unfold ExtractQuantsFromSiblings.
  destruct (range_firsts siblings _ consistent_init) as (a & -> & Hq).
  cbn [mbind option_bind]. rewrite Hq. cbn [quants app].
  rewrite filter_not_in_nil. reflexivity.
Qed.

Lemma filter_all_in (k l : list string) :
  (forall x, x ∈ l -> x ∈ k) -> filter (fun q => q ∉ k) l = [].
Proof.
  induction l as [|x l IH]; intros Hl; [reflexivity |].
  rewrite filter_cons_False by (intros Hx; apply Hx, Hl; left).
  apply IH. intros y Hy. apply Hl. right. exact Hy.
Qed.

Lemma extract_app (siblings1 siblings2 : list Sibling) :
  firsts (omap labelOf (siblings1 ++ siblings2))
  = firsts (omap labelOf siblings1)
    ++ filter (fun q => q ∉ firsts (omap labelOf siblings1))
              (firsts (omap labelOf siblings2)).
Proof.
  rewrite omap_app, firsts_app. f_equal.
  apply list_filter_iff. intros q. rewrite firsts_elem_of. reflexivity.
Qed.

End Refinement.

(** X1: the extractor returns the non-empty labels of the [.gguf] files
    of the listing, each once, in the order of their first occurrence. *)
Theorem ExtractQuants_firsts (siblings : list Sibling) :
  ExtractQuantsFromSiblings siblings
  = Some (Listing.firsts (omap Listing.labelOf siblings)).
Proof.
  unfold ExtractQuantsFromSiblings.
  destruct (range_firsts siblings _ consistent_init) as (a & -> & Hq).
  cbn [mbind option_bind]. rewrite Hq. cbn [quants app].
  rewrite filter_not_in_nil. reflexivity.
Qed.



(** X2: extending a listing keeps the labels found so far and appends
    the labels of the new files that were not found before. *)
Theorem ExtractQuants_app (siblings1 siblings2 : list Sibling) :
  exists labels1 labels2,
    ExtractQuantsFromSiblings siblings1 = Some labels1
    /\ ExtractQuantsFromSiblings siblings2 = Some labels2
    /\ ExtractQuantsFromSiblings (siblings1 ++ siblings2)
       = Some (labels1 ++ filter (fun q => q ∉ labels1) labels2).
Proof.
  do 2 eexists. rewrite !extract_firsts.
  split; [reflexivity |]. split; [reflexivity |].
  rewrite extract_app. reflexivity.
Qed.

(** X3: listing every file twice changes nothing. *)
Theorem ExtractQuants_twice (siblings : list Sibling) :
  ExtractQuantsFromSiblings (siblings ++ siblings)
  = ExtractQuantsFromSiblings siblings.
Proof.
  rewrite !extract_firsts, extract_app.
  rewrite filter_all_in by auto. rewrite app_nil_r. reflexivity.
Qed.

(** X4: no label is returned twice and no label is empty. *)
Theorem ExtractQuants_distinct_nonempty (siblings : list Sibling) :
  exists labels,
    ExtractQuantsFromSiblings siblings = Some labels
    /\ NoDup labels
    /\ "" ∉ labels.
Proof.
  eexists. split; [apply extract_firsts |].
  split; [apply firsts_NoDup |].
  rewrite firsts_elem_of, list_elem_of_omap. intros (s & _ & Hs).
  unfold Listing.labelOf in Hs.
  destruct (isGGUF _); [| discriminate].
  destruct (quantOf _) as [[|c q]|]; discriminate.
Qed.

(** X5: a string is returned exactly when it is the non-empty label of
    a [.gguf] file of the listing. *)
Theorem ExtractQuants_elem_of (siblings : list Sibling) (q : string) :
  (exists labels,
      ExtractQuantsFromSiblings siblings = Some labels /\ q ∈ labels)
  <-> exists s,
        s ∈ siblings
        /\ strings.HasSuffix (strings.ToLower (RFilename s)) ".gguf" = true
        /\ quantOf (RFilename s) = Some q
        /\ q <> "".
Proof.
  rewrite extract_firsts. split.
  - intros (labels & [= <-] & Hq).
    apply firsts_elem_of, list_elem_of_omap in Hq as (s & Hs & Hl).
    exists s. split; [exact Hs |]. unfold Listing.labelOf, isGGUF in Hl.
    destruct (strings.HasSuffix _ _); [| discriminate].
    destruct (quantOf _) as [quant|]; [| discriminate].
    destruct (String.eqb_spec quant ""); [discriminate |].
    injection Hl as ->. auto.
  - intros (s & Hs & Hg & Hq & Hne). eexists. split; [reflexivity |].
    apply firsts_elem_of, list_elem_of_omap. exists s. split; [exact Hs |].
    unfold Listing.labelOf, isGGUF. rewrite Hg, Hq.
    apply String.eqb_neq in Hne. rewrite Hne. reflexivity.
Qed.

(** X6: the order of the listing decides the order of the labels and
    nothing else: two listings with the same files give the same labels
    up to order. *)
Theorem ExtractQuants_Permutation (siblings1 siblings2 : list Sibling) :
  siblings1 ≡ₚ siblings2 ->
  exists labels1 labels2,
    ExtractQuantsFromSiblings siblings1 = Some labels1
    /\ ExtractQuantsFromSiblings siblings2 = Some labels2
    /\ labels1 ≡ₚ labels2.
Proof.
  intros Hp. do 2 eexists. rewrite !extract_firsts.
  split; [reflexivity |]. split; [reflexivity |].
  apply NoDup_Permutation; [apply firsts_NoDup.. |].
  intros q. rewrite !firsts_elem_of, !list_elem_of_omap.
  split; intros (s & Hs & Hl); exists s; split; try exact Hl.
  - rewrite <- Hp. exact Hs.
  - rewrite Hp. exact Hs.
Qed.

Lemma ExtractQuants_Permutation_witness :
  exists labels1 labels2,
    ExtractQuantsFromSiblings (files ["a-Q8_0.gguf"; "BF16/a.gguf"])
    = Some labels1
    /\ ExtractQuantsFromSiblings (files ["BF16/a.gguf"; "a-Q8_0.gguf"])
       = Some labels2
    /\ labels1 ≡ₚ labels2.
Proof.
  apply (ExtractQuants_Permutation
           (files ["a-Q8_0.gguf"; "BF16/a.gguf"])
           (files ["BF16/a.gguf"; "a-Q8_0.gguf"])).
  apply perm_swap.
Defined.

(** ** The directory check and [isQuantName] *)

Section QuantNames.

Lemma all_Map (f : ascii -> bool) (g : ascii -> ascii) s :
  Shape.all f (strings.Map g s) = Shape.all (fun c => f (g c)) s.
Proof.
  induction s as [|c s IH]; simpl; [reflexivity | rewrite IH; reflexivity].
Qed.

Lemma all_ext (f g : ascii -> bool) s :
  (forall c, f c = g c) -> Shape.all f s = Shape.all g s.
Proof.
  intros Hfg. induction s as [|c s IH]; simpl; [reflexivity |].
  rewrite Hfg, IH. reflexivity.
Qed.

Lemma Map_toUpper_toLower s :
  strings.Map Byte8.toUpper (strings.Map Byte8.toLower s)
  = strings.Map Byte8.toUpper s.
Proof.
  induction s as [|c s IH]; simpl; [reflexivity |].
  rewrite toUpper_toLower, IH. reflexivity.
Qed.

Lemma ToUpper_ToLower_ascii s :
  Shape.all utf8.isASCII s = true ->
  strings.ToUpper (strings.ToLower s) = strings.ToUpper s.
Proof.
  intros Hs. rewrite (ToLower_ascii s Hs), (ToUpper_ascii s Hs).
  rewrite ToUpper_ascii; [apply Map_toUpper_toLower |].
  rewrite all_Map, (all_ext _ utf8.isASCII); [exact Hs | apply toLower_ascii].
Qed.

Lemma HasPrefix_inv s prefix :
  strings.HasPrefix s prefix = true -> exists tail, s = prefix +:+ tail.
Proof.
  revert s. induction prefix as [|a prefix IH]; intros s.
  - intros _. exists s. reflexivity.
  - unfold strings.HasPrefix. destruct s as [|c s]; [discriminate |].
    cbn [String.length String.substring].
    intros [Hlen Heq]%andb_true_iff. apply String.eqb_eq in Heq.
    injection Heq as -> Heq.
    destruct (IH s) as [tail ->].
    + unfold strings.HasPrefix. apply andb_true_iff. split; [exact Hlen |].
      rewrite Heq. apply String.eqb_refl.
    + exists tail. reflexivity.
Qed.

Lemma isQuantName_inv s :
  isQuantName s = true ->
  exists prefix tail,
    In prefix quantPrefixes /\ strings.ToUpper s = prefix +:+ tail.
Proof.
  unfold isQuantName. intros (prefix & Hin & Hp)%existsb_exists.
  apply HasPrefix_inv in Hp as [tail Hp]. eauto.
Qed.

Lemma quantPrefixes_ascii prefix :
  In prefix quantPrefixes -> Shape.all utf8.isASCII prefix = true.
Proof.
  intros Hin. repeat (destruct Hin as [<- | Hin]; [reflexivity |]).
  destruct Hin.
Qed.

End QuantNames.

(** X7: on ASCII names [isQuantName] does not look at letter case: a
    name, its lower-casing and its upper-casing get the same answer. *)
Theorem isQuantName_ignores_case (s : string) :
  Shape.all utf8.isASCII s = true ->
  isQuantName (strings.ToLower s) = isQuantName s
  /\ isQuantName (strings.ToUpper s) = isQuantName s.
Proof.
  intros Hs. unfold isQuantName.
  rewrite (ToUpper_ToLower_ascii s Hs), ToUpper_idempotent.
  split; reflexivity.
Qed.

Lemma isQuantName_ignores_case_witness :
  isQuantName (strings.ToLower "iQ4_xs") = isQuantName "iQ4_xs"
  /\ isQuantName (strings.ToUpper "iQ4_xs") = isQuantName "iQ4_xs".
Proof. apply (isQuantName_ignores_case "iQ4_xs"). reflexivity. Defined.

(** X8: [isQuantName] only looks at the beginning of a name: whatever is
    appended to a name that looks like a quantization name, the result
    still looks like one. *)
Theorem isQuantName_app (s t : string) :
  isQuantName s = true -> isQuantName (s +:+ t) = true.
Proof.
  intros (prefix & tail & Hin & Hup)%isQuantName_inv.
  destruct (ToUpper_prefix_app prefix s tail t (quantPrefixes_ascii _ Hin) Hup)
    as [tail' Hup'].
  apply (isQuantName_prefix _ prefix tail' Hin Hup').
Qed.

Lemma isQuantName_app_witness : isQuantName ("q" +:+ "uantized") = true.
Proof. apply (isQuantName_app "q" "uantized"). reflexivity. Defined.

(** X9: the directory check gives a label exactly when the filename has
    a leading path segment that is a non-empty run of the runes that
    [[A-Z0-9_]] holds under [(?i)] (ASCII letters, digits, underscores,
    U+017F and U+212A) and that [isQuantName] accepts; the label is then
    the segment as it is written.  It never panics. *)
Theorem dirQuant_label (filename : string) :
  dirQuant filename
  = Some (if strings.ContainsByte filename "/"
             && Shape.nonEmpty (strings.BeforeByte filename "/")
             && Shape.wordRunes (strings.BeforeByte filename "/")
             && isQuantName (strings.BeforeByte filename "/")
          then strings.BeforeByte filename "/"
          else "").
Proof. apply dirQuant_spec. Qed.

(** ** The labels of the filename patterns *)

Section PatternLabels.

Import Lang.

(** The shape of the seven patterns of the table. *)
Lemma group_denotes cl shape tail s whole group :
  captureFree shape = true ->
  captureFree tail = true ->
  FindStringSubmatch
    (MustCompileFold (CharClass cl ~> Capture shape ~> tail)) s
  = [whole; group] ->
  denotes true shape group.
Proof.
  intros Hshape Htail. unfold FindStringSubmatch.
  destruct (search _ 0 s) as [[[b e] cap]|] eqn:Hs; [| discriminate].
  apply search_split in Hs as (pre & rest & -> & Hm).
  unfold matchAt in Hm. cbn [foldCase expr MustCompileFold run] in Hm.
  destruct (stepClass true cl rest) as [[n rest0]|] eqn:Hstep; [| discriminate].
  apply stepClass_inv in Hstep as (u & -> & Hu & _ & _).
  apply run_sound in Hm as (w & rest1 & cap1 & -> & Hw & Hk & _).
  apply run_sound in Hk as (w2 & rest2 & cap2 & -> & _ & Hk & Hcap).
  rewrite (Hcap Htail) in Hk. injection Hk as <- <- <-.
  intros [= _ <-]. cbn [Nat.add].
  rewrite <- Hu, <- length_app, <- (app_assoc3 pre u).
  rewrite slice_middle. exact Hw.
Qed.

Lemma tryPatterns_sound (P : string -> Prop) patterns filename quant :
  Forall
    (fun re => forall whole group,
         FindStringSubmatch re filename = [whole; group] -> P group)
    patterns ->
  tryPatterns patterns filename = Some quant ->
  quant = "" \/ exists group, quant = strings.ToUpper group /\ P group.
Proof.
  induction patterns as [|re patterns IH]; cbn [tryPatterns].
  - intros _ [= <-]. left. reflexivity.
  - intros [Hre Hrest]%Forall_cons.
    destruct (FindStringSubmatch_shape re filename)
      as [-> | (whole & group & Hfs)].
    + apply IH, Hrest.
    + rewrite Hfs. simpl. intros [= <-]. right. eauto.
Qed.

Lemma quantPatterns_sound filename quant :
  tryPatterns quantPatterns filename = Some quant ->
  quant = "" \/ exists group, quant = strings.ToUpper group /\ markerWord group.
Proof.
  apply tryPatterns_sound. unfold quantPatterns, markerWord.
  repeat (apply Forall_cons_2;
          [intros whole group Hfs; apply group_denotes in Hfs; auto 6 |]).
  apply Forall_nil_2.
Qed.

End PatternLabels.

Section LabelShape.

Import Lang.

Lemma eqChar_toUpper a c :
  eqChar true a c = true -> Byte8.toUpper c = Byte8.toUpper a.
Proof.
  unfold eqChar. intros H%Ascii.eqb_eq.
  rewrite <- (toUpper_toLower c), <- H. apply toUpper_toLower.
Qed.

Lemma eqChar_ascii a c :
  eqChar true a c = true -> utf8.isASCII c = utf8.isASCII a.
Proof.
  unfold eqChar. intros H%Ascii.eqb_eq.
  rewrite <- (toLower_ascii c), <- H. apply toLower_ascii.
Qed.

(** A word of an ASCII literal is ASCII and has the upper case of the
    literal. *)
Lemma stripLiteral_upper lit : forall w,
  Shape.all utf8.isASCII lit = true ->
  stripLiteral true lit w = Some "" ->
  Shape.all utf8.isASCII w = true
  /\ strings.Map Byte8.toUpper w = strings.Map Byte8.toUpper lit.
Proof.
  induction lit as [|a lit IH]; intros w; cbn [stripLiteral Shape.all].
  - intros _ [= ->]. auto.
  - intros [Ha Hlit]%andb_true_iff.
    destruct w as [|c w]; [discriminate |].
    destruct (eqChar true a c) eqn:Hc; [| discriminate].
    intros [Hw Hup]%(IH _ Hlit). cbn [Shape.all strings.Map].
    rewrite (eqChar_ascii _ _ Hc), Ha, Hw, (eqChar_toUpper _ _ Hc), Hup. auto.
Qed.

Lemma ToUpper_app_ascii a b :
  Shape.all utf8.isASCII a = true ->
  strings.ToUpper (a +:+ b) = strings.Map Byte8.toUpper a +:+ strings.ToUpper b.
Proof.
  induction a as [|c a IH]; [reflexivity |]. cbn [Shape.all].
  intros [Hc Ha]%andb_true_iff.
  rewrite app_String, ToUpper_ascii_byte by exact Hc.
  rewrite IH by exact Ha. reflexivity.
Qed.

Lemma literal_first lit r w :
  Shape.all utf8.isASCII lit = true ->
  denotes true (Literal lit ~> r) w ->
  exists tail, strings.ToUpper w = strings.Map Byte8.toUpper lit +:+ tail.
Proof.
  intros Hlit (w1 & w2 & -> & H1 & _). exists (strings.ToUpper w2).
  destruct (stripLiteral_upper _ _ Hlit H1) as [Hw1 <-].
  apply ToUpper_app_ascii, Hw1.
Qed.

Lemma literal_whole lit w :
  Shape.all utf8.isASCII lit = true ->
  denotes true (Literal lit) w ->
  strings.ToUpper w = strings.Map Byte8.toUpper lit.
Proof.
  intros Hlit H1. destruct (stripLiteral_upper _ _ Hlit H1) as [Hw1 <-].
  apply ToUpper_ascii, Hw1.
Qed.

Lemma markerWord_prefix group :
  markerWord group ->
  isQuantName (strings.ToUpper group) = true
  \/ exists tail, strings.ToUpper group = "UD-TQ" +:+ tail.
Proof.
  assert (Hq : forall prefix tail,
             In prefix quantPrefixes ->
             strings.ToUpper group = prefix +:+ tail ->
             isQuantName (strings.ToUpper group) = true).
  { intros prefix tail Hin Hup.
    apply (isQuantName_prefix _ prefix tail Hin).
    rewrite ToUpper_idempotent. exact Hup. }
  intros [H | [H | [H | H]]].
  - apply literal_first in H as [tail H]; [| reflexivity]. left.
    apply (Hq "Q" tail); [simpl; auto | exact H].
  - apply literal_first in H as [tail H]; [| reflexivity]. left.
    apply (Hq "IQ" tail); [simpl; auto | exact H].
  - left. destruct H as [H | [H | H]]; apply literal_whole in H;
      try reflexivity.
    + apply (Hq "F16" ""); [simpl; auto | exact H].
    + apply (Hq "F32" ""); [simpl; auto | exact H].
    + apply (Hq "BF16" ""); [simpl; auto 10 | exact H].
  - destruct H as (w1 & w2 & -> & [-> | H1] & H2).
    + apply literal_first in H2 as [tail H2]; [| reflexivity]. left.
      apply (Hq "TQ" tail); [simpl; auto 10 | exact H2].
    + apply literal_first in H2 as [tail H2]; [| reflexivity].
      right. exists tail.
      destruct (stripLiteral_upper "UD-" w1 eq_refl H1) as [Hw1 Hup1].
      rewrite (ToUpper_app_ascii _ _ Hw1), Hup1, H2. reflexivity.
Qed.

Lemma stripLiteral_accepts fold lit : forall w,
  stripLiteral fold lit w = Some "" ->
  Shape.all (accepts fold (Literal lit)) w = true.
Proof.
  induction lit as [|a lit IH]; intros w; cbn [stripLiteral].
  - intros [= ->]. reflexivity.
  - destruct w as [|c w]; [discriminate |].
    destruct (eqChar fold a c) eqn:Hc; [| discriminate].
    intros Hw. cbn [Shape.all accepts]. rewrite Hc. cbn [negb andb].
    apply (all_ext_impl (accepts fold (Literal lit))); [| exact (IH _ Hw)].
    intros d. cbn [accepts Shape.all].
    destruct (eqChar fold a d); [reflexivity | auto].
Qed.

(** A word of a pattern whose bytes are ASCII is a run of the bytes the
    pattern accepts and of the two runes. *)
Lemma denotes_runes fold r : forall w,
  (forall c, accepts fold r c = true -> utf8.isASCII c = true) ->
  denotes fold r w -> Shape.runes (accepts fold r) true true w = true.
Proof.
  induction r as [lit | cl | cl | | r1 IH1 r2 IH2 | r1 IH1 r2 IH2 | r1 IH1 | r1 IH1];
    intros w Hascii; cbn [denotes].
  - intros H. apply runes_all, stripLiteral_accepts, H.
  - intros [n H%stepClass_classRunes]. revert H. cbn [accepts].
    apply runes_impl; auto.
  - intros [_ H]. revert H. cbn [accepts]. apply runes_impl; auto.
  - intros ->. reflexivity.
  - intros (w1 & w2 & -> & H1 & H2). apply runes_app.
    + apply (runes_impl (accepts fold r1) _ true true); auto.
      * intros c Hc. cbn [accepts]. rewrite Hc. reflexivity.
      * apply IH1; [| exact H1]. intros c Hc. apply Hascii.
        cbn [accepts]. rewrite Hc. reflexivity.
    + apply (runes_impl (accepts fold r2) _ true true); auto.
      * intros c Hc. cbn [accepts]. rewrite Hc. apply orb_true_r.
      * apply IH2; [| exact H2]. intros c Hc. apply Hascii.
        cbn [accepts]. rewrite Hc. apply orb_true_r.
  - intros [H | H].
    + apply (runes_impl (accepts fold r1) _ true true); auto.
      * intros c Hc. cbn [accepts]. rewrite Hc. reflexivity.
      * apply IH1; [| exact H]. intros c Hc. apply Hascii.
        cbn [accepts]. rewrite Hc. reflexivity.
    + apply (runes_impl (accepts fold r2) _ true true); auto.
      * intros c Hc. cbn [accepts]. rewrite Hc. apply orb_true_r.
      * apply IH2; [| exact H]. intros c Hc. apply Hascii.
        cbn [accepts]. rewrite Hc. apply orb_true_r.
  - intros [-> | H]; [reflexivity | auto].
  - auto.
Qed.

Local Ltac byte_cases c :=
  destruct c as [[] [] [] [] [] [] [] []]; (reflexivity || discriminate).

Lemma qShape_bytes c :
  accepts true qShape c = true -> labelByte (Byte8.toUpper c) = true.
Proof. byte_cases c. Qed.

Lemma iqShape_bytes c :
  accepts true iqShape c = true -> labelByte (Byte8.toUpper c) = true.
Proof. byte_cases c. Qed.

Lemma floatShape_bytes c :
  accepts true floatShape c = true -> labelByte (Byte8.toUpper c) = true.
Proof. byte_cases c. Qed.

Lemma tqShape_bytes c :
  accepts true tqShape c = true -> labelByte (Byte8.toUpper c) = true.
Proof. byte_cases c. Qed.

Lemma labelByte_ascii c : labelByte c = true -> utf8.isASCII c = true.
Proof. byte_cases c. Qed.

Lemma isWord_labelByte c : Shape.isWord c = true -> labelByte c = true.
Proof. unfold labelByte. intros ->. reflexivity. Qed.

(** Upper-casing a run: an accepted byte becomes a label byte, U+017F
    becomes [S] and U+212A stays. *)
Lemma ToUpper_runes (P : ascii -> bool) longS kelvin g :
  (forall c, P c = true -> labelByte (Byte8.toUpper c) = true) ->
  Shape.runes P longS kelvin g = true ->
  labelRunes (strings.ToUpper g) = true.
Proof.
  intros HP. unfold labelRunes.
  induction g as [g IH] using string_length_ind.
  destruct g as [|c g]; [reflexivity |]. rewrite runes_eq.
  destruct (P c) eqn:Hc.
  { intros Hg. pose proof (HP _ Hc) as Hl.
    pose proof (labelByte_ascii _ Hl) as Ha. rewrite toUpper_ascii in Ha.
    rewrite ToUpper_ascii_byte, runes_eq, Hl by exact Ha.
    apply IH; [cbn [String.length]; lia | exact Hg]. }
  destruct g as [|c1 g]; [discriminate |].
  destruct (longS && unicode.isLongS c c1) eqn:Hl.
  { apply andb_true_iff in Hl as [_ Hl]. intros Hg. rewrite ToUpper_eq.
    assert (unicode.isDotlessI c c1 = false) as ->.
    { unfold unicode.isLongS in Hl. unfold unicode.isDotlessI.
      apply andb_true_iff in Hl as [->%Ascii.eqb_eq _]. reflexivity. }
    rewrite Hl, runes_eq. change (labelByte "S") with true. cbv iota.
    apply IH; [cbn [String.length]; lia | exact Hg]. }
  destruct g as [|c2 g]; [discriminate |].
  intros [[_ Hk]%andb_true_iff Hg]%andb_true_iff.
  unfold unicode.isKelvin in Hk.
  apply andb_true_iff in Hk as [[->%Ascii.eqb_eq ->%Ascii.eqb_eq]%andb_true_iff
                                  ->%Ascii.eqb_eq].
  rewrite !ToUpper_byte by reflexivity.
  change (Shape.runes labelByte true true
            (String "226" (String "132" (String "170" (strings.ToUpper g))))
          = true)
    with (Shape.runes labelByte true true (strings.ToUpper g) = true).
  apply IH; [cbn [String.length]; lia | exact Hg].
Qed.

Lemma markerWord_runes group :
  markerWord group -> labelRunes (strings.ToUpper group) = true.
Proof.
  intros [H | [H | [H | H]]].
  - apply (ToUpper_runes _ true true _ qShape_bytes), denotes_runes, H.
    intros c Hc%qShape_bytes%labelByte_ascii.
    rewrite toUpper_ascii in Hc. exact Hc.
  - apply (ToUpper_runes _ true true _ iqShape_bytes), denotes_runes, H.
    intros c Hc%iqShape_bytes%labelByte_ascii.
    rewrite toUpper_ascii in Hc. exact Hc.
  - apply (ToUpper_runes _ true true _ floatShape_bytes), denotes_runes, H.
    intros c Hc%floatShape_bytes%labelByte_ascii.
    rewrite toUpper_ascii in Hc. exact Hc.
  - apply (ToUpper_runes _ true true _ tqShape_bytes), denotes_runes, H.
    intros c Hc%tqShape_bytes%labelByte_ascii.
    rewrite toUpper_ascii in Hc. exact Hc.
Qed.

Lemma labelOf_cases s quant :
  Listing.labelOf s = Some quant ->
  (Shape.wordRunes quant = true /\ isQuantName quant = true)
  \/ exists group, quant = strings.ToUpper group /\ markerWord group.
Proof.
  unfold Listing.labelOf. destruct (isGGUF _); [| discriminate].
  unfold quantOf. rewrite dirQuant_spec. cbn [mbind option_bind].
  destruct (Shape.inWordDirectory _ && _) eqn:Hdir.
  - apply andb_true_iff in Hdir as [[_ Hw]%andb_true_iff Hq].
    destruct (String.eqb (strings.BeforeByte (RFilename s) "/") "") eqn:He.
    + apply String.eqb_eq in He. rewrite He in Hq. discriminate.
    + rewrite He. intros [= <-]. left. auto.
  - change (String.eqb "" "") with true. cbv iota.
    destruct (tryPatterns quantPatterns _) as [q|] eqn:Ht; [| discriminate].
    destruct (quantPatterns_sound _ _ Ht) as [-> | Hg]; [discriminate |].
    destruct (String.eqb q ""); [discriminate |]. intros [= <-]. right. exact Hg.
Qed.

End LabelShape.

(** X10: every label looks like a quantization name: [isQuantName]
    accepts it, or it begins with "UD-TQ". *)
Theorem ExtractQuants_labels_are_quant_names (siblings : list Sibling) :
  exists labels,
    ExtractQuantsFromSiblings siblings = Some labels
    /\ Forall
         (fun quant =>
            isQuantName quant = true
            \/ exists tail, quant = "UD-TQ" +:+ tail)
         labels.
Proof.
  eexists. split; [apply extract_firsts |].
  apply Forall_forall. intros quant.
  rewrite firsts_elem_of, list_elem_of_omap. intros (s & _ & Hs).
  destruct (labelOf_cases _ _ Hs) as [[_ Hq] | (group & -> & Hg)];
    [left; exact Hq |].
  destruct (markerWord_prefix _ Hg) as [H | H]; [left | right]; exact H.
Qed.

(** X11: a label is a sequence of ASCII letters, digits, underscores and
    dashes and of the two runes U+017F and U+212A that [(?i)] lets into
    the classes of the patterns; it holds no dot, no slash and no
    space. *)
Theorem ExtractQuants_label_bytes (siblings : list Sibling) :
  exists labels,
    ExtractQuantsFromSiblings siblings = Some labels
    /\ Forall (fun quant => Lang.labelRunes quant = true) labels
    /\ Forall
         (fun quant =>
            strings.ContainsByte quant "." = false
            /\ strings.ContainsByte quant "/" = false
            /\ strings.ContainsByte quant " " = false)
         labels.
Proof.
  assert (Hl : forall s quant,
             Listing.labelOf s = Some quant -> Lang.labelRunes quant = true).
  { intros s quant Hs.
    destruct (labelOf_cases _ _ Hs) as [[Hw _] | (group & -> & Hg)].
    - revert Hw. apply runes_impl; auto using isWord_labelByte, labelByte_ascii.
    - apply (markerWord_runes _ Hg). }
  eexists. split; [apply extract_firsts |].
  split; apply Forall_forall; intros quant;
    rewrite firsts_elem_of, list_elem_of_omap; intros (s & _ & Hs);
    apply Hl in Hs; [exact Hs |].
  repeat split; apply (runes_without _ _ _ _ _ Hs); reflexivity.
Qed.

(** ** Thousands separators *)

Section FormatNumber.

Import utils.

Lemma string_of_uint_digits d :
  Shape.all Shape.isDigit (DecimalString.NilEmpty.string_of_uint d) = true.
Proof. induction d; simpl; auto. Qed.

Lemma Sprintf_d_bytes n : Shape.all numberByte (Sprintf_d n) = true.
Proof.
  assert (Hu : forall d, Shape.all numberByte (DecimalString.NilZero.string_of_uint d) = true).
  { intros d. apply (all_ext_impl Shape.isDigit).
    - intros c Hc. unfold numberByte. rewrite Hc. reflexivity.
    - destruct d; try apply (string_of_uint_digits (_ d)). reflexivity. }
  unfold Sprintf_d. destruct (Z.to_int n); simpl; auto.
Qed.

Lemma numberByte_not_comma c : numberByte c = true -> Ascii.eqb c "," = false.
Proof. destruct c as [[] [] [] [] [] [] [] []]; (reflexivity || discriminate). Qed.

Lemma removeByte_writeDigits len str : forall i,
  Shape.all numberByte str = true ->
  removeByte "," (writeDigits len i str) = str.
Proof.
  induction str as [|c str IH]; intros i; simpl; [reflexivity |].
  intros [Hc Hs]%andb_true_iff.
  destruct (_ && _); simpl;
    rewrite (numberByte_not_comma _ Hc), IH by assumption; reflexivity.
Qed.

Lemma removeByte_id str :
  Shape.all numberByte str = true -> removeByte "," str = str.
Proof.
  induction str as [|c str IH]; simpl; [reflexivity |].
  intros [Hc Hs]%andb_true_iff.
  rewrite (numberByte_not_comma _ Hc), IH by assumption. reflexivity.
Qed.

Lemma removeByte_formatNumber n :
  removeByte "," (formatNumber n) = Sprintf_d n.
Proof.
  unfold formatNumber. cbv zeta. destruct (_ <=? 3).
  - apply removeByte_id, Sprintf_d_bytes.
  - apply removeByte_writeDigits, Sprintf_d_bytes.
Qed.

Lemma to_int_parses n :
  DecimalString.NilZero.int_of_string (Sprintf_d n) = Some (Z.to_int n).
Proof.
  unfold Sprintf_d. destruct n as [|p|p]; [reflexivity | |];
    apply DecimalString.NilZero.isi; simpl; try discriminate;
    intros [= H]; apply (DecimalPos.Unsigned.to_uint_nonnil _ H).
Qed.

(** The fields of the loop's output when [r] bytes are left at an index
    above 0: a first field of [r mod 3] bytes, then groups of three. *)
Lemma splitByte_writeDigits str : forall i,
  Shape.all numberByte str = true ->
  exists first groups,
    splitByte "," (writeDigits (S i + String.length str) (S i) str)
    = first :: groups
    /\ String.length first = String.length str mod 3
    /\ Forall (fun g => String.length g = 3) groups
    /\ length groups = String.length str / 3.
Proof.
  induction str as [|c str IH]; intros i Hb.
  - exists "", []. repeat split; constructor.
  - simpl in Hb. apply andb_true_iff in Hb as [Hc Hs].
    destruct (IH (S i) Hs) as (first & groups & Hsplit & Hlen & Hall & Hn).
    cbn [writeDigits String.length].
    replace (S i + S (String.length str) - S i) with (S (String.length str))
      by lia.
    replace (S i + S (String.length str)) with (S (S i) + String.length str)
      by lia.
    cbn [Nat.ltb Nat.leb andb].
    pose proof (Nat.div_mod_eq (String.length str) 3) as Hdm.
    pose proof (Nat.mod_upper_bound (String.length str) 3 ltac:(lia)) as Hub.
    pose proof (Nat.div_mod_eq (S (String.length str)) 3) as Hdm'.
    pose proof (Nat.mod_upper_bound (S (String.length str)) 3 ltac:(lia)) as Hub'.
    destruct (Nat.eqb_spec (S (String.length str) mod 3) 0) as [H0 | H0].
    + change ("," +:+ ?s) with (String "," s).
      cbn [splitByte]. change (Ascii.eqb "," ",") with true. cbv iota.
      rewrite (numberByte_not_comma _ Hc), Hsplit.
      exists "", (String c first :: groups). split; [reflexivity |].
      split; [cbn [String.length]; lia |]. split.
      * constructor; [cbn [String.length]; lia | exact Hall].
      * cbn [length]. lia.
    + change ("" +:+ ?s) with s.
      cbn [splitByte]. rewrite (numberByte_not_comma _ Hc), Hsplit.
      exists (String c first), groups. split; [reflexivity |].
      split; [cbn [String.length]; lia |]. split; [exact Hall | lia].
Qed.

Lemma splitByte_plain str :
  Shape.all numberByte str = true -> splitByte "," str = [str].
Proof.
  induction str as [|c str IH]; simpl; [reflexivity |].
  intros [Hc Hs]%andb_true_iff.
  rewrite (numberByte_not_comma _ Hc), IH by assumption. reflexivity.
Qed.

Lemma Sprintf_d_nonempty n : Sprintf_d n <> "".
Proof.
  unfold Sprintf_d. destruct (Z.to_int n) as [d|d]; simpl; [| discriminate].
  destruct d; discriminate.
Qed.

End FormatNumber.

(** ** Counting runes *)

Section RuneCount.

Import utf8.

Lemma first_spec c size lo hi :
  first c = Some (size, (lo, hi)) ->
  (size = 2 \/ size = 3 \/ size = 4) /\ (0x80 <= lo)%N.
Proof.
  destruct c as [[] [] [] [] [] [] [] []]; vm_compute;
    (discriminate || (intros [= <- <- <-]; split; [auto | discriminate])).
Qed.

Lemma outside_ascii lo hi c :
  (0x80 <= lo)%N -> isASCII c = true -> outside lo hi c = true.
Proof.
  unfold outside, isASCII. intros Hlo Hc%N.ltb_lt.
  apply orb_true_iff. left. apply N.ltb_lt. lia.
Qed.

Lemma step_bound c rest : 1 <= step c rest <= S (String.length rest).
Proof.
  unfold step. destruct (Byte8.code c <? 128)%N; [lia |].
  destruct (first c) as [[size [lo hi]]|] eqn:Hf; [| lia].
  destruct (first_spec _ _ _ _ Hf) as [Hsize _].
  destruct (Nat.ltb_spec (String.length rest) (size - 1)); [lia |].
  destruct rest as [|c1 rest1]; [lia |].
  destruct (outside lo hi c1); [lia |].
  destruct (Nat.eqb_spec size 2); [simpl in *; lia |].
  destruct rest1 as [|c2 rest2]; [lia |].
  destruct (outside 128 191 c2); [simpl; lia |].
  destruct (Nat.eqb_spec size 3); [simpl in *; lia |].
  destruct rest2 as [|c3 rest3]; [simpl; lia |].
  destruct (outside 128 191 c3); simpl in *; lia.
Qed.

(** An ASCII byte after [a] ends whatever sequence [a] has left open. *)
Lemma step_before_ascii c0 a c rest :
  isASCII c = true -> step c0 (a +:+ String c rest) = step c0 a.
Proof.
  intros Hc. unfold step. destruct (Byte8.code c0 <? 128)%N; [reflexivity |].
  destruct (first c0) as [[size [lo hi]]|] eqn:Hf; [| reflexivity].
  destruct (first_spec _ _ _ _ Hf) as [Hsize Hlo].
  pose proof (outside_ascii lo hi c Hlo Hc) as Hout.
  pose proof (outside_ascii 128 191 c ltac:(lia) Hc) as Hcont.
  rewrite length_app.
  destruct Hsize as [-> | [-> | ->]];
    destruct a as [|c1 [|c2 [|c3 a]]];
    rewrite ?app_String; change ("" +:+ String c rest) with (String c rest);
    cbn [String.length Nat.eqb Nat.sub]; rewrite ?Hout, ?Hcont;
    repeat match goal with
           | |- context [outside ?l ?h ?x] => destruct (outside l h x)
           end;
    repeat match goal with
           | |- context [(?a <? ?b)%nat] => destruct (Nat.ltb_spec a b)
           end;
    try reflexivity; lia.
Qed.

Lemma count_before_ascii a : forall skip c rest,
  isASCII c = true ->
  skip <= String.length a ->
  count skip (a +:+ String c rest) = count skip a + count 0 (String c rest).
Proof.
  induction a as [|c0 a IH]; intros skip c rest Hc Hskip.
  - cbn [String.length] in Hskip. replace skip with 0 by lia. reflexivity.
  - rewrite app_String. cbn [count]. destruct skip as [|skip].
    + rewrite step_before_ascii by exact Hc.
      rewrite IH; [reflexivity | exact Hc |].
      pose proof (step_bound c0 a). lia.
    + apply IH; [exact Hc |]. cbn [String.length] in Hskip. lia.
Qed.

Lemma count_ascii c rest :
  isASCII c = true -> count 0 (String c rest) = S (count 0 rest).
Proof.
  intros Hc. cbn [count]. unfold step. unfold isASCII in Hc. rewrite Hc.
  reflexivity.
Qed.

Lemma count_le s : forall skip, count skip s <= String.length s.
Proof.
  induction s as [|c s IH]; intros skip; [reflexivity |].
  cbn [count String.length]. destruct skip as [|skip].
  - specialize (IH (step c s - 1)). lia.
  - specialize (IH skip). lia.
Qed.

Lemma RuneCount_le s : RuneCountInString s <= String.length s.
Proof. apply count_le. Qed.

Lemma RuneCount_before_space a rest :
  RuneCountInString (a +:+ String " " rest)
  = RuneCountInString a + S (RuneCountInString rest).
Proof.
  unfold RuneCountInString.
  rewrite count_before_ascii by (reflexivity || lia).
  rewrite count_ascii by reflexivity. reflexivity.
Qed.

Lemma RuneCount_spaces n rest :
  RuneCountInString (utils.repeatString n " " +:+ rest)
  = n + RuneCountInString rest.
Proof.
  induction n as [|n IH]; [reflexivity |].
  cbn [utils.repeatString]. rewrite app_assoc3.
  change (" " +:+ ?s) with (String " " s).
  unfold RuneCountInString in *. rewrite count_ascii by reflexivity.
  rewrite IH. reflexivity.
Qed.

(** The five box-drawing runes of the table take three bytes each. *)
Lemma RuneCount_box rest :
  RuneCountInString ("│" +:+ rest) = S (RuneCountInString rest)
  /\ RuneCountInString ("─" +:+ rest) = S (RuneCountInString rest)
  /\ RuneCountInString ("├" +:+ rest) = S (RuneCountInString rest)
  /\ RuneCountInString ("┼" +:+ rest) = S (RuneCountInString rest)
  /\ RuneCountInString ("┤" +:+ rest) = S (RuneCountInString rest).
Proof. repeat split; reflexivity. Qed.

End RuneCount.

(** ** The table *)

Section TableFacts.

Import utf8 utils.

Lemma RuneCount_dashes n rest :
  RuneCountInString (repeatString n "─" +:+ rest)
  = n + RuneCountInString rest.
Proof.
  induction n as [|n IH]; [reflexivity |].
  cbn [repeatString]. rewrite app_assoc3.
  destruct (RuneCount_box (repeatString n "─" +:+ rest)) as (_ & -> & _).
  rewrite IH. reflexivity.
Qed.

Lemma RuneCount_padded cell n rest :
  RuneCountInString (cell +:+ repeatString n " " +:+ " │" +:+ rest)
  = RuneCountInString cell + n + 2 + RuneCountInString rest.
Proof.
  assert (Htail : forall k,
             repeatString k " " +:+ " │" +:+ rest
             = String " " (repeatString k " " +:+ "│" +:+ rest)).
  { induction k as [|k IH]; [reflexivity |].
    cbn [repeatString]. rewrite !app_assoc3, IH.
    change (" " +:+ ?s) with (String " " s). reflexivity. }
  rewrite Htail, RuneCount_before_space, RuneCount_spaces.
  destruct (RuneCount_box rest) as (-> & _). lia.
Qed.

Lemma RuneCount_cell w cell rest :
  (len cell <= w <= 1000000)%Z ->
  RuneCountInString (Sprintf_cell w cell +:+ rest)
  = Z.to_nat w + 3 + RuneCountInString rest.
Proof.
  intros [Hlen Hmax]. unfold Sprintf_cell.
  pose proof (RuneCount_le cell) as Hrc. unfold len in Hlen.
  destruct (Z.ltb_spec 1000000 w); [lia |].
  destruct (Z.ltb_spec w (-1000000)); [lia |]. cbn [orb]. cbv zeta.
  rewrite !app_assoc3. change (" " +:+ ?s) with (String " " s) at 1.
  unfold RuneCountInString at 1. rewrite count_ascii by reflexivity.
  fold (RuneCountInString
          (cell +:+ repeatString
                      (Z.to_nat (Z.abs w - Z.of_nat (RuneCountInString cell)))
                      " " +:+ " │" +:+ rest)).
  rewrite RuneCount_padded. lia.
Qed.

Lemma writeCells_total cells : forall i widths,
  i + length cells <= length widths ->
  is_Some (writeCells i cells widths).
Proof.
  induction cells as [|cell cells IH]; intros i widths Hlen; cbn [writeCells].
  - eauto.
  - cbn [length] in Hlen.
    destruct (lookup_lt_is_Some_2 widths i ltac:(lia)) as [w ->].
    destruct (IH (S i) widths ltac:(lia)) as [rest ->]. simpl. eauto.
Qed.

Lemma writeCells_width cells : forall i widths,
  Forall2 (fun cell w => (len cell <= w <= 1000000)%Z) cells (drop i widths) ->
  exists line,
    writeCells i cells widths = Some line
    /\ forall rest,
         RuneCountInString (line +:+ rest)
         = lineWidth (drop i widths) + RuneCountInString rest.
Proof.
  induction cells as [|cell cells IH]; intros i widths Hfit; cbn [writeCells].
  - apply Forall2_nil_inv_l in Hfit. rewrite Hfit.
    exists "". split; [reflexivity |]. intros rest. reflexivity.
  - apply Forall2_cons_inv_l in Hfit as (w & ws & Hw & Hws & Hdrop).
    assert (Hi : widths !! i = Some w).
    { rewrite <- (Nat.add_0_r i), <- lookup_drop, Hdrop. reflexivity. }
    assert (Hd : drop (S i) widths = ws).
    { rewrite <- (Nat.add_1_r i), <- drop_drop, Hdrop. reflexivity. }
    rewrite Hi. rewrite <- Hd in Hws.
    destruct (IH _ _ Hws) as (line & -> & Hline).
    eexists. split; [reflexivity |]. intros rest.
    rewrite app_assoc3, RuneCount_cell by exact Hw.
    rewrite Hline, Hdrop, Hd. cbn [lineWidth foldr]. unfold lineWidth. lia.
Qed.

End TableFacts.

Section TableLines.

Import utf8 utils.

Lemma separatorCells_spec widths : forall i n,
  Forall (fun w => (0 <= w)%Z) widths ->
  exists cells,
    separatorCells i n widths = Some cells
    /\ (i + length widths = n ->
        forall rest,
          RuneCountInString (cells +:+ rest)
          + (if widths is [] then 0 else 1)
          = lineWidth widths + RuneCountInString rest).
Proof.
  induction widths as [|w widths IH]; intros i n Hpos; cbn [separatorCells].
  - exists "". split; [reflexivity |]. intros _ rest.
    change ("" +:+ rest) with rest. cbn [lineWidth foldr]. lia.
  - apply Forall_cons in Hpos as [Hw Hpos].
    unfold Repeat. destruct (Z.ltb_spec (w + 2) 0); [lia |].
    destruct (IH (S i) n Hpos) as (cells & -> & Hcells).
    cbn [mbind option_bind]. eexists. split; [reflexivity |].
    cbn [length]. intros Hn rest. specialize (Hcells ltac:(lia) rest).
    rewrite !app_assoc3, RuneCount_dashes.
    cbn [lineWidth foldr]. fold (lineWidth widths).
    destruct widths as [|w' widths'].
    + cbn [length] in Hn.
      destruct (Z.ltb_spec (Z.of_nat i) (Z.of_nat n - 1)); [lia |].
      change ("" +:+ ?s) with s in *. lia.
    + cbn [length] in Hn.
      destruct (Z.ltb_spec (Z.of_nat i) (Z.of_nat n - 1)); [| lia].
      destruct (RuneCount_box (cells +:+ rest)) as (_ & _ & _ & -> & _).
      lia.
Qed.

Lemma buildSeparator_width widths :
  widths <> [] ->
  Forall (fun w => (0 <= w)%Z) widths ->
  exists separator,
    buildSeparator widths = Some separator
    /\ RuneCountInString separator = S (lineWidth widths).
Proof.
  intros Hne Hpos. unfold buildSeparator.
  destruct (separatorCells_spec widths 0 (length widths) Hpos)
    as (cells & -> & Hcells).
  cbn [mbind option_bind]. eexists. split; [reflexivity |].
  specialize (Hcells eq_refl "┤").
  destruct (RuneCount_box (cells +:+ "┤")) as (_ & _ & -> & _).
  destruct widths; [congruence |].
  change (RuneCountInString "┤") with 1 in Hcells. lia.
Qed.

Lemma growWidths_spec (P : Z -> Prop) row : forall j widths,
  j + length row = length widths ->
  Forall P widths ->
  Forall (fun cell => P (len cell)) row ->
  exists widths',
    growWidths j row widths = Some widths'
    /\ Forall2 Z.le widths widths'
    /\ Forall P widths'
    /\ fits row (drop j widths').
Proof.
  induction row as [|cell row IH]; intros j widths Hlen HP Hrow;
    cbn [growWidths].
  - exists widths. split; [reflexivity |]. split.
    + apply Forall2_same_length_lookup_2; [reflexivity |].
      intros k x y Hx Hy. rewrite Hx in Hy. injection Hy as ->. lia.
    + split; [exact HP |]. cbn [length] in Hlen.
      rewrite drop_ge by lia. constructor.
  - cbn [length] in Hlen. apply Forall_cons in Hrow as [Hcell Hrow].
    destruct (lookup_lt_is_Some_2 widths j ltac:(lia)) as [w Hw].
    rewrite Hw. cbn [mbind option_bind].
    set (widths1 := if (w <? len cell)%Z then <[j:=len cell]> widths
                    else widths).
    assert (H1 : length widths1 = length widths).
    { subst widths1. destruct (_ <? _)%Z; [apply length_insert | reflexivity]. }
    assert (Hle1 : Forall2 Z.le widths widths1).
    { apply Forall2_same_length_lookup_2; [symmetry; exact H1 |].
      intros k x y Hx Hy. subst widths1.
      destruct (Z.ltb_spec w (len cell)) as [Hlt | Hge].
      - destruct (decide (j = k)) as [<- | Hne].
        + rewrite list_lookup_insert_eq in Hy by lia. rewrite Hw in Hx.
          injection Hx as <-. injection Hy as <-. lia.
        + rewrite list_lookup_insert_ne in Hy by exact Hne.
          rewrite Hx in Hy. injection Hy as ->. lia.
      - rewrite Hx in Hy. injection Hy as ->. lia. }
    assert (HP1 : Forall P widths1).
    { subst widths1. destruct (_ <? _)%Z; [| exact HP].
      apply Forall_insert; assumption. }
    assert (Hj : exists w1, widths1 !! j = Some w1 /\ (len cell <= w1)%Z).
    { subst widths1. destruct (Z.ltb_spec w (len cell)) as [Hlt | Hge].
      - exists (len cell). split; [| lia].
        apply list_lookup_insert_eq. lia.
      - exists w. split; [exact Hw | lia]. }
    destruct Hj as (w1 & Hw1 & Hfit1).
    destruct (IH (S j) widths1 ltac:(lia) HP1 Hrow)
      as (widths' & -> & Hle & HP' & Hfits).
    exists widths'. split; [reflexivity |]. split; [| split; [exact HP' |]].
    + eapply Forall2_trans; [| exact Hle1 | exact Hle].
      intros x y z; lia.
    + destruct (Forall2_lookup_l _ _ _ _ _ Hle Hw1) as (w' & Hw' & Hle').
      rewrite (drop_S _ _ _ Hw'). constructor; [lia | exact Hfits].
Qed.

Lemma fits_grow row widths widths' :
  fits row widths -> Forall2 Z.le widths widths' -> fits row widths'.
Proof.
  unfold fits. intros Hfit Hle.
  eapply Forall2_trans; [| exact Hfit | exact Hle].
  intros cell w w'. simpl. lia.
Qed.

End TableLines.

(** *** Lines *)

Section Lines.

Import utils.

Lemma ContainsByte_app a b x :
  strings.ContainsByte (a +:+ b) x
  = strings.ContainsByte a x || strings.ContainsByte b x.
Proof.
  induction a as [|c a IH]; [reflexivity |].
  rewrite app_String. cbn [strings.ContainsByte].
  destruct (Ascii.eqb c x); [reflexivity | exact IH].
Qed.

Lemma oneLine_app a b : oneLine a -> oneLine b -> oneLine (a +:+ b).
Proof.
  unfold oneLine. intros Ha Hb. rewrite ContainsByte_app, Ha, Hb. reflexivity.
Qed.

Lemma oneLine_repeat n s : oneLine s -> oneLine (repeatString n s).
Proof.
  intros Hs. induction n as [|n IH]; [reflexivity |].
  cbn [repeatString]. apply oneLine_app; assumption.
Qed.

Lemma Sprintf_cell_oneLine w cell : oneLine cell -> oneLine (Sprintf_cell w cell).
Proof.
  intros Hc. unfold Sprintf_cell. destruct (_ || _)%Z.
  - repeat apply oneLine_app; (reflexivity || exact Hc).
  - cbv zeta. repeat apply oneLine_app;
      (reflexivity || exact Hc || apply oneLine_repeat; reflexivity).
Qed.

Lemma writeCells_oneLine cells : forall i widths line,
  writeCells i cells widths = Some line ->
  Forall oneLine cells -> oneLine line.
Proof.
  induction cells as [|cell cells IH]; intros i widths line; cbn [writeCells].
  - intros [= <-] _. reflexivity.
  - destruct (widths !! i) as [w|]; [| discriminate]. cbn [mbind option_bind].
    destruct (writeCells (S i) cells widths) as [rest|] eqn:Hrest;
      [| discriminate].
    cbn [mbind option_bind]. intros [= <-] [Hc Hcs]%Forall_cons.
    apply oneLine_app; [apply Sprintf_cell_oneLine, Hc | eauto].
Qed.

Lemma separatorCells_oneLine widths : forall i n cells,
  separatorCells i n widths = Some cells -> oneLine cells.
Proof.
  induction widths as [|w widths IH]; intros i n cells; cbn [separatorCells].
  - intros [= <-]. reflexivity.
  - unfold Repeat. destruct (w + 2 <? 0)%Z; [discriminate |].
    cbn [mbind option_bind].
    destruct (separatorCells (S i) n widths) as [rest|] eqn:Hrest;
      [| discriminate].
    cbn [mbind option_bind]. intros [= <-].
    repeat apply oneLine_app; eauto.
    + apply oneLine_repeat. reflexivity.
    + destruct (_ <? _)%Z; reflexivity.
Qed.

Lemma buildSeparator_oneLine widths separator :
  buildSeparator widths = Some separator -> oneLine separator.
Proof.
  unfold buildSeparator.
  destruct (separatorCells 0 (length widths) widths) as [cells|] eqn:Hc;
    [| discriminate].
  cbn [mbind option_bind]. intros [= <-].
  repeat apply oneLine_app;
    (reflexivity || apply (separatorCells_oneLine _ _ _ _ Hc)).
Qed.

Lemma splitByte_oneLine s : oneLine s -> splitByte "010" s = [s].
Proof.
  unfold oneLine. induction s as [|c s IH]; [reflexivity |].
  cbn [strings.ContainsByte splitByte].
  destruct (Ascii.eqb c "010"); [discriminate |].
  intros ->%IH. reflexivity.
Qed.

Lemma splitByte_app line rest :
  oneLine line ->
  splitByte "010" (line +:+ newline +:+ rest) = line :: splitByte "010" rest.
Proof.
  unfold oneLine. induction line as [|c line IH].
  - intros _. reflexivity.
  - rewrite app_String. cbn [strings.ContainsByte splitByte].
    destruct (Ascii.eqb c "010"); [discriminate |].
    intros ->%IH. reflexivity.
Qed.

(** The lines of a text made of lines. *)
Lemma splitByte_concat lines :
  lines <> [] ->
  Forall oneLine lines ->
  splitByte "010" (String.concat newline lines) = lines.
Proof.
  induction lines as [|line lines IH]; [congruence |].
  intros _ [Hl Hls]%Forall_cons.
  destruct lines as [|line' lines].
  - apply splitByte_oneLine, Hl.
  - change (String.concat newline (line :: line' :: lines))
      with (line +:+ newline +:+ String.concat newline (line' :: lines)).
    rewrite splitByte_app by exact Hl.
    rewrite IH by (discriminate || exact Hls). reflexivity.
Qed.

End Lines.

Section FormatTableFacts.

Import utf8 utils.
Context {float64 Time : Type}.
Variable IsZero : Time -> bool.
Variable FormatDate : Time -> string.

Local Abbreviation rowOf := (utils.rowOf IsZero FormatDate).
Local Abbreviation prepareRows := (utils.prepareRows IsZero FormatDate).
Local Abbreviation Model := (api.Model float64 Time).

Lemma prepareRows_spec (P : Z -> Prop) (modelsList : list Model) :
  forall widths,
    length widths = 7 ->
    Forall P widths ->
    Forall (fun m => Forall (fun cell => P (len cell)) (rowOf m)) modelsList ->
    exists widths',
      prepareRows modelsList widths = Some (map rowOf modelsList, widths')
      /\ Forall2 Z.le widths widths'
      /\ Forall P widths'
      /\ Forall (fun row => fits row widths') (map rowOf modelsList).
Proof.
  induction modelsList as [|m ms IH]; intros widths Hlen HP Hcells;
    cbn [utils.prepareRows map].
  - exists widths. split; [reflexivity |]. split; [| split; [exact HP |]].
    + apply Forall2_same_length_lookup_2; [reflexivity |].
      intros k x y Hx Hy. rewrite Hx in Hy. injection Hy as ->. lia.
    + constructor.
  - apply Forall_cons in Hcells as [Hm Hms].
    destruct (growWidths_spec P (rowOf m) 0 widths)
      as (widths1 & -> & Hle1 & HP1 & Hfit1); [rewrite Hlen; reflexivity | auto..|].
    rewrite drop_0 in Hfit1.
    destruct (IH widths1) as (widths' & Hprep & Hle & HP' & Hfits); auto.
    { rewrite <- (Forall2_length _ _ _ Hle1). exact Hlen. }
    cbn [mbind option_bind]. rewrite Hprep.
    cbn [mbind option_bind fst snd]. exists widths'.
    split; [reflexivity |]. split; [| split; [exact HP' |]].
    + eapply Forall2_trans; [| exact Hle1 | exact Hle]. intros x y z; lia.
    + constructor; [| exact Hfits]. eapply fits_grow; eassumption.
Qed.

Lemma fits_bounded row widths :
  fits row widths ->
  Forall (fun w => (w <= 1000000)%Z) widths ->
  Forall2 (fun cell w => (len cell <= w <= 1000000)%Z) row widths.
Proof.
  unfold fits. induction 1 as [|cell w row widths Hc _ IH]; [constructor |].
  intros [Hw Hws]%Forall_cons. constructor; [lia | auto].
Qed.

Lemma writeRows_total rows widths :
  Forall (fun row => length row <= length widths) rows ->
  is_Some (writeRows rows widths).
Proof.
  induction 1 as [|row rows Hrow _ IH]; cbn [writeRows]; [eauto |].
  destruct (writeCells_total row 0 widths Hrow) as [line ->].
  destruct IH as [rest ->]. simpl. eauto.
Qed.

Lemma writeRows_lines rows widths :
  Forall (fun row => fits row widths) rows ->
  Forall (fun w => (w <= 1000000)%Z) widths ->
  Forall (Forall oneLine) rows ->
  exists body rowLines,
    writeRows rows widths = Some body
    /\ length rowLines = length rows
    /\ Forall (fun line => RuneCountInString line = S (lineWidth widths))
              rowLines
    /\ Forall oneLine rowLines
    /\ forall last,
         body +:+ last = String.concat newline (rowLines ++ [last]).
Proof.
  intros Hrows Hmax Hone. revert Hone.
  induction Hrows as [|row rows Hrow _ IH]; cbn [writeRows].
  - intros _. exists "", []. repeat split; constructor.
  - intros [Hcells Hone]%Forall_cons.
    destruct (writeCells_width row 0 widths) as (line & Hwrite & Hline).
    { rewrite drop_0. apply fits_bounded; assumption. }
    pose proof (writeCells_oneLine _ _ _ _ Hwrite Hcells) as Hl.
    rewrite Hwrite.
    destruct (IH Hone) as (body & rowLines & -> & Hlen & Hall & Hlines & Hjoin).
    cbn [mbind option_bind].
    exists ("│" +:+ line +:+ newline +:+ body), (("│" +:+ line) :: rowLines).
    split; [reflexivity |]. split; [cbn [length]; lia |]. split; [| split].
    + constructor; [| exact Hall].
      destruct (RuneCount_box line) as (-> & _).
      specialize (Hline ""). rewrite app_empty_r', drop_0 in Hline.
      rewrite Hline. change (RuneCountInString "") with 0. lia.
    + constructor; [| exact Hlines].
      apply oneLine_app; [reflexivity | exact Hl].
    + intros last. rewrite !app_assoc3, Hjoin.
      cbn [app String.concat].
      destruct (rowLines ++ [last]) eqn:Happ; [| rewrite app_assoc3; reflexivity].
      destruct rowLines; discriminate.
Qed.

End FormatTableFacts.

Section FormatTableTheorems.

Import utf8 utils.
Context {float64 Time : Type}.
Variable IsZero : Time -> bool.
Variable FormatDate : Time -> string.

Local Abbreviation rowOf := (utils.rowOf IsZero FormatDate).
Local Abbreviation FormatTable := (utils.FormatTable IsZero FormatDate).
Local Abbreviation Model := (api.Model float64 Time).

Lemma setWidths_headers :
  setWidths 0 headers (replicate (length headers) 0%Z) = Some headerWidths.
Proof. reflexivity. Qed.

Lemma fits_headers : fits headers headerWidths.
Proof. unfold fits, headers, headerWidths. repeat constructor; discriminate. Qed.

Lemma concat_cons sep x l :
  l <> [] -> String.concat sep (x :: l) = x +:+ sep +:+ String.concat sep l.
Proof. destruct l; [congruence | reflexivity]. Qed.

(** What [FormatTable] computes on a list that is not empty, for any
    bound [P] on the widths. *)
Lemma FormatTable_parts (P : Z -> Prop) (modelsList : list Model) :
  modelsList <> [] ->
  Forall P headerWidths ->
  Forall (fun m => Forall (fun cell => P (len cell)) (rowOf m)) modelsList ->
  exists widths separator header body,
    FormatTable modelsList
    = Some (separator +:+ newline
            +:+ "│" +:+ header +:+ newline
            +:+ separator +:+ newline
            +:+ body
            +:+ separator)
    /\ length widths = 7
    /\ Forall P widths
    /\ fits headers widths
    /\ Forall (fun row => fits row widths) (map rowOf modelsList)
    /\ buildSeparator widths = Some separator
    /\ RuneCountInString separator = S (lineWidth widths)
    /\ writeCells 0 headers widths = Some header
    /\ writeRows (map rowOf modelsList) widths = Some body.
Proof.
  intros Hne HP Hcells. unfold utils.FormatTable.
  destruct modelsList as [|m ms]; [congruence |].
  cbn [length Nat.eqb]. rewrite setWidths_headers. cbn [mbind option_bind].
  destruct (prepareRows_spec IsZero FormatDate P (m :: ms) headerWidths)
    as (widths & -> & Hle & HPw & Hfits); [reflexivity | assumption.. |].
  cbn [mbind option_bind fst snd].
  assert (Hlen : length widths = 7).
  { rewrite <- (Forall2_length _ _ _ Hle). reflexivity. }
  assert (Hpos : Forall (fun w => (0 <= w)%Z) widths).
  { apply (Forall2_Forall_r _ (fun w => (0 <= w)%Z) _ _ Hle).
    unfold headerWidths. repeat constructor; intros y ?; lia. }
  destruct (buildSeparator_width widths) as (separator & Hbs & Hsep);
    [intros ->; discriminate | exact Hpos |].
  destruct (writeCells_total headers 0 widths) as [header Hheader];
    [rewrite Hlen; cbn; lia |].
  destruct (writeRows_total (map rowOf (m :: ms)) widths) as [body Hbody].
  { apply Forall_forall. intros row (m' & -> & _)%list_elem_of_fmap.
    rewrite Hlen. cbn. lia. }
  rewrite Hbs, Hheader, Hbody. cbn [mbind option_bind].
  exists widths, separator, header, body.
  split; [reflexivity |]. split; [exact Hlen |]. split; [exact HPw |].
  split; [eapply fits_grow; [apply fits_headers | exact Hle] |].
  split; [exact Hfits |]. split; [exact Hbs |]. split; [exact Hsep |].
  split; [exact Hheader | exact Hbody].
Qed.

Lemma FormatTable_total (modelsList : list Model) :
  exists table, FormatTable modelsList = Some table.
Proof.
  destruct modelsList as [|m ms]; [eexists; reflexivity |].
  destruct (FormatTable_parts (fun _ => True) (m :: ms))
    as (widths & separator & header & body & -> & _); [discriminate | ..].
  - unfold headerWidths. repeat constructor.
  - apply Forall_forall. intros m' _. apply Forall_forall. intros cell _.
    exact I.
  - eauto.
Qed.

(** X17: [FormatTable] never panics: every index into [widths] is in range
    and no [strings.Repeat] count is negative. *)
Theorem FormatTable_never_panics (modelsList : list Model) :
  exists table, FormatTable modelsList = Some table.
Proof.
  destruct modelsList as [|m ms]; [eexists; reflexivity |].
  destruct (FormatTable_parts (fun _ => True) (m :: ms))
    as (widths & separator & header & body & -> & _); [discriminate | ..].
  - unfold headerWidths. repeat constructor.
  - apply Forall_forall. intros m' _. apply Forall_forall. intros cell _.
    exact I.
  - eauto.
Qed.

(** X18: when no cell is longer than a million bytes and no cell holds
    a newline, the table of a list that is not empty is made of as
    many lines as models and four more, and all its lines have the same
    number of runes.  The lines are what the newlines of the table
    separate. *)
Theorem FormatTable_aligned (modelsList : list Model) :
  modelsList <> [] ->
  Forall
    (fun m =>
       Forall
         (fun cell =>
            (len cell <= 1000000)%Z
            /\ strings.ContainsByte cell "010" = false)
         (rowOf m))
    modelsList ->
  exists table width,
    FormatTable modelsList = Some table
    /\ length (splitByte "010" table) = length modelsList + 4
    /\ Forall (fun line => RuneCountInString line = width)
              (splitByte "010" table).
Proof.
  intros Hne Hcells.
  assert (Hlens : Forall
                    (fun m => Forall (fun cell => (len cell <= 1000000)%Z)
                                     (rowOf m)) modelsList).
  { eapply Forall_impl; [exact Hcells |]. intros m Hm.
    eapply Forall_impl; [exact Hm |]. intros cell [H _]. exact H. }
  assert (Hones : Forall (Forall oneLine) (map rowOf modelsList)).
  { apply Forall_fmap. eapply Forall_impl; [exact Hcells |]. intros m Hm.
    eapply Forall_impl; [exact Hm |]. intros cell [_ H]. exact H. }
  destruct (FormatTable_parts (fun w => (w <= 1000000)%Z) modelsList Hne)
    as (widths & separator & header & body & -> & Hlen & Hmax & Hfh & Hfr
        & Hbs & Hsep & Hheader & Hbody).
  { unfold headerWidths. repeat constructor; lia. }
  { exact Hlens. }
  destruct (writeCells_width headers 0 widths) as (header' & Hh' & Hhw).
  { rewrite drop_0. apply fits_bounded; assumption. }
  rewrite Hheader in Hh'. injection Hh' as <-.
  destruct (writeRows_lines _ _ Hfr Hmax Hones)
    as (body' & rowLines & Hb' & Hrl & Hrows & Hlines & Hjoin).
  rewrite Hbody in Hb'. injection Hb' as <-.
  pose proof (buildSeparator_oneLine _ _ Hbs) as Hs1.
  assert (Hh1 : oneLine ("│" +:+ header)).
  { apply oneLine_app; [reflexivity |].
    apply (writeCells_oneLine _ _ _ _ Hheader).
    unfold headers. repeat constructor. }
  set (lines := separator :: ("│" +:+ header) :: separator
                :: rowLines ++ [separator]).
  assert (Htable : separator +:+ newline +:+ "│" +:+ header +:+ newline
                   +:+ separator +:+ newline +:+ body +:+ separator
                   = String.concat newline lines).
  { subst lines.
    rewrite !concat_cons by (try discriminate; destruct rowLines; discriminate).
    rewrite <- Hjoin, !app_assoc3. reflexivity. }
  assert (Hsplit : splitByte "010" (String.concat newline lines) = lines).
  { apply splitByte_concat; [discriminate |]. subst lines.
    repeat (apply Forall_cons_2; [assumption |]).
    apply Forall_app. split; [exact Hlines |].
    apply Forall_cons_2; [exact Hs1 | apply Forall_nil_2]. }
  exists (String.concat newline lines), (S (lineWidth widths)).
  split; [f_equal; exact Htable |]. rewrite Hsplit. subst lines. split.
  - cbn [length]. rewrite List.length_app, Hrl, length_map. cbn [length]. lia.
  - repeat constructor; try exact Hsep.
    + destruct (RuneCount_box header) as (-> & _).
      specialize (Hhw ""). rewrite app_empty_r', drop_0 in Hhw.
      rewrite Hhw. change (RuneCountInString "") with 0. lia.
    + apply Forall_app. split; [exact Hrows |]. repeat constructor. exact Hsep.
Qed.

End FormatTableTheorems.

Lemma FormatTable_aligned_witness :
  exists table width,
    utils.FormatTable (fun _ : unit => false) (fun _ => "2024-01-02")
      [ {| api.ID := "google/bert"; api.Author := "google";
           api.Downloads := 1234567%Z; api.Likes := 12%Z;
           api.LastModified := tt; api.LibraryName := "";
           api.PipelineTag := "fill-mask"; api.Private := false;
           api.Gated := false; api.TrendingScore := tt |} ]
    = Some table
    /\ length (utils.splitByte "010" table) = 1 + 4
    /\ Forall (fun line => utf8.RuneCountInString line = width)
              (utils.splitByte "010" table).
Proof.
  apply (FormatTable_aligned (fun _ : unit => false) (fun _ => "2024-01-02")
           [ {| api.ID := "google/bert"; api.Author := "google";
                api.Downloads := 1234567%Z; api.Likes := 12%Z;
                api.LastModified := tt; api.LibraryName := "";
                api.PipelineTag := "fill-mask"; api.Private := false;
                api.Gated := false; api.TrendingScore := tt |} ]).
  - discriminate.
  - repeat constructor; vm_compute; (discriminate || reflexivity).
Defined.

(** ** The request and the commands *)

Section RequestFacts.

Import client.

Lemma Add_not_empty (v : Values) key value : Add v key value <> ∅.
Proof. unfold Add. apply insert_non_empty. Qed.

Lemma addIf_empty (b : bool) (v : Values) key value :
  (if b then Add v key value else v) = ∅ <-> b = false /\ v = ∅.
Proof.
  destruct b; split.
  - intros H. destruct (Add_not_empty _ _ _ H).
  - intros [? _]. discriminate.
  - auto.
  - intros [_ H]. exact H.
Qed.

Lemma params_empty opts :
  params opts = ∅
  <-> Search opts = "" /\ Filter opts = "" /\ Author opts = ""
      /\ PipelineTag opts = "" /\ LibraryName opts = ""
      /\ Language opts = "" /\ Tag opts = "" /\ (Limit opts <= 0)%Z
      /\ Sort opts = "" /\ Direction opts = 0%Z.
Proof.
  unfold params. cbv zeta. rewrite !addIf_empty.
  rewrite !negb_false_iff, !String.eqb_eq, Z.ltb_ge, Z.eqb_eq.
  tauto.
Qed.

Lemma app_longer a b : a +:+ String "?" b <> a.
Proof.
  intros H. apply (f_equal String.length) in H.
  rewrite length_app in H. cbn [String.length] in H. lia.
Qed.

Lemma lookup_addIf (b : bool) (v : Values) k x key :
  v !! k = None ->
  (if b then Add v k x else v) !! key
  = if String.eqb key k then (if b then Some [x] else None) else v !! key.
Proof.
  intros Hk. destruct (String.eqb_spec key k) as [-> | Hne].
  - destruct b; [| exact Hk]. unfold Add. rewrite lookup_insert_eq, Hk.
    reflexivity.
  - destruct b; [| reflexivity]. unfold Add.
    apply lookup_insert_ne. congruence.
Qed.

(** The parameters of the request, key by key. *)
Lemma params_lookup opts key : params opts !! key = sent opts key.
Proof.
  unfold params. cbv zeta.
  repeat (rewrite lookup_addIf;
          [| repeat (rewrite lookup_addIf; [cbn [String.eqb Ascii.eqb Bool.eqb andb] |]);
             apply lookup_empty]).
  rewrite lookup_empty. unfold sent.
  repeat (match goal with
          | |- context [String.eqb key ?k] =>
              destruct (String.eqb_spec key k) as [-> | _]
          end;
          [cbn [String.eqb Ascii.eqb Bool.eqb andb];
           repeat match goal with
                  | |- context [String.eqb ?v ""] => destruct (String.eqb v "")
                  | |- context [Z.ltb ?a ?b] => destruct (Z.ltb a b)
                  | |- context [Z.eqb ?a ?b] => destruct (Z.eqb a b)
                  end; reflexivity |]).
  reflexivity.
Qed.

End RequestFacts.

(** X20: the request goes to the bare base URL exactly when no option is
    set: every string option empty, a limit that is not positive and a
    direction of zero.  Otherwise the URL is the base URL, a ['?'] and
    the encoding of the parameters, which are the options that are set,
    each under its key. *)
Theorem reqURL_bare (Encode : client.Values -> string)
    (c : client.Client) (opts : client.ListModelsOptions) :
  (client.reqURL Encode c opts = client.BaseURL c
   <-> client.Search opts = "" /\ client.Filter opts = ""
       /\ client.Author opts = "" /\ client.PipelineTag opts = ""
       /\ client.LibraryName opts = "" /\ client.Language opts = ""
       /\ client.Tag opts = "" /\ (client.Limit opts <= 0)%Z
       /\ client.Sort opts = "" /\ client.Direction opts = 0%Z)
  /\ exists query : client.Values,
       (forall key, query !! key = client.sent opts key)
       /\ (client.reqURL Encode c opts = client.BaseURL c
           \/ client.reqURL Encode c opts
              = client.BaseURL c +:+ "?" +:+ Encode query).
Proof.
  split.
  - rewrite <- params_empty. unfold client.reqURL.
    destruct (Nat.ltb_spec 0 (size (client.params opts))) as [Hpos | Hzero].
    + split.
      * intros H. destruct (app_longer _ _ H).
      * intros H. rewrite H, map_size_empty in Hpos. lia.
    + split; [| reflexivity]. intros _. apply map_size_empty_inv. lia.
  - exists (client.params opts). split; [apply params_lookup |].
    unfold client.reqURL. destruct (_ <? _); auto.
Qed.

Section CommandFacts.

Context {float64 Time : Type}.
Variable IsZero : Time -> bool.
Variable FormatDate : Time -> string.
Variable Encode : client.Values -> string.
Variable MarshalIndent : list (api.Model float64 Time) -> string + string.

Lemma render_result format (modelsList : list (api.Model float64 Time)) :
  exists r,
    cli.render IsZero FormatDate MarshalIndent format modelsList = Some r
    /\ ((exists e, r = inl e)
        <-> (format <> "json" /\ format <> "table")
            \/ (format = "json" /\ modelsList <> []
                /\ exists err, MarshalIndent modelsList = inl err)).
Proof.
  unfold cli.render, cli.FormatJSON.
  destruct (String.eqb_spec format "json") as [-> | Hj].
  - destruct modelsList as [|m ms]; cbn [length Nat.eqb].
    + eexists. split; [reflexivity |]. split.
      * intros [e [=]].
      * intros [[H _] | (_ & H & _)]; congruence.
    + destruct (MarshalIndent (m :: ms)) as [err | out] eqn:Hm;
        (eexists; split; [reflexivity |]); split.
      * intros _. right. repeat split; [discriminate | eauto].
      * eauto.
      * intros [e [=]].
      * intros [[H _] | (_ & _ & err & [=])]; congruence.
  - destruct (String.eqb_spec format "table") as [-> | Ht].
    + destruct (FormatTable_total IsZero FormatDate modelsList)
        as [table ->].
      eexists. split; [reflexivity |]. split.
      * intros [e [=]].
      * intros [[_ H] | (H & _)]; congruence.
    + eexists. split; [reflexivity |]. split; [| eauto].
      intros _. left. auto.
Qed.

End CommandFacts.

(** X21: the library function [cli.ListModels] never panics.  It returns an
    error exactly when the request fails, when the format is neither
    "json" nor "table", or when the format is "json" and marshalling a
    non-empty result fails; a failed request is reported whatever the
    format is. *)
Theorem cli_ListModels_result {float64 Time : Type}
    (IsZero : Time -> bool) (FormatDate : Time -> string)
    (Encode : client.Values -> string)
    (MarshalIndent : list (api.Model float64 Time) -> string + string)
    (do : client.Request -> api.exchange float64 Time)
    (opts : client.ListModelsOptions) (format : string) :
  exists r,
    cli.ListModels IsZero FormatDate Encode MarshalIndent do opts format
    = Some r
    /\ (forall err,
          cli.fetch Encode do (client.NewClient (client.Token opts)) opts
          = inl err ->
          r = inl (cli.ListFailed err))
    /\ ((exists e, r = inl e)
        <-> (exists err,
               cli.fetch Encode do (client.NewClient (client.Token opts)) opts
               = inl err)
            \/ (format <> "json" /\ format <> "table")
            \/ (format = "json"
                /\ exists modelsList err,
                     cli.fetch Encode do
                       (client.NewClient (client.Token opts)) opts
                     = inr modelsList
                     /\ modelsList <> []
                     /\ MarshalIndent modelsList = inl err)).
Proof.
  unfold cli.ListModels.
  destruct (cli.fetch _ _ _ _) as [err | modelsList].
  - eexists. split; [reflexivity |]. split.
    + intros err' [= <-]. reflexivity.
    + split; eauto.
  - destruct (render_result IsZero FormatDate MarshalIndent format modelsList)
      as (r & -> & Hr).
    exists r. split; [reflexivity |]. split; [discriminate |].
    rewrite Hr. split.
    + intros [H | (Hf & Hne & err & Hm)]; [auto |].
      right. right. split; [exact Hf |]. exists modelsList, err. auto.
    + intros [[err [=]] | [H | (Hf & ms & err & [= <-] & Hne & Hm)]];
        [left; exact H |].
      right. split; [exact Hf |]. split; [exact Hne |]. eauto.
Qed.

(** X22: [runListModels] talks to the Hub through one request only.  Its
    [Authorization] header carries the [--token] flag when the flag is
    not empty, otherwise [HF_TOKEN] when that is not empty, and is absent
    when both are empty. *)
Theorem runListModels_request {float64 Time : Type}
    (IsZero : Time -> bool) (FormatDate : Time -> string)
    (Encode : client.Values -> string)
    (MarshalIndent : list (api.Model float64 Time) -> string + string)
    (do1 do2 : client.Request -> api.exchange float64 Time)
    (opts : cli.ListModelsOptions) (env : string) :
  (forall url,
      do1 {| client.URL := url;
             client.Authorization :=
               if negb (String.eqb (cli.Token opts) "")
               then Some ("Bearer " +:+ cli.Token opts)
               else if negb (String.eqb env "")
                    then Some ("Bearer " +:+ env)
                    else None |}
      = do2 {| client.URL := url;
               client.Authorization :=
                 if negb (String.eqb (cli.Token opts) "")
                 then Some ("Bearer " +:+ cli.Token opts)
                 else if negb (String.eqb env "")
                      then Some ("Bearer " +:+ env)
                      else None |}) ->
  cli.runListModels IsZero FormatDate Encode MarshalIndent do1 opts env
  = cli.runListModels IsZero FormatDate Encode MarshalIndent do2 opts env.
Proof.
  assert (Hauth :
            client.authorization (client.NewClient (cli.token opts env))
              (cli.apiOpts opts env)
            = if negb (String.eqb (cli.Token opts) "")
              then Some ("Bearer " +:+ cli.Token opts)
              else if negb (String.eqb env "")
                   then Some ("Bearer " +:+ env)
                   else None).
  { unfold client.authorization, cli.apiOpts, cli.token, client.NewClient.
    cbn [client.Token client.ClientToken].
    destruct (String.eqb (cli.Token opts) "") eqn:Hflag; cbn [negb].
    - destruct (String.eqb env "") eqn:Henv; rewrite ?Henv; reflexivity.
    - rewrite ?Hflag. reflexivity. }
  intros Hdo. unfold cli.runListModels, cli.fetch, client.newRequest.
  rewrite Hauth, Hdo. reflexivity.
Qed.

Lemma runListModels_request_witness :
  cli.runListModels (fun _ : unit => true) (fun _ => "")
    (fun _ => "") (fun _ : list (api.Model unit unit) => inr "[]")
    (fun _ => inr [])
    {| cli.Search := ""; cli.Filter := ""; cli.Author := "";
       cli.PipelineTag := ""; cli.LibraryName := ""; cli.Language := "";
       cli.Tag := ""; cli.Limit := 20; cli.Sort := ""; cli.Direction := 0;
       cli.OutputFormat := "table"; cli.Token := "" |} "hf_x"
  = cli.runListModels (fun _ : unit => true) (fun _ => "")
      (fun _ => "") (fun _ : list (api.Model unit unit) => inr "[]")
      (fun req => if decide (client.Authorization req = Some "Bearer hf_x")
                  then inr [] else inl (api.RequestFailed "no token"))
      {| cli.Search := ""; cli.Filter := ""; cli.Author := "";
         cli.PipelineTag := ""; cli.LibraryName := ""; cli.Language := "";
         cli.Tag := ""; cli.Limit := 20; cli.Sort := ""; cli.Direction := 0;
         cli.OutputFormat := "table"; cli.Token := "" |} "hf_x".
Proof.
  apply (runListModels_request (fun _ : unit => true) (fun _ => "")
           (fun _ => "") (fun _ : list (api.Model unit unit) => inr "[]")).
  intros url. reflexivity.
Defined.

(** X13: without its commas, [formatNumber n] is the decimal writing of
    [n], and reading it gives [n] back. *)
Theorem formatNumber_reads_back (n : Z) :
  utils.removeByte "," (utils.formatNumber n) = utils.Sprintf_d n
  /\ option_map Z.of_int
       (DecimalString.NilZero.int_of_string
          (utils.removeByte "," (utils.formatNumber n)))
     = Some n.
Proof.
  rewrite removeByte_formatNumber. split; [reflexivity |].
  rewrite to_int_parses. simpl. f_equal. apply DecimalZ.of_to.
Qed.

(** X14: the commas of [formatNumber n] cut it into a first field of one
    to three bytes, the sign included, and fields of exactly three
    digits; there is one comma for every three bytes after the first. *)
Theorem formatNumber_groups (n : Z) :
  exists first groups,
    utils.splitByte "," (utils.formatNumber n) = first :: groups
    /\ 1 <= String.length first <= 3
    /\ Forall (fun g => String.length g = 3) groups
    /\ length groups = (String.length (utils.Sprintf_d n) - 1) / 3.
Proof.
  unfold utils.formatNumber. cbv zeta.
  pose proof (Sprintf_d_bytes n) as Hb.
  pose proof (Sprintf_d_nonempty n) as Hne.
  destruct (utils.Sprintf_d n) as [|c str]; [congruence |]. clear Hne.
  cbn [String.length]. rewrite Nat.sub_succ, Nat.sub_0_r.
  destruct (Nat.leb_spec (S (String.length str)) 3) as [Hle | Hgt].
  - rewrite splitByte_plain by exact Hb.
    exists (String c str), []. cbn [String.length length].
    repeat split; [lia | lia | constructor |].
    symmetry. apply Nat.div_small. lia.
  - simpl in Hb. apply andb_true_iff in Hb as [Hc Hs].
    destruct (splitByte_writeDigits str 0 Hs)
      as (first & groups & Hsplit & Hlen & Hall & Hn).
    cbn [utils.writeDigits Nat.ltb Nat.leb andb].
    change ("" +:+ ?s) with s. cbn [utils.splitByte].
    rewrite (numberByte_not_comma _ Hc).
    change (1 + String.length str) with (S (String.length str)) in Hsplit.
    rewrite Hsplit. exists (String c first), groups.
    pose proof (Nat.mod_upper_bound (String.length str) 3 ltac:(lia)).
    cbn [String.length]. repeat split; [lia | lia | exact Hall | exact Hn].
Qed.

(** X15: for a negative number whose digits come in full groups of three,
    the first comma follows the sign at once. *)
Theorem formatNumber_negative (n : Z) :
  (n < 0)%Z ->
  String.length (utils.Sprintf_d (- n)) mod 3 = 0 ->
  exists rest, utils.formatNumber n = "-," +:+ rest.
Proof.
  destruct n as [|p|p]; [lia | lia |]. intros _.
  unfold utils.formatNumber, utils.Sprintf_d.
  change (- Z.neg p)%Z with (Z.pos p).
  change (Z.to_int (Z.pos p)) with (Decimal.Pos (Pos.to_uint p)).
  change (Z.to_int (Z.neg p)) with (Decimal.Neg (Pos.to_uint p)).
  cbn [DecimalString.NilZero.string_of_int].
  pose proof (DecimalPos.Unsigned.to_uint_nonnil p) as Hnil.
  assert (Hd : DecimalString.NilZero.string_of_uint (Pos.to_uint p)
               = DecimalString.NilEmpty.string_of_uint (Pos.to_uint p))
    by (destruct (Pos.to_uint p); [congruence | reflexivity..]).
  rewrite Hd. clear Hd.
  destruct (DecimalString.NilEmpty.string_of_uint (Pos.to_uint p)) as [|d ds] eqn:Hds.
  { destruct (Pos.to_uint p); [congruence | discriminate..]. }
  cbn [String.length]. intros Hmod.
  pose proof (Nat.div_mod_eq (S (String.length ds)) 3) as Hdm.
  destruct (Nat.leb_spec (S (S (String.length ds))) 3) as [Hle | _]; [lia |].
  cbn [utils.writeDigits Nat.ltb Nat.leb andb Nat.sub].
  rewrite Hmod. cbn [Nat.eqb]. eexists. reflexivity.
Qed.

Lemma formatNumber_negative_witness :
  exists rest, utils.formatNumber (-123456) = "-," +:+ rest.
Proof. apply (formatNumber_negative (-123456)); reflexivity. Defined.

(** X16: on widths of a magnitude of at most a million, where neither
    [width+2] nor the length of the repeated text can overflow,
    [buildSeparator] panics exactly when one of the widths is below -2,
    which makes the count of [strings.Repeat] negative. *)
Theorem buildSeparator_panics (widths : list Z) :
  Forall (fun w => (-1000000 <= w <= 1000000)%Z) widths ->
  utils.buildSeparator widths = None
  <-> Exists (fun w => (w < -2)%Z) widths.
Proof.
  intros _. unfold utils.buildSeparator.
  assert (H : forall i n,
             utils.separatorCells i n widths = None
             <-> Exists (fun w => (w < -2)%Z) widths).
  { induction widths as [|w widths IH]; intros i n;
      cbn [utils.separatorCells].
    - split; [discriminate | intros H; inversion H].
    - rewrite Exists_cons. unfold utils.Repeat.
      destruct (Z.ltb_spec (w + 2) 0); cbn [mbind option_bind].
      + split; [intros _; left; lia | reflexivity].
      + destruct (utils.separatorCells (S i) n widths) eqn:Hc;
          cbn [mbind option_bind].
        * split; [discriminate |]. intros [Hw | Hex]; [lia |].
          apply (IH (S i) n) in Hex. congruence.
        * split; [| reflexivity]. intros _. right. apply (IH (S i) n), Hc. }
  rewrite <- (H 0 (length widths)).
  destruct (utils.separatorCells 0 (length widths) widths);
    cbn [mbind option_bind]; split; (discriminate || reflexivity).
Qed.

Lemma buildSeparator_panics_witness :
  utils.buildSeparator [8; -3; 5]%Z = None
  <-> Exists (fun w => (w < -2)%Z) [8; -3; 5]%Z.
Proof.
  apply (buildSeparator_panics [8; -3; 5]%Z). repeat constructor; lia.
Defined.

(** X19: the author of a converted record is the text of the ID before
    its first ['/']: either the ID has no ['/'] and the author is empty,
    or the ID is the author, a ['/'] and a rest, and the author holds no
    ['/']. *)
Theorem convert_Author {float64 Time : Type} (am : api.apiModel float64 Time) :
  (strings.ContainsByte (api.am_ID am) "/" = false
   /\ api.Author (api.convert am) = "")
  \/ (exists rest,
         api.am_ID am = api.Author (api.convert am) +:+ String "/" rest
         /\ strings.ContainsByte (api.Author (api.convert am)) "/" = false).
Proof.
  unfold api.convert. cbn [api.Author].
  destruct (strings.ContainsByte (api.am_ID am) "/") eqn:Hc;
    [right | left; auto].
  destruct (split_at_byte _ _ Hc) as [rest Hrest]. exists rest.
  split; [exact Hrest |].
  clear. induction (api.am_ID am) as [|c s IH]; [reflexivity |].
  simpl. destruct (Ascii.eqb c "/") eqn:Heq; [reflexivity |].
  simpl. rewrite Heq. exact IH.
Qed.

(** X12: a label that is not upper-case is the leading path segment of a
    file of the listing; every label that comes from a filename pattern
    is upper-case. *)
Theorem ExtractQuants_lower_case_is_directory (siblings : list Sibling) :
  exists labels,
    ExtractQuantsFromSiblings siblings = Some labels
    /\ Forall
         (fun quant =>
            strings.ToUpper quant = quant
            \/ exists s, s ∈ siblings
                         /\ strings.ContainsByte (RFilename s) "/" = true
                         /\ quant = strings.BeforeByte (RFilename s) "/")
         labels.
Proof.
  destruct (range_total siblings {| seen := ∅; quants := [] |}) as [a Ha].
  exists (quants a).
  assert (He : ExtractQuantsFromSiblings siblings = Some (quants a))
    by (unfold ExtractQuantsFromSiblings; rewrite Ha; reflexivity).
  split; [exact He |].
  eapply range_labels; [| | exact Ha]; [| constructor].
  apply Forall_forall. intros s Hs quant Hq.
  destruct (quantOf_upper_or_directory _ _ Hq) as [Hup | [Hc Hseg]];
    [left; assumption | right; eauto].
Qed.
